(** * Contact import, contact/user management and dashboard statistics

    A shallow embedding of the client-side logic of the messaging
    application (the [ContactManagement], [UserManagement] and
    [Dashboard] components) together with the properties of its import
    pipeline and its guards.

    The components are React function components: their state lives in
    [useState] cells and their handlers are closures that call the
    setters and the hosted store.  A handler is modelled as a
    computation over a world made of the component's state cells, the
    store and the log of requests sent to the store. *)

From Stdlib Require Import ZArith List String Ascii SpecFloat.
From stdpp Require Import gmap strings list fin_maps sorting.

#[local] Open Scope string_scope.
#[local] Open Scope list_scope.
#[local] Set Warnings "-register-all".

(** ** JavaScript values

    The components declare their rows as [any]; a row is whatever the
    parser of the file produced.  Numbers are IEEE 754 doubles, objects
    are finite maps from property names to values. *)

Inductive JsValue : Type :=
| JUndefined
| JNull
| JBool (b : bool)
| JNum (x : spec_float)
| JStr (s : string)
| JArr (items : list JsValue)
| JObj (fields : gmap string JsValue).

(** An object as the code handles it: its own properties. *)
Abbreviation JsObject := (gmap string JsValue).

(** [ToBoolean]: the values that [!v], [v || w] and [v && w] treat as
    true. *)
Definition truthy (v : JsValue) : bool :=
  match v with
  | JUndefined | JNull => false
  | JBool b => b
  | JNum (S754_zero _) | JNum S754_nan => false
  | JNum _ => true
  | JStr s => negb (String.eqb s "")
  | JArr _ | JObj _ => true
  end.

(** A thrown [Error]: the handlers only read its [message]. *)
Record Exn := { message : string }.

(** The completion of an expression: a value, or an exception. *)
Inductive Completion (A : Type) : Type :=
| Normal (a : A)
| Throw (e : Exn).
Arguments Normal {A} a.
Arguments Throw {A} e.

#[global] Instance Completion_ret : MRet Completion := fun A a => Normal a.
#[global] Instance Completion_bind : MBind Completion := fun A B f c =>
  match c with
  | Normal a => f a
  | Throw e => Throw e
  end.

(** [a || b]: [b] is evaluated only when [a] is falsy. *)
Definition or_else (a b : Completion JsValue) : Completion JsValue :=
  v ← a; if truthy v then Normal v else b.
Infix "|||" := or_else (at level 50, left associativity).

(** The JavaScript engine: the text of the [TypeError] raised when a
    property [k] is read or called on a value that does not have it. *)
Class Engine := { TypeError_message : JsValue → string → string }.

Section Values.
Context `{Engine}.

Definition TypeError (v : JsValue) (k : string) : Exn :=
  {| message := TypeError_message v k |}.

(** [v.k] for the property names the components read ([name],
    [email], [sent_via], ...): none of them is defined on a built-in
    prototype, so only an object's own properties answer; reading a
    property of [undefined] or [null] throws. *)
Definition get (v : JsValue) (k : string) : Completion JsValue :=
  match v with
  | JUndefined | JNull => Throw (TypeError v k)
  | JObj fields => Normal (default JUndefined (fields !! k))
  | _ => Normal JUndefined
  end.
End Values.

(** [o.k] on an object. *)
Definition field (o : JsObject) (k : string) : JsValue :=
  default JUndefined (o !! k).

(** [obj[k] = v] on a plain object, for the string values the text
    parser stores: the key [__proto__] reaches the accessor of
    [Object.prototype], which ignores a string and creates no property. *)
Definition assign (k : string) (v : JsValue) (obj : JsObject) : JsObject :=
  if String.eqb k "__proto__" then obj else <[k := v]> obj.

(** ** Strings

    A [string] is the sequence of the code units of a JavaScript string;
    the model covers the code units below 256 (Latin-1). *)

Definition code (c : ascii) : N := N_of_ascii c.

(** [s.split(sep)] for a separator that matches exactly one code unit
    (the string ['\n'], the string ['.'], the class [/[,\t]/]): the
    result always has at least one segment. *)
Fixpoint split (sep : ascii → bool) (s : string) : list string :=
  match s with
  | EmptyString => [""]
  | String c s' =>
      if sep c then "" :: split sep s'
      else match split sep s' with
           | seg :: segs => String c seg :: segs
           | [] => [String c ""]
           end
  end.

Definition is_newline (c : ascii) : bool := (code c =? 10)%N.
Definition is_dot (c : ascii) : bool := (code c =? 46)%N.
Definition is_comma_or_tab (c : ascii) : bool :=
  (code c =? 44)%N || (code c =? 9)%N.

(** White space and line terminators of ECMAScript below 256: TAB, LF,
    VT, FF, CR, SP and NBSP. *)
Definition is_white (c : ascii) : bool :=
  let n := code c in
  ((9 <=? n)%N && (n <=? 13)%N) || (n =? 32)%N || (n =? 160)%N.

Fixpoint trimStart (s : string) : string :=
  match s with
  | EmptyString => ""
  | String c s' => if is_white c then trimStart s' else s
  end.

Fixpoint trimEnd (s : string) : string :=
  match s with
  | EmptyString => ""
  | String c s' =>
      match trimEnd s' with
      | EmptyString => if is_white c then "" else String c ""
      | t => String c t
      end
  end.

Definition trim (s : string) : string := trimEnd (trimStart s).

(** [toLowerCase] on one code unit: A-Z and the Latin-1 capitals
    (U+00C0-U+00DE without the multiplication sign U+00D7). *)
Definition lower (c : ascii) : ascii :=
  let n := code c in
  if ((65 <=? n)%N && (n <=? 90)%N)
     || ((192 <=? n)%N && (n <=? 222)%N && negb (n =? 215)%N)
  then ascii_of_N (n + 32) else c.

Fixpoint toLowerCase (s : string) : string :=
  match s with
  | EmptyString => ""
  | String c s' => String (lower c) (toLowerCase s')
  end.

(** [array.includes(x)] on an array of strings. *)
Definition includes (array : list string) (x : string) : bool :=
  existsb (String.eqb x) array.

(** ** The hosted store

    The tables live in the hosted store; the client only sends requests
    and reads responses.  [Message] and [User] are the row types
    declared next to the client. *)

Module Message.
Record t := {
  id : string;
  content : string;
  sent_at : string;
  sent_by : string;
  recipients : list string;
  sent_via : list string
}.
End Message.

Module User.
Record t := { id : string; email : string }.
End User.

(** [user?.id] *)
Definition user_id (user : option User.t) : JsValue :=
  match user with
  | Some u => JStr (User.id u)
  | None => JUndefined
  end.

(** The requests the components send, as they are written. *)
Inductive Request : Type :=
| contacts_select_order_name
| contacts_insert (values : JsValue)
| contacts_update_eq_id (values : JsValue) (id : JsValue)
| contacts_delete_eq_id (id : string)
| contacts_select_count
| messages_select_order_sent_at_descending
| profiles_select_count
| profiles_select_order_created_at
| profiles_delete_eq_id (id : string)
| auth_admin_deleteUser (id : string).

(** What a request resolves to: [{ data, error }] or [{ count, error }]. *)
Module Response.
Record t (A : Type) := { data : option A; error : option Exn }.
Arguments data {A} _.
Arguments error {A} _.
End Response.

Module Counted.
Record t := { count : option nat; error : option Exn }.
End Counted.

(** The store answers every request; a write also changes it.  Nothing
    is assumed about the answers here: row-level security, constraints
    and failures are the store's business. *)
Class Supabase := {
  Store : Type;
  select_contacts : Store → Response.t (list JsValue);
  insert_contacts : JsValue → Store → option Exn * Store;
  update_contact : JsValue → JsValue → Store → option Exn * Store;
  delete_contact : string → Store → option Exn * Store;
  count_contacts : Store → Counted.t;
  select_messages : Store → Response.t (list Message.t);
  count_profiles : Store → Counted.t;
  select_profiles : Store → Response.t (list JsValue);
  delete_profile : string → Store → option Exn * Store;
  admin_deleteUser : string → Store → option Exn * Store
}.

(** ** Handlers as computations

    A handler runs against the state cells [S] of its component, the
    store, and the log of the requests sent so far.  An [await] is
    modelled by its resolution, and a call that is started without
    [await] by running it to completion in place: the model describes
    the component once every promise the handler started has settled. *)

Section Task.
Context `{Supabase}.

Record World (S : Type) := { ui : S; store : Store; sent : list Request }.
Arguments ui {S} _.
Arguments store {S} _.
Arguments sent {S} _.

Definition Task (S A : Type) : Type := World S → Completion A * World S.

#[global] Instance Task_ret {S} : MRet (Task S) := λ A a w, (Normal a, w).
#[global] Instance Task_bind {S} : MBind (Task S) := λ A B f m w,
  match m w with
  | (Normal a, w') => f a w'
  | (Throw e, w') => (Throw e, w')
  end.

(** The cells as the closure of the running render sees them. *)
Definition cells {S} : Task S S := λ w, (Normal (ui w), w).

(** A setter of a [useState] cell. *)
Definition set {S} (f : S → S) : Task S unit := λ w,
  (Normal (), {| ui := f (ui w); store := store w; sent := sent w |}).

Definition throw {S A} (e : Exn) : Task S A := λ w, (Throw e, w).

Definition lift {S A} (c : Completion A) : Task S A := λ w, (c, w).

(** [try { body } catch (e) { handler e } finally { cleanup }] *)
Definition try_catch_finally {S} (body : Task S unit)
    (handler : Exn → Task S unit) (cleanup : Task S unit) : Task S unit :=
  λ w,
    match body w with
    | (Normal _, w1) => cleanup w1
    | (Throw e, w1) =>
        match handler e w1 with
        | (Normal _, w2) => cleanup w2
        | (Throw e', w2) =>
            match cleanup w2 with
            | (Normal _, w3) => (Throw e', w3)
            | thrown => thrown
            end
        end
    end.

Definition try_catch {S} (body : Task S unit) (handler : Exn → Task S unit)
  : Task S unit := try_catch_finally body handler (mret ()).

(** A request that reads the store. *)
Definition ask {S A} (r : Request) (answer : Store → A) : Task S A := λ w,
  (Normal (answer (store w)),
   {| ui := ui w; store := store w; sent := sent w ++ [r] |}).

(** A request that writes to the store. *)
Definition submit {S A} (r : Request) (run : Store → A * Store) : Task S A :=
  λ w,
    let (a, store') := run (store w) in
    (Normal a, {| ui := ui w; store := store'; sent := sent w ++ [r] |}).

(** [if (error) throw error] *)
Definition throw_if {S} (error : option Exn) : Task S unit :=
  match error with
  | Some e => throw e
  | None => mret ()
  end.
End Task.

Arguments ui {_ S} _.
Arguments store {_ S} _.
Arguments sent {_ S} _.
Arguments Build_World {_ S} _ _ _.

(** ** The libraries of the import pipeline

    PapaParse, SheetJS and [JSON.parse] are called, not implemented,
    by the application: they are taken as they answer. *)

Module File.
(** A dropped file: its name and what a [FileReader] delivers for it,
    [None] when the read fails and [onerror] fires. *)
Record t := {
  name : string;
  readAsText : option string;
  readAsBinaryString : option string
}.
End File.

(** [Papa.parse(text, { header: true, complete, error })] ends by calling
    one of its two callbacks. *)
Inductive PapaOutcome : Type :=
| Papa_complete (results_data : JsValue)
| Papa_error (e : Exn).

Class Platform := {
  Worksheet : Type;
  Papa_parse : string → Completion PapaOutcome;
  XLSX_read : string → Completion (list string * gmap string Worksheet);
  XLSX_utils_sheet_to_json : option Worksheet → Completion JsValue;
  JSON_parse : string → Completion JsValue
}.

(** [workbook.SheetNames] and [workbook.Sheets] *)
Definition SheetNames `{Platform}
  (workbook : list string * gmap string Worksheet) : list string :=
  workbook.1.
Definition Sheets `{Platform}
  (workbook : list string * gmap string Worksheet) : gmap string Worksheet :=
  workbook.2.

(** ** ContactManagement *)

Module ContactManagement.

Record State := {
  contacts : list JsValue;
  loading : bool;
  error : option string;
  success : option string;
  tabValue : nat;
  (* Contact form state *)
  openContactDialog : bool;
  editingContact : JsValue;
  contactName : string;
  contactEmail : string;
  contactPhone : string;
  (* Import state *)
  importedContacts : list JsObject;
  importLoading : bool;
  importError : option string
}.

Definition setContacts (v : list JsValue) (s : State) : State :=
  {| contacts := v; loading := loading s; error := error s; success :=
     success s; tabValue := tabValue s; openContactDialog :=
     openContactDialog s; editingContact := editingContact s;
     contactName := contactName s; contactEmail := contactEmail s;
     contactPhone := contactPhone s; importedContacts :=
     importedContacts s; importLoading := importLoading s; importError
     := importError s |}.
Definition setLoading (v : bool) (s : State) : State :=
  {| contacts := contacts s; loading := v; error := error s; success :=
     success s; tabValue := tabValue s; openContactDialog :=
     openContactDialog s; editingContact := editingContact s;
     contactName := contactName s; contactEmail := contactEmail s;
     contactPhone := contactPhone s; importedContacts :=
     importedContacts s; importLoading := importLoading s; importError
     := importError s |}.
Definition setError (v : option string) (s : State) : State :=
  {| contacts := contacts s; loading := loading s; error := v; success
     := success s; tabValue := tabValue s; openContactDialog :=
     openContactDialog s; editingContact := editingContact s;
     contactName := contactName s; contactEmail := contactEmail s;
     contactPhone := contactPhone s; importedContacts :=
     importedContacts s; importLoading := importLoading s; importError
     := importError s |}.
Definition setSuccess (v : option string) (s : State) : State :=
  {| contacts := contacts s; loading := loading s; error := error s;
     success := v; tabValue := tabValue s; openContactDialog :=
     openContactDialog s; editingContact := editingContact s;
     contactName := contactName s; contactEmail := contactEmail s;
     contactPhone := contactPhone s; importedContacts :=
     importedContacts s; importLoading := importLoading s; importError
     := importError s |}.
Definition setTabValue (v : nat) (s : State) : State :=
  {| contacts := contacts s; loading := loading s; error := error s;
     success := success s; tabValue := v; openContactDialog :=
     openContactDialog s; editingContact := editingContact s;
     contactName := contactName s; contactEmail := contactEmail s;
     contactPhone := contactPhone s; importedContacts :=
     importedContacts s; importLoading := importLoading s; importError
     := importError s |}.
Definition setOpenContactDialog (v : bool) (s : State) : State :=
  {| contacts := contacts s; loading := loading s; error := error s;
     success := success s; tabValue := tabValue s; openContactDialog :=
     v; editingContact := editingContact s; contactName := contactName
     s; contactEmail := contactEmail s; contactPhone := contactPhone s;
     importedContacts := importedContacts s; importLoading :=
     importLoading s; importError := importError s |}.
Definition setImportedContacts (v : list JsObject) (s : State) : State :=
  {| contacts := contacts s; loading := loading s; error := error s;
     success := success s; tabValue := tabValue s; openContactDialog :=
     openContactDialog s; editingContact := editingContact s;
     contactName := contactName s; contactEmail := contactEmail s;
     contactPhone := contactPhone s; importedContacts := v;
     importLoading := importLoading s; importError := importError s |}.
Definition setImportLoading (v : bool) (s : State) : State :=
  {| contacts := contacts s; loading := loading s; error := error s;
     success := success s; tabValue := tabValue s; openContactDialog :=
     openContactDialog s; editingContact := editingContact s;
     contactName := contactName s; contactEmail := contactEmail s;
     contactPhone := contactPhone s; importedContacts :=
     importedContacts s; importLoading := v; importError := importError
     s |}.
Definition setImportError (v : option string) (s : State) : State :=
  {| contacts := contacts s; loading := loading s; error := error s;
     success := success s; tabValue := tabValue s; openContactDialog :=
     openContactDialog s; editingContact := editingContact s;
     contactName := contactName s; contactEmail := contactEmail s;
     contactPhone := contactPhone s; importedContacts :=
     importedContacts s; importLoading := importLoading s; importError
     := v |}.

(** The cells at the first render. *)
Definition initial : State := {|
  contacts := []; loading := false; error := None; success := None;
  tabValue := 0;
  openContactDialog := false; editingContact := JNull;
  contactName := ""; contactEmail := ""; contactPhone := "";
  importedContacts := []; importLoading := false; importError := None
|}.

Section Handlers.
Context `{Engine} `{Platform} `{Supabase}.
Variable user : option User.t.

Definition fetchContacts : Task State unit :=
  try_catch_finally
    (set (setLoading true);;
     r ← ask contacts_select_order_name select_contacts;
     throw_if (Response.error r);;
     set (setContacts (default [] (Response.data r))))
    (λ e, set (setError (Some ("Error fetching contacts: " +:+ message e))))
    (set (setLoading false)).

Definition handleCloseContactDialog : Task State unit :=
  set (setOpenContactDialog false).

(** [s || null] on a string cell *)
Definition or_null (s : string) : JsValue :=
  if String.eqb s "" then JNull else JStr s.

Definition handleSaveContact : Task State unit :=
  s ← cells;
  if String.eqb (contactName s) "" then
    set (setError (Some "Contact name is required"))
  else if String.eqb (contactEmail s) "" && String.eqb (contactPhone s) "" then
    set (setError (Some "Either email or phone is required"))
  else
    try_catch_finally
      (set (setLoading true);;
       set (setError None);;
       let contactData : JsObject :=
         <["created_by" := user_id user]>
         (<["phone" := or_null (contactPhone s)]>
         (<["email" := or_null (contactEmail s)]>
         {["name" := JStr (contactName s)]})) in
       result_error ←
         (if truthy (editingContact s) then
            (* Update existing contact *)
            id ← lift (get (editingContact s) "id");
            submit (contacts_update_eq_id (JObj contactData) id)
                   (update_contact (JObj contactData) id)
          else
            (* Add new contact *)
            submit (contacts_insert (JObj contactData))
                   (insert_contacts (JObj contactData)));
       throw_if result_error;;
       set (setSuccess (Some ("Contact "
              +:+ (if truthy (editingContact s) then "updated" else "added")
              +:+ " successfully!")));;
       handleCloseContactDialog;;
       fetchContacts)
      (λ e, set (setError (Some ("Failed to "
              +:+ (if truthy (editingContact s) then "update" else "add")
              +:+ " contact: " +:+ message e))))
      (set (setLoading false)).

(** The callback of [data.map]: the first truthy spelling of each
    field, the empty string when there is none. *)
Definition contactOf (item : JsValue) : Completion JsObject :=
  name ← get item "name" ||| get item "Name" ||| get item "NAME"
         ||| get item "contact" ||| get item "Contact" ||| Normal (JStr "");
  email ← get item "email" ||| get item "Email" ||| get item "EMAIL"
          ||| Normal (JStr "");
  phone ← get item "phone" ||| get item "Phone" ||| get item "PHONE"
          ||| get item "mobile" ||| get item "Mobile"
          ||| get item "whatsapp" ||| get item "Whatsapp"
          ||| Normal (JStr "");
  Normal (<["phone" := phone]> (<["email" := email]> {["name" := name]})).

(** The predicate of [filter]:
    [contact.name && (contact.email || contact.phone)] *)
Definition kept (contact : JsObject) : bool :=
  truthy (field contact "name")
  && (truthy (field contact "email") || truthy (field contact "phone")).

Definition processImportedData (data : JsValue) : Task State unit :=
  try_catch
    (items ← lift (match data with
                   | JArr items => Normal items
                   | _ => Throw (TypeError data "map")
                   end);
     mapped ← lift (mapM contactOf items);
     let processedContacts := filter (λ contact, kept contact) mapped in
     set (setImportedContacts processedContacts);;
     set (setImportLoading false))
    (λ e, set (setImportError (Some ("Error processing data: " +:+ message e)));;
          set (setImportLoading false)).

(** The callback of [lines.slice(1).map]: the record of one line, a
    cell for each header. *)
Definition recordOf (headers : list string) (line : string) : JsObject :=
  let values := split is_comma_or_tab line in
  foldl (λ obj '(index, header),
           assign header (JStr (default "" (trim <$> values !! index))) obj)
        (∅ : JsObject) (imap pair headers).

(** The body of the [txt] branch: the rows of a comma or tab separated
    text whose first line holds the headers. *)
Definition parseTxt (text : string) : list JsObject :=
  let lines := split is_newline text in
  let headers := trim <$> split is_comma_or_tab (default "" (lines !! 0)) in
  recordOf headers <$> drop 1 lines.

(** [file.name.split('.').pop()?.toLowerCase()] *)
Definition fileExtension (file : File.t) : option string :=
  toLowerCase <$> last (split is_dot (File.name file)).

Definition unsupported : string :=
  "Unsupported file format. Please use CSV, Excel, JSON, or TXT files.".

(** The branches of [onload], one for each format. *)

(* Parse CSV *)
Definition parseCsv (result : string) : Task State unit :=
  outcome ← lift (Papa_parse result);
  match outcome with
  | Papa_complete results_data => processImportedData results_data
  | Papa_error e =>
      set (setImportError (Some ("CSV parsing error: " +:+ message e)));;
      set (setImportLoading false)
  end.

(* Parse Excel *)
Definition parseExcel (result : string) : Task State unit :=
  workbook ← lift (XLSX_read result);
  let sheetName := SheetNames workbook !! 0 in
  let worksheet := Sheets workbook !! default "undefined" sheetName in
  parsedData ← lift (XLSX_utils_sheet_to_json worksheet);
  processImportedData parsedData.

(* Parse JSON *)
Definition parseJson (result : string) : Task State unit :=
  parsedData ← lift (JSON_parse result);
  processImportedData parsedData.

Definition processing_failed (e : Exn) : Task State unit :=
  set (setImportError (Some ("Error processing file: " +:+ message e)));;
  set (setImportLoading false).

Definition onload (fileExtension : option string) (result : string)
  : Task State unit :=
  try_catch
    (if bool_decide (fileExtension = Some "csv") then parseCsv result
     else if includes ["xlsx"; "xls"] (default "" fileExtension) then
       parseExcel result
     else if bool_decide (fileExtension = Some "json") then parseJson result
     else if bool_decide (fileExtension = Some "txt") then
       (* Parse TXT (assuming comma or tab separated) *)
       processImportedData (JArr (JObj <$> parseTxt result))
     else
       set (setImportError (Some unsupported));;
       set (setImportLoading false))
    processing_failed.

Definition onerror : Task State unit :=
  set (setImportError (Some "Error reading file"));;
  set (setImportLoading false).

Definition onDrop (acceptedFiles : list File.t) : Task State unit :=
  match acceptedFiles !! 0 with
  | None => mret ()
  | Some file =>
      set (setImportError None);;
      set (setImportLoading true);;
      let fileExtension := fileExtension file in
      if bool_decide (fileExtension = Some "csv")
         || bool_decide (fileExtension = Some "txt")
         || bool_decide (fileExtension = Some "json") then
        match File.readAsText file with
        | Some result => onload fileExtension result
        | None => onerror
        end
      else if includes ["xlsx"; "xls"] (default "" fileExtension) then
        match File.readAsBinaryString file with
        | Some result => onload fileExtension result
        | None => onerror
        end
      else
        set (setImportError (Some unsupported));;
        set (setImportLoading false)
  end.

(** The decimal text of a length, as a template literal prints it. *)
Definition digit (n : nat) : string :=
  String (ascii_of_nat (48 + n)) "".

Fixpoint decimal (fuel n : nat) : string :=
  match fuel with
  | 0 => ""
  | S fuel' =>
      if (n <? 10)%nat then digit n
      else decimal fuel' (n `div` 10)%nat +:+ digit (n `mod` 10)%nat
  end.

Definition handleSaveImportedContacts : Task State unit :=
  s ← cells;
  if (length (importedContacts s) =? 0)%nat then
    set (setImportError (Some "No valid contacts to import"))
  else
    try_catch_finally
      (set (setImportLoading true);;
       (* Add user ID to each contact *)
       let contactsWithUser :=
         (λ contact : JsObject, <["created_by" := user_id user]> contact)
         <$> importedContacts s in
       insert_error ←
         submit (contacts_insert (JArr (JObj <$> contactsWithUser)))
                (insert_contacts (JArr (JObj <$> contactsWithUser)));
       throw_if insert_error;;
       set (setSuccess (Some ("Successfully imported "
              +:+ decimal (S (length (importedContacts s)))
                          (length (importedContacts s))
              +:+ " contacts!")));;
       set (setImportedContacts []);;
       fetchContacts;;
       set (setTabValue 0))
      (λ e, set (setImportError (Some ("Failed to import contacts: "
                                       +:+ message e))))
      (set (setImportLoading false)).

End Handlers.
End ContactManagement.

(** ** UserManagement

    The repository holds two versions of the component; they share
    their state cells and [fetchUsers] and differ in how a user is
    deleted: through the admin API, or through the [profiles] table. *)

Module UserManagement.

Record State := {
  users : list JsValue;
  loading : bool;
  error : option string;
  success : option string;
  (* User form state *)
  openUserDialog : bool;
  editingUser : JsValue;
  userEmail : string;
  userRole : string;
  generatePassword : bool;
  userPassword : string
}.

Definition setUsers (v : list JsValue) (s : State) : State :=
  {| users := v; loading := loading s; error := error s; success :=
     success s; openUserDialog := openUserDialog s; editingUser :=
     editingUser s; userEmail := userEmail s; userRole := userRole s;
     generatePassword := generatePassword s; userPassword :=
     userPassword s |}.
Definition setLoading (v : bool) (s : State) : State :=
  {| users := users s; loading := v; error := error s; success :=
     success s; openUserDialog := openUserDialog s; editingUser :=
     editingUser s; userEmail := userEmail s; userRole := userRole s;
     generatePassword := generatePassword s; userPassword :=
     userPassword s |}.
Definition setError (v : option string) (s : State) : State :=
  {| users := users s; loading := loading s; error := v; success :=
     success s; openUserDialog := openUserDialog s; editingUser :=
     editingUser s; userEmail := userEmail s; userRole := userRole s;
     generatePassword := generatePassword s; userPassword :=
     userPassword s |}.
Definition setSuccess (v : option string) (s : State) : State :=
  {| users := users s; loading := loading s; error := error s; success
     := v; openUserDialog := openUserDialog s; editingUser :=
     editingUser s; userEmail := userEmail s; userRole := userRole s;
     generatePassword := generatePassword s; userPassword :=
     userPassword s |}.

(** The cells at the first render. *)
Definition initial : State := {|
  users := []; loading := false; error := None; success := None;
  openUserDialog := false; editingUser := JNull;
  userEmail := ""; userRole := "user";
  generatePassword := true; userPassword := ""
|}.

Section Handlers.
Context `{Supabase}.
Variable user : option User.t.
(** The answer of the person to [window.confirm(text)]. *)
Variable window_confirm : string → bool.

Definition fetchUsers : Task State unit :=
  try_catch_finally
    (set (setLoading true);;
     r ← ask profiles_select_order_created_at select_profiles;
     throw_if (Response.error r);;
     set (setUsers (default [] (Response.data r))))
    (λ e, set (setError (Some ("Error fetching users: " +:+ message e))))
    (set (setLoading false)).

(** [id === user?.id] for a string [id] *)
Definition is_own_id (id : string) : bool :=
  match user_id user with
  | JStr own => String.eqb id own
  | _ => false
  end.

(** The version that calls the admin API. *)
Definition handleDeleteUser (id : string) : Task State unit :=
  if is_own_id id then
    set (setError (Some "You cannot delete your own account"))
  else if negb (window_confirm
    "Are you sure you want to delete this user? This action cannot be undone.")
  then mret ()
  else
    try_catch_finally
      (set (setLoading true);;
       (* Delete user from auth *)
       delete_error ← submit (auth_admin_deleteUser id) (admin_deleteUser id);
       throw_if delete_error;;
       set (setSuccess (Some "User deleted successfully!"));;
       fetchUsers)
      (λ e, set (setError (Some ("Failed to delete user: " +:+ message e))))
      (set (setLoading false)).

(** The version that deletes the row of [profiles]. *)
Definition handleDeleteUser_profiles (id : string) : Task State unit :=
  if is_own_id id then
    set (setError (Some "You cannot delete your own account"))
  else if negb (window_confirm "Are you sure you want to delete this user?")
  then mret ()
  else
    try_catch_finally
      (set (setLoading true);;
       delete_error ← submit (profiles_delete_eq_id id) (delete_profile id);
       throw_if delete_error;;
       set (setSuccess (Some "User deleted successfully!"));;
       fetchUsers)
      (λ e, set (setError (Some ("Failed to delete user: " +:+ message e))))
      (set (setLoading false)).

End Handlers.
End UserManagement.

(** ** Dashboard

    The two versions of the component compute the same statistics; the
    later one also shows the failure of a fetch in an [error] cell, which
    the earlier one only logs to the console. *)

Module Dashboard.

Record Stats := {
  totalContacts : nat;
  totalMessages : nat;
  emailsSent : nat;
  whatsappSent : nat;
  totalUsers : nat
}.

Record State := {
  stats : Stats;
  recentMessages : list Message.t;
  loading : bool;
  error : option string
}.

Definition setStats (v : Stats) (s : State) : State :=
  {| stats := v; recentMessages := recentMessages s; loading := loading
     s; error := error s |}.
Definition setRecentMessages (v : list Message.t) (s : State) : State :=
  {| stats := stats s; recentMessages := v; loading := loading s; error
     := error s |}.
Definition setLoading (v : bool) (s : State) : State :=
  {| stats := stats s; recentMessages := recentMessages s; loading := v;
     error := error s |}.
Definition setError (v : option string) (s : State) : State :=
  {| stats := stats s; recentMessages := recentMessages s; loading :=
     loading s; error := v |}.

(** The cells at the first render. *)
Definition initial : State := {|
  stats := {| totalContacts := 0; totalMessages := 0; emailsSent := 0;
              whatsappSent := 0; totalUsers := 0 |};
  recentMessages := []; loading := true; error := None
|}.

Section Handlers.
Context `{Supabase}.
(** The answer of [isAdmin()]. *)
Variable isAdmin : bool.
(** Whether the component has the [error] cell. *)
Variable shows_error : bool.

Definition fetchDashboardData : Task State unit :=
  try_catch_finally
    (set (setLoading true);;
     (* Fetch contacts count *)
     contacts ← ask contacts_select_count count_contacts;
     throw_if (Counted.error contacts);;
     let contactsCount := Counted.count contacts in
     (* Fetch messages stats *)
     r ← ask messages_select_order_sent_at_descending select_messages;
     throw_if (Response.error r);;
     let messages := Response.data r in
     (* Calculate message stats *)
     let emailMessages :=
       default [] (filter (λ msg, includes (Message.sent_via msg) "email")
                   <$> messages) in
     let whatsappMessages :=
       default [] (filter (λ msg, includes (Message.sent_via msg) "whatsapp")
                   <$> messages) in
     (* Fetch users count (admin only) *)
     usersCount ←
       (if isAdmin then
          profiles ← ask profiles_select_count count_profiles;
          throw_if (Counted.error profiles);;
          mret (default 0 (Counted.count profiles))
        else mret 0);
     set (setStats {|
       totalContacts := default 0 contactsCount;
       totalMessages := default 0 (length <$> messages);
       emailsSent := length emailMessages;
       whatsappSent := length whatsappMessages;
       totalUsers := usersCount |});;
     set (setRecentMessages (default [] (take 5 <$> messages))))
    (λ e, if shows_error
          then set (setError (Some ("Error loading dashboard: " +:+ message e)))
          else mret ())
    (set (setLoading false)).

End Handlers.
End Dashboard.

(** ** The words of the specification

    The definitions below follow the specification, not the code; the
    theorems compare them with the handlers above. *)

Definition name_aliases : list string :=
  ["name"; "Name"; "NAME"; "contact"; "Contact"].
Definition email_aliases : list string := ["email"; "Email"; "EMAIL"].
Definition phone_aliases : list string :=
  ["phone"; "Phone"; "PHONE"; "mobile"; "Mobile"; "whatsapp"; "Whatsapp"].

(** The first match of an ordered alias list, [default] when no alias
    matches.  A value matches when the code takes it for present: when
    it is truthy. *)
Fixpoint first_match (row : JsObject) (aliases : list string)
    (default : JsValue) : JsValue :=
  match aliases with
  | [] => default
  | alias :: others =>
      if truthy (field row alias) then field row alias
      else first_match row others default
  end.

Definition first_non_empty (row : JsObject) (aliases : list string) : JsValue :=
  first_match row aliases (JStr "").

(** The canonical record of a raw row. *)
Definition normalize (row : JsObject) : JsObject :=
  <["phone" := first_non_empty row phone_aliases]>
  (<["email" := first_non_empty row email_aliases]>
  {["name" := first_non_empty row name_aliases]}).

Definition non_empty (v : JsValue) : Prop := v ≠ JStr "".

(** A usable name and at least one contact channel. *)
Definition acceptable (contact : JsObject) : Prop :=
  non_empty (field contact "name")
  ∧ (non_empty (field contact "email") ∨ non_empty (field contact "phone")).

(** The text after the last dot of a file name; the whole name when it
    has no dot. *)
Fixpoint extension (name : string) : string :=
  match name with
  | EmptyString => ""
  | String c rest =>
      if existsb is_dot (list_ascii_of_string rest) then extension rest
      else if is_dot c then rest
      else name
  end.

Inductive Strategy : Type :=
| csv
| spreadsheet
| json
| delimited_text
| unsupported_format.

(** The parser of a file, by lowercased extension on the allowlist. *)
Definition sniff (name : string) : Strategy :=
  let ext := toLowerCase (extension name) in
  if String.eqb ext "csv" then csv
  else if String.eqb ext "xlsx" || String.eqb ext "xls" then spreadsheet
  else if String.eqb ext "json" then json
  else if String.eqb ext "txt" then delimited_text
  else unsupported_format.

Section Pipeline.
Context `{Engine} `{Platform} `{Supabase}.
Import ContactManagement.

(** The world in which a read of the file is started. *)
Definition began (w : World State) : World State :=
  {| ui := setImportLoading true (setImportError None (ui w));
     store := store w;
     sent := sent w |}.

(** What [onDrop] does with a file, by the strategy of its name. *)
Definition strategy_of (file : File.t) (w : World State)
  : Completion unit * World State :=
  match sniff (File.name file) with
  | csv =>
      match File.readAsText file with
      | Some text => try_catch (parseCsv text) processing_failed (began w)
      | None => onerror (began w)
      end
  | spreadsheet =>
      match File.readAsBinaryString file with
      | Some binary => try_catch (parseExcel binary) processing_failed (began w)
      | None => onerror (began w)
      end
  | json =>
      match File.readAsText file with
      | Some text => try_catch (parseJson text) processing_failed (began w)
      | None => onerror (began w)
      end
  | delimited_text =>
      match File.readAsText file with
      | Some text =>
          try_catch (processImportedData (JArr (JObj <$> parseTxt text)))
                    processing_failed (began w)
      | None => onerror (began w)
      end
  | unsupported_format =>
      (Normal (),
       {| ui := setImportLoading false (setImportError (Some unsupported) (ui w));
          store := store w;
          sent := sent w |})
  end.
End Pipeline.

(** A line without any visible character. *)
Definition blank (line : string) : bool :=
  forallb is_white (list_ascii_of_string line).

(** Membership of a channel tag in the [sent_via] of a message. *)
Definition sent_through (channel : string) (msg : Message.t) : Prop :=
  channel ∈ Message.sent_via msg.

#[global] Instance sent_through_dec channel msg :
  Decision (sent_through channel msg) := list_elem_of_dec _ _.

(** [a] was sent no earlier than [b], for a reading [time] of the
    timestamps. *)
Definition no_earlier (time : string → Z) (a b : Message.t) : Prop :=
  (time (Message.sent_at b) ≤ time (Message.sent_at a))%Z.

(** ** A reference platform

    Instances on which the handlers can be run: an engine with the
    wording of V8, a decoder of JSON texts (ECMA-404, code units below
    256) and a store held in memory. *)

Definition v8 : Engine := {|
  TypeError_message v k :=
    match v with
    | JUndefined =>
        "Cannot read properties of undefined (reading '" +:+ k +:+ "')"
    | JNull => "Cannot read properties of null (reading '" +:+ k +:+ "')"
    | _ => "data." +:+ k +:+ " is not a function"
    end
|}.

Module Json.

Definition is_ws (c : ascii) : bool :=
  let n := code c in (n =? 32)%N || (n =? 9)%N || (n =? 10)%N || (n =? 13)%N.

Fixpoint skip (s : string) : string :=
  match s with
  | String c s' => if is_ws c then skip s' else s
  | EmptyString => ""
  end.

Definition is_digit (c : ascii) : bool :=
  let n := code c in (48 <=? n)%N && (n <=? 57)%N.

(** The longest prefix of digits, and the rest. *)
Fixpoint digits (s : string) : string * string :=
  match s with
  | String c s' =>
      if is_digit c then let (ds, rest) := digits s' in (String c ds, rest)
      else ("", s)
  | EmptyString => ("", "")
  end.

Fixpoint decimal_value (acc : N) (ds : string) : N :=
  match ds with
  | String c ds' => decimal_value (10 * acc + (code c - 48))%N ds'
  | EmptyString => acc
  end.

(** The double nearest to [(-1)^negative * m * 10^e], ties to even. *)
Definition to_double (negative : bool) (m : N) (e : Z) : spec_float :=
  match m with
  | N0 => S754_zero negative
  | Npos p =>
      if (0 <=? e)%Z then
        binary_normalize 53 1024
          (if negative then Z.neg p * 10 ^ e else Z.pos p * 10 ^ e)%Z 0 false
      else
        SFdiv 53 1024 (S754_finite negative p 0)
              (S754_finite false (Z.to_pos (10 ^ (- e))) 0)
  end.

Definition number (s : string) : option (JsValue * string) :=
  let (negative, s) :=
    match s with
    | String "-" s' => (true, s')
    | _ => (false, s)
    end in
  let (int, s) := digits s in
  match int with
  | EmptyString => None
  | String "0" (String _ _) => None
  | _ =>
      '(frac, s) ←
        match s with
        | String "." s' =>
            let (frac, s'') := digits s' in
            if String.eqb frac "" then None else Some (frac, s'')
        | _ => Some ("", s)
        end;
      '(exponent, s) ←
        match s with
        | String c s' =>
            if (code c =? 101)%N || (code c =? 69)%N then
              let '(minus, s'') :=
                match s' with
                | String "-" r => (true, r)
                | String "+" r => (false, r)
                | _ => (false, s')
                end in
              let (ds, rest) := digits s'' in
              if String.eqb ds "" then None
              else
                let v := Z.of_N (decimal_value 0 ds) in
                Some (if minus then (- v)%Z else v, rest)
            else Some (0%Z, s)
        | EmptyString => Some (0%Z, s)
        end;
      Some (JNum (to_double negative (decimal_value 0 (int +:+ frac))
                            (exponent - Z.of_nat (String.length frac))), s)
  end.

Definition hex (c : ascii) : option N :=
  let n := code c in
  if is_digit c then Some (n - 48)%N
  else if (97 <=? n)%N && (n <=? 102)%N then Some (n - 87)%N
  else if (65 <=? n)%N && (n <=? 70)%N then Some (n - 55)%N
  else None.

(** The characters of a string literal after its opening quote. *)
Fixpoint chars (s : string) : option (string * string) :=
  match s with
  | EmptyString => None
  | String c s' =>
      if (code c =? 34)%N then Some ("", s')
      else if (code c =? 92)%N then
        match s' with
        | String e s'' =>
            let continue (c' : ascii) (rest : string) :=
              '(str, r) ← chars rest; Some (String c' str, r) in
            if (code e =? 34)%N then continue e s''
            else if (code e =? 92)%N then continue e s''
            else if (code e =? 47)%N then continue e s''
            else if (code e =? 98)%N then continue (ascii_of_N 8) s''
            else if (code e =? 102)%N then continue (ascii_of_N 12) s''
            else if (code e =? 110)%N then continue (ascii_of_N 10) s''
            else if (code e =? 114)%N then continue (ascii_of_N 13) s''
            else if (code e =? 116)%N then continue (ascii_of_N 9) s''
            else if (code e =? 117)%N then
              match s'' with
              | String h1 (String h2 (String h3 (String h4 rest))) =>
                  a ← hex h1; b ← hex h2; c ← hex h3; d ← hex h4;
                  let n := (4096 * a + 256 * b + 16 * c + d)%N in
                  if (n <? 256)%N then
                    '(str, r) ← chars rest; Some (String (ascii_of_N n) str, r)
                  else None
              | _ => None
              end
            else None
        | EmptyString => None
        end
      else if (code c <? 32)%N then None
      else '(str, r) ← chars s'; Some (String c str, r)
  end.

Definition literal (word : string) (v : JsValue) (s : string)
  : option (JsValue * string) :=
  if String.prefix word s
  then Some (v, String.substring (String.length word)
                  (String.length s - String.length word) s)
  else None.

Fixpoint value (fuel : nat) (s : string) : option (JsValue * string) :=
  match fuel with
  | 0 => None
  | S fuel =>
      match skip s with
      | String "{" s' =>
          match skip s' with
          | String "}" rest => Some (JObj ∅, rest)
          | _ => '(fields, rest) ← members fuel s' ∅; Some (JObj fields, rest)
          end
      | String "[" s' =>
          match skip s' with
          | String "]" rest => Some (JArr [], rest)
          | _ => '(items, rest) ← elements fuel s'; Some (JArr items, rest)
          end
      | String "t" _ => literal "true" (JBool true) (skip s)
      | String "f" _ => literal "false" (JBool false) (skip s)
      | String "n" _ => literal "null" JNull (skip s)
      | String c s' =>
          if (code c =? 34)%N
          then '(str, rest) ← chars s'; Some (JStr str, rest)
          else number (skip s)
      | EmptyString => None
      end
  end
with elements (fuel : nat) (s : string) : option (list JsValue * string) :=
  match fuel with
  | 0 => None
  | S fuel =>
      '(v, s1) ← value fuel s;
      match skip s1 with
      | String "," s2 => '(vs, rest) ← elements fuel s2; Some (v :: vs, rest)
      | String "]" rest => Some ([v], rest)
      | _ => None
      end
  end
with members (fuel : nat) (s : string) (acc : gmap string JsValue)
  : option (gmap string JsValue * string) :=
  match fuel with
  | 0 => None
  | S fuel =>
      match skip s with
      | String c s1 =>
          if (code c =? 34)%N then
            '(key, s2) ← chars s1;
            match skip s2 with
            | String ":" s3 =>
                '(v, s4) ← value fuel s3;
                match skip s4 with
                | String "," s5 => members fuel s5 (<[key := v]> acc)
                | String "}" rest => Some (<[key := v]> acc, rest)
                | _ => None
                end
            | _ => None
            end
          else None
      | EmptyString => None
      end
  end.

(** [JSON.parse(text)]: the value of the text, or a [SyntaxError]. *)
Definition parse (text : string) : Completion JsValue :=
  match value (S (2 * String.length text)) text with
  | Some (v, rest) =>
      if String.eqb (skip rest) "" then Normal v
      else Throw {| message := "Unexpected non-whitespace character after JSON" |}
  | None => Throw {| message := "Unexpected token in JSON" |}
  end.

End Json.


(** A platform with a JSON decoder only: its CSV and spreadsheet
    readers refuse every file. *)
Definition json_only : Platform := {|
  Worksheet := Empty_set;
  Papa_parse _ := Throw {| message := "Papa is not defined" |};
  XLSX_read _ := Throw {| message := "XLSX is not defined" |};
  XLSX_utils_sheet_to_json _ := Throw {| message := "XLSX is not defined" |};
  JSON_parse := Json.parse
|}.

(** The tables of a store in memory, without row-level security and
    without constraints. *)
Module Memory.

Record Tables := {
  contacts : list JsValue;
  messages : list Message.t;
  profiles : list JsValue
}.

(** The digits of a timestamp read as one number: for ISO 8601 texts in
    UTC this orders them by time. *)
Definition instant (sent_at : string) : Z :=
  Z.of_N (Json.decimal_value 0
            (string_of_list_ascii
               (List.filter Json.is_digit (list_ascii_of_string sent_at)))).

Definition not_before (a b : Message.t) : Prop :=
  (instant (Message.sent_at b) ≤ instant (Message.sent_at a))%Z.

#[export] Instance not_before_dec a b : Decision (not_before a b) :=
  Z_le_dec _ _.

Definition has_id (id : string) (row : JsValue) : bool :=
  match row with
  | JObj fields =>
      match field fields "id" with
      | JStr s => String.eqb s id
      | _ => false
      end
  | _ => false
  end.

(** [insert(values)] takes one row or an array of rows. *)
Definition inserted (values : JsValue) : list JsValue :=
  match values with
  | JArr rows => rows
  | row => [row]
  end.

Definition updated (values : JsValue) (id : JsValue) (row : JsValue) : JsValue :=
  match values, id, row with
  | JObj changes, JStr i, JObj fields =>
      if has_id i row then JObj (changes ∪ fields) else row
  | _, _, _ => row
  end.

Definition ok {A} (rows : A) : Response.t A :=
  {| Response.data := Some rows; Response.error := None |}.

Definition counted {A} (rows : list A) : Counted.t :=
  {| Counted.count := Some (length rows); Counted.error := None |}.

Definition supabase : Supabase := {|
  Store := Tables;
  select_contacts t := ok (contacts t);
  insert_contacts values t :=
    (None, {| contacts := contacts t ++ inserted values;
              messages := messages t; profiles := profiles t |});
  update_contact values id t :=
    (None, {| contacts := updated values id <$> contacts t;
              messages := messages t; profiles := profiles t |});
  delete_contact id t :=
    (None, {| contacts := List.filter (λ row, negb (has_id id row)) (contacts t);
              messages := messages t; profiles := profiles t |});
  count_contacts t := counted (contacts t);
  select_messages t := ok (merge_sort not_before (messages t));
  count_profiles t := counted (profiles t);
  select_profiles t := ok (profiles t);
  delete_profile id t :=
    (None, {| contacts := contacts t; messages := messages t;
              profiles := List.filter (λ row, negb (has_id id row)) (profiles t) |});
  admin_deleteUser id t :=
    (None, {| contacts := contacts t; messages := messages t;
              profiles := List.filter (λ row, negb (has_id id row)) (profiles t) |})
|}.

End Memory.

(** ** Inputs of the examples *)

Definition alice : User.t :=
  {| User.id := "7d0c"; User.email := "alice@example.org" |}.

Definition no_rows : Memory.Tables :=
  {| Memory.contacts := []; Memory.messages := []; Memory.profiles := [] |}.

(** A world of the store in memory in which nothing was sent yet. *)
Definition start {S : Type} (cells : S) (tables : Memory.Tables)
  : @World Memory.supabase S :=
  @Build_World Memory.supabase S cells tables [].

Definition quote : string := String "034" "".
Definition newline : string := String "010" "".

(** The row of the CSV line [Bob,] under the header [name,email]. *)
Definition bob : JsObject := <["email" := JStr ""]> {["name" := JStr "Bob"]}.

(** The text of the JSON file with Ann, and its value. *)
Definition ann_json : string :=
  "[{" +:+ quote +:+ "Name" +:+ quote +:+ ":" +:+ quote +:+ "Ann" +:+ quote
  +:+ "," +:+ quote +:+ "Phone" +:+ quote +:+ ":" +:+ quote +:+ "+1555"
  +:+ quote +:+ "}]".
Definition ann : JsObject :=
  <["Phone" := JStr "+1555"]> {["Name" := JStr "Ann"]}.
Definition ann_contact : JsObject :=
  <["phone" := JStr "+1555"]>
  (<["email" := JStr ""]> {["name" := JStr "Ann"]}).

(** The text file with Cy, the same file with an empty line before Cy,
    and the accepted record. *)
Definition cy_txt : string := "name,phone" +:+ newline +:+ "Cy,12345".
Definition cy_gap_txt : string :=
  "name,phone" +:+ newline +:+ newline +:+ "Cy,12345".
Definition cy_contact : JsObject :=
  <["phone" := JStr "12345"]>
  (<["email" := JStr ""]> {["name" := JStr "Cy"]}).

Definition text_file (name text : string) : File.t :=
  {| File.name := name; File.readAsText := Some text;
     File.readAsBinaryString := Some text |}.

(** A form in which only the name is filled in. *)
Definition name_only : ContactManagement.State :=
  {| ContactManagement.contacts := [];
     ContactManagement.loading := false;
     ContactManagement.error := None;
     ContactManagement.success := None;
     ContactManagement.tabValue := 0;
     ContactManagement.openContactDialog := true;
     ContactManagement.editingContact := JNull;
     ContactManagement.contactName := "Dee";
     ContactManagement.contactEmail := "";
     ContactManagement.contactPhone := "";
     ContactManagement.importedContacts := [];
     ContactManagement.importLoading := false;
     ContactManagement.importError := None |}.

(** A preview that holds the record of Ann. *)
Definition preview_of_ann : ContactManagement.State :=
  ContactManagement.setImportedContacts [ann_contact]
    ContactManagement.initial.

Definition a_message (id sent_at : string) (sent_via : list string) : Message.t :=
  {| Message.id := id; Message.content := "hello"; Message.sent_at := sent_at;
     Message.sent_by := "7d0c"; Message.recipients := ["c1"];
     Message.sent_via := sent_via |}.

Definition seven_messages : Memory.Tables :=
  {| Memory.contacts := [JObj ann_contact];
     Memory.messages := [
       a_message "m1" "2024-03-01T10:00:00Z" ["email"];
       a_message "m2" "2024-03-07T10:00:00Z" ["whatsapp"];
       a_message "m3" "2024-03-02T10:00:00Z" ["email"; "whatsapp"];
       a_message "m4" "2024-03-06T10:00:00Z" [];
       a_message "m5" "2024-03-03T10:00:00Z" ["email"];
       a_message "m6" "2024-03-05T10:00:00Z" ["whatsapp"];
       a_message "m7" "2024-03-04T10:00:00Z" ["email"] ];
     Memory.profiles := [] |}.

(** ** The rest of ContactManagement

    The handlers of the component that open the dialog, delete a
    contact and switch tabs.  [Contact] is the row type declared next to
    the client; the dialog is opened on rows of that type. *)

Module Contact.
Record t := {
  id : string;
  name : string;
  email : option string;
  phone : option string;
  created_at : string;
  created_by : string
}.

(** [v] when present, [null] otherwise: the value of a nullable column. *)
Definition nullable (v : option string) : JsValue :=
  match v with
  | Some s => JStr s
  | None => JNull
  end.

(** The row as the store returns it. *)
Definition row (c : t) : JsObject :=
  <["created_by" := JStr (created_by c)]>
  (<["created_at" := JStr (created_at c)]>
  (<["phone" := nullable (phone c)]>
  (<["email" := nullable (email c)]>
  (<["name" := JStr (name c)]>
  {["id" := JStr (id c)]})))).
End Contact.

Module ContactDialog.
Import ContactManagement.

Definition setEditingContact (v : JsValue) (s : State) : State :=
  {| contacts := contacts s; loading := loading s; error := error s;
     success := success s; tabValue := tabValue s; openContactDialog :=
     openContactDialog s; editingContact := v; contactName := contactName
     s; contactEmail := contactEmail s; contactPhone := contactPhone s;
     importedContacts := importedContacts s; importLoading :=
     importLoading s; importError := importError s |}.
Definition setContactName (v : string) (s : State) : State :=
  {| contacts := contacts s; loading := loading s; error := error s;
     success := success s; tabValue := tabValue s; openContactDialog :=
     openContactDialog s; editingContact := editingContact s; contactName
     := v; contactEmail := contactEmail s; contactPhone := contactPhone s;
     importedContacts := importedContacts s; importLoading :=
     importLoading s; importError := importError s |}.
Definition setContactEmail (v : string) (s : State) : State :=
  {| contacts := contacts s; loading := loading s; error := error s;
     success := success s; tabValue := tabValue s; openContactDialog :=
     openContactDialog s; editingContact := editingContact s; contactName
     := contactName s; contactEmail := v; contactPhone := contactPhone s;
     importedContacts := importedContacts s; importLoading :=
     importLoading s; importError := importError s |}.
Definition setContactPhone (v : string) (s : State) : State :=
  {| contacts := contacts s; loading := loading s; error := error s;
     success := success s; tabValue := tabValue s; openContactDialog :=
     openContactDialog s; editingContact := editingContact s; contactName
     := contactName s; contactEmail := contactEmail s; contactPhone := v;
     importedContacts := importedContacts s; importLoading :=
     importLoading s; importError := importError s |}.

Section Handlers.
Context `{Engine} `{Platform} `{Supabase}.
(** The answer of the person to [window.confirm(text)]. *)
Variable window_confirm : string → bool.

Definition handleTabChange (newValue : nat) : Task State unit :=
  set (setTabValue newValue).

(* Contact CRUD operations *)
Definition openAddContactDialog : Task State unit :=
  set (setEditingContact JNull);;
  set (setContactName "");;
  set (setContactEmail "");;
  set (setContactPhone "");;
  set (setOpenContactDialog true).

(** [contact.email || ''] on a row of type [Contact] *)
Definition openEditContactDialog (contact : Contact.t) : Task State unit :=
  set (setEditingContact (JObj (Contact.row contact)));;
  set (setContactName (Contact.name contact));;
  set (setContactEmail (default "" (Contact.email contact)));;
  set (setContactPhone (default "" (Contact.phone contact)));;
  set (setOpenContactDialog true).

Definition handleDeleteContact (id : string) : Task State unit :=
  if negb (window_confirm "Are you sure you want to delete this contact?")
  then mret ()
  else
    try_catch_finally
      (set (setLoading true);;
       delete_error ← submit (contacts_delete_eq_id id) (delete_contact id);
       throw_if delete_error;;
       set (setSuccess (Some "Contact deleted successfully!"));;
       fetchContacts)
      (λ e, set (setError (Some ("Failed to delete contact: " +:+ message e))))
      (set (setLoading false)).

End Handlers.
End ContactDialog.

(** ** The later version of ContactManagement

    The repository holds a second, later version of the component.  It
    trims the fields of the form, clears the messages when the dialog
    closes or the tab changes, and skips the blank lines of a text file.
    Its other functions ([fetchContacts], [processImportedData], the CSV,
    spreadsheet and JSON branches, [handleSaveImportedContacts],
    [handleDeleteContact]) are those of the earlier version. *)

Module ContactManagementLater.
Import ContactManagement.

Section Handlers.
Context `{Engine} `{Platform} `{Supabase}.
Variable user : option User.t.

Definition handleTabChange (newValue : nat) : Task State unit :=
  set (setTabValue newValue);;
  set (setError None);;
  set (setSuccess None).

Definition handleCloseContactDialog : Task State unit :=
  set (setOpenContactDialog false);;
  set (setError None).

Definition handleSaveContact : Task State unit :=
  s ← cells;
  if String.eqb (trim (contactName s)) "" then
    set (setError (Some "Contact name is required"))
  else if String.eqb (trim (contactEmail s)) ""
          && String.eqb (trim (contactPhone s)) "" then
    set (setError (Some "Either email or phone is required"))
  else
    try_catch_finally
      (set (setLoading true);;
       set (setError None);;
       let contactData : JsObject :=
         <["created_by" := user_id user]>
         (<["phone" := or_null (trim (contactPhone s))]>
         (<["email" := or_null (trim (contactEmail s))]>
         {["name" := JStr (trim (contactName s))]})) in
       result_error ←
         (if truthy (editingContact s) then
            id ← lift (get (editingContact s) "id");
            submit (contacts_update_eq_id (JObj contactData) id)
                   (update_contact (JObj contactData) id)
          else
            submit (contacts_insert (JObj contactData))
                   (insert_contacts (JObj contactData)));
       throw_if result_error;;
       set (setSuccess (Some ("Contact "
              +:+ (if truthy (editingContact s) then "updated" else "added")
              +:+ " successfully!")));;
       handleCloseContactDialog;;
       fetchContacts)
      (λ e, set (setError (Some ("Failed to "
              +:+ (if truthy (editingContact s) then "update" else "add")
              +:+ " contact: " +:+ message e))))
      (set (setLoading false)).

(** The body of the [txt] branch:
    [text.split('\n').filter(line => line.trim())], then as before;
    [lines[0].split] throws when no line is left. *)
Definition parseTxt (text : string) : Completion (list JsObject) :=
  let lines := filter (λ line, trim line ≠ "") (split is_newline text) in
  match lines !! 0 with
  | None => Throw (TypeError JUndefined "split")
  | Some first =>
      let headers := trim <$> split is_comma_or_tab first in
      Normal (recordOf headers <$> drop 1 lines)
  end.

Definition onload (fileExtension : option string) (result : string)
  : Task State unit :=
  try_catch
    (if bool_decide (fileExtension = Some "csv") then parseCsv result
     else if includes ["xlsx"; "xls"] (default "" fileExtension) then
       parseExcel result
     else if bool_decide (fileExtension = Some "json") then parseJson result
     else if bool_decide (fileExtension = Some "txt") then
       parsedData ← lift (parseTxt result);
       processImportedData (JArr (JObj <$> parsedData))
     else
       set (setImportError (Some unsupported));;
       set (setImportLoading false))
    processing_failed.

Definition onDrop (acceptedFiles : list File.t) : Task State unit :=
  match acceptedFiles !! 0 with
  | None => mret ()
  | Some file =>
      set (setImportError None);;
      set (setImportLoading true);;
      let fileExtension := fileExtension file in
      if bool_decide (fileExtension = Some "csv")
         || bool_decide (fileExtension = Some "txt")
         || bool_decide (fileExtension = Some "json") then
        match File.readAsText file with
        | Some result => onload fileExtension result
        | None => onerror
        end
      else if includes ["xlsx"; "xls"] (default "" fileExtension) then
        match File.readAsBinaryString file with
        | Some result => onload fileExtension result
        | None => onerror
        end
      else
        set (setImportError (Some unsupported));;
        set (setImportLoading false)
  end.

End Handlers.
End ContactManagementLater.

(** ** The mount of UserManagement *)

Module UserAccess.
Import UserManagement.

Section Handlers.
Context `{Supabase}.

(** The effect that runs when the component mounts: the list of users
    is fetched for an administrator only. *)
Definition onMount (isAdmin : bool) : Task State unit :=
  if negb isAdmin then
    set (setError (Some "You do not have permission to access this page"))
  else fetchUsers.

End Handlers.
End UserAccess.

(** ** What the handlers of ContactManagement leave behind *)

Section Outcomes.
Context `{Engine} `{Platform} `{Supabase}.
Import ContactManagement.

(** The cells after [fetchContacts], by the answer of the store. *)
Definition fetched (w : World State) : State :=
  setLoading false
    match Response.error (select_contacts (store w)) with
    | Some e =>
        setError (Some ("Error fetching contacts: " +:+ message e))
                 (setLoading true (ui w))
    | None =>
        setContacts (default [] (Response.data (select_contacts (store w))))
                    (setLoading true (ui w))
    end.

(** The form passes the validation of [handleSaveContact]. *)
Definition valid (s : State) : Prop :=
  contactName s ≠ "" ∧ (contactEmail s ≠ "" ∨ contactPhone s ≠ "").

(** The object literal [contactData] of [handleSaveContact]. *)
Definition contactData (user : option User.t) (s : State) : JsObject :=
  <["created_by" := user_id user]>
  (<["phone" := or_null (contactPhone s)]>
  (<["email" := or_null (contactEmail s)]>
  {["name" := JStr (contactName s)]})).

(** [editingContact.id] *)
Definition editing_id (s : State) : JsValue :=
  match editingContact s with
  | JObj fields => field fields "id"
  | _ => JUndefined
  end.

(** The request of [handleSaveContact] on a valid form, and what the
    store does with it. *)
Definition save_request (user : option User.t) (s : State) : Request :=
  if truthy (editingContact s)
  then contacts_update_eq_id (JObj (contactData user s)) (editing_id s)
  else contacts_insert (JObj (contactData user s)).

Definition save_answer (user : option User.t) (w : World State)
  : option Exn * Store :=
  if truthy (editingContact (ui w))
  then update_contact (JObj (contactData user (ui w))) (editing_id (ui w))
                      (store w)
  else insert_contacts (JObj (contactData user (ui w))) (store w).
End Outcomes.

Section ImportOutcomes.
Context `{Engine} `{Platform} `{Supabase}.
Import ContactManagement.

(** The two ways in which the reading of a file ends, from the world
    [w] in which it began: with a message and the preview as it was, or
    with the canonical records of some rows, filtered, as the preview. *)
Definition import_failed (msg : string) (w : World State) : World State :=
  {| ui := setImportLoading false (setImportError (Some msg) (ui w));
     store := store w;
     sent := sent w |}.

Definition import_previewed (rows : list JsObject) (w : World State)
  : World State :=
  {| ui := setImportLoading false
       (setImportedContacts
          (filter (λ contact, kept contact) (normalize <$> rows)) (ui w));
     store := store w;
     sent := sent w |}.

Definition import_ended (w : World State)
    (result : Completion unit * World State) : Prop :=
  (∃ msg, result = (Normal (), import_failed msg w))
  ∨ (∃ rows, result = (Normal (), import_previewed rows w)).
End ImportOutcomes.

(** ** Handlers that send further requests

    The composer of messages and the form of a user send requests of
    their own: an insert of a message, an update of a profile, the
    creation of an account.  Their handlers run like the ones above,
    against the cells, the store and the log of everything that was
    sent. *)

Inductive Call : Type :=
| request (r : Request)
| messages_insert (values : JsValue)
| profiles_update_eq_id (values : JsValue) (id : JsValue)
| auth_admin_createUser (attributes : JsValue)
| auth_signUp (credentials : JsValue).

(** What the store does with these requests. *)
Class Accounts `{Supabase} := {
  insert_message : JsValue → Store → option Exn * Store;
  update_profile : JsValue → JsValue → Store → option Exn * Store;
  admin_createUser : JsValue → Store → option Exn * Store;
  signUp : JsValue → Store → option Exn * Store
}.

Module Job.
Section Job.
Context `{Supabase}.

Record Session (S : Type) := { view : S; tables : Store; calls : list Call }.
Arguments view {S} _.
Arguments tables {S} _.
Arguments calls {S} _.

Definition t (S A : Type) : Type := Session S → Completion A * Session S.

#[global] Instance ret {S} : MRet (t S) := λ A a j, (Normal a, j).
#[global] Instance bind {S} : MBind (t S) := λ A B f m j,
  match m j with
  | (Normal a, j') => f a j'
  | (Throw e, j') => (Throw e, j')
  end.

(** The cells as the closure of the running render sees them. *)
Definition read {S} : t S S := λ j, (Normal (view j), j).

(** A setter of a [useState] cell. *)
Definition set {S} (f : S → S) : t S unit := λ j,
  (Normal (), {| view := f (view j); tables := tables j; calls := calls j |}).

Definition throw {S A} (e : Exn) : t S A := λ j, (Throw e, j).

Definition lift {S A} (c : Completion A) : t S A := λ j, (c, j).

(** [if (error) throw error] *)
Definition throw_if {S} (error : option Exn) : t S unit :=
  match error with
  | Some e => throw e
  | None => mret ()
  end.

(** A request that writes to the store. *)
Definition call {S A} (c : Call) (run : Store → A * Store) : t S A := λ j,
  let (a, tables') := run (tables j) in
  (Normal a, {| view := view j; tables := tables'; calls := calls j ++ [c] |}).

(** [try { body } catch (e) { handler e } finally { cleanup }] *)
Definition try_catch_finally {S} (body : t S unit)
    (handler : Exn → t S unit) (cleanup : t S unit) : t S unit :=
  λ j,
    match body j with
    | (Normal _, j1) => cleanup j1
    | (Throw e, j1) =>
        match handler e j1 with
        | (Normal _, j2) => cleanup j2
        | (Throw e', j2) =>
            match cleanup j2 with
            | (Normal _, j3) => (Throw e', j3)
            | thrown => thrown
            end
        end
    end.

(** One of the handlers above, run in place: its requests join the
    log in the order in which it sent them. *)
Definition earlier {S A} (task : Task S A) : t S A := λ j,
  let (c, w) := task {| ui := view j; store := tables j; sent := [] |} in
  (c, {| view := ui w; tables := store w;
         calls := calls j ++ (request <$> sent w) |}).
End Job.

Arguments view {_ S} _.
Arguments tables {_ S} _.
Arguments calls {_ S} _.
Arguments Build_Session {_ S} _ _ _.
End Job.

(** ** MessagingInterface

    The two versions of the composer differ in the text that announces
    a sent message. *)

(** [typeof value === 'string' ? value.split(',') : value] for the
    value of a multiple select: an array, or a string after autofill. *)
Definition is_comma (c : ascii) : bool := (code c =? 44)%N.

Definition selection (value : string + list string) : list string :=
  match value with
  | inl text => split is_comma text
  | inr array => array
  end.

(** [array.join(', ')] *)
Definition join (separator : string) (array : list string) : string :=
  String.concat separator array.

Module MessagingInterface.

Record State := {
  message : string;
  selectedContacts : list string;
  contacts : list JsValue;
  channels : list string;
  selectedChannels : list string;
  loading : bool;
  error : option string;
  success : option string
}.

Definition setMessage (v : string) (s : State) : State :=
  {| message := v; selectedContacts := selectedContacts s; contacts :=
     contacts s; channels := channels s; selectedChannels :=
     selectedChannels s; loading := loading s; error := error s; success
     := success s |}.
Definition setSelectedContacts (v : list string) (s : State) : State :=
  {| message := message s; selectedContacts := v; contacts := contacts s;
     channels := channels s; selectedChannels := selectedChannels s;
     loading := loading s; error := error s; success := success s |}.
Definition setContacts (v : list JsValue) (s : State) : State :=
  {| message := message s; selectedContacts := selectedContacts s;
     contacts := v; channels := channels s; selectedChannels :=
     selectedChannels s; loading := loading s; error := error s; success
     := success s |}.
Definition setSelectedChannels (v : list string) (s : State) : State :=
  {| message := message s; selectedContacts := selectedContacts s;
     contacts := contacts s; channels := channels s; selectedChannels :=
     v; loading := loading s; error := error s; success := success s |}.
Definition setLoading (v : bool) (s : State) : State :=
  {| message := message s; selectedContacts := selectedContacts s;
     contacts := contacts s; channels := channels s; selectedChannels :=
     selectedChannels s; loading := v; error := error s; success :=
     success s |}.
Definition setError (v : option string) (s : State) : State :=
  {| message := message s; selectedContacts := selectedContacts s;
     contacts := contacts s; channels := channels s; selectedChannels :=
     selectedChannels s; loading := loading s; error := v; success :=
     success s |}.
Definition setSuccess (v : option string) (s : State) : State :=
  {| message := message s; selectedContacts := selectedContacts s;
     contacts := contacts s; channels := channels s; selectedChannels :=
     selectedChannels s; loading := loading s; error := error s; success
     := v |}.

(** The cells at the first render. *)
Definition initial : State := {|
  message := ""; selectedContacts := []; contacts := [];
  channels := ["email"; "whatsapp"]; selectedChannels := [];
  loading := false; error := None; success := None
|}.

Section Handlers.
Context `{Supabase} `{!Accounts}.
Variable user : option User.t.
(** Whether the announcement names the contacts and the channels. *)
Variable detailed : bool.

(** A failure is only logged to the console. *)
Definition fetchContacts : Job.t State unit :=
  Job.try_catch_finally
    (r ← Job.earlier (ask contacts_select_order_name select_contacts);
     Job.throw_if (Response.error r);;
     Job.set (setContacts (default [] (Response.data r))))
    (λ _, mret ())
    (mret ()).

Definition handleContactChange (value : string + list string)
  : Job.t State unit :=
  Job.set (setSelectedContacts (selection value)).

Definition handleChannelChange (value : string + list string)
  : Job.t State unit :=
  Job.set (setSelectedChannels (selection value)).

(** The object that [handleSendMessage] inserts. *)
Definition outgoing (s : State) : JsObject :=
  <["sent_via" := JArr (JStr <$> selectedChannels s)]>
  (<["recipients" := JArr (JStr <$> selectedContacts s)]>
  (<["sent_by" := user_id user]>
  {["content" := JStr (message s)]})).

Definition handleSendMessage : Job.t State unit :=
  s ← Job.read;
  if String.eqb (trim (message s)) "" then
    Job.set (setError (Some "Please enter a message"))
  else if (length (selectedContacts s) =? 0)%nat then
    Job.set (setError (Some "Please select at least one contact"))
  else if (length (selectedChannels s) =? 0)%nat then
    Job.set (setError
      (Some "Please select at least one channel (Email or WhatsApp)"))
  else
    Job.set (setLoading true);;
    Job.set (setError None);;
    Job.set (setSuccess None);;
    Job.try_catch_finally
      (insert_error ←
         Job.call (messages_insert (JObj (outgoing s)))
                  (insert_message (JObj (outgoing s)));
       Job.throw_if insert_error;;
       Job.set (setSuccess (Some
         (if detailed then
            "Message sent successfully to "
            +:+ ContactManagement.decimal (S (length (selectedContacts s)))
                                          (length (selectedContacts s))
            +:+ " contact(s) via " +:+ join ", " (selectedChannels s) +:+ "!"
          else "Message sent successfully!")));;
       Job.set (setMessage "");;
       Job.set (setSelectedContacts []);;
       Job.set (setSelectedChannels []))
      (λ '(Build_Exn text),
         Job.set (setError (Some ("Failed to send message: " +:+ text))))
      (Job.set (setLoading false)).

End Handlers.
End MessagingInterface.

(** ** The form of a user

    [generateRandomPassword] draws twelve characters; the numbers
    [Math.floor(Math.random() * chars.length)] that it draws are taken as
    they come. *)

Module UserForm.
Import UserManagement.

Definition setOpenUserDialog (v : bool) (s : State) : State :=
  {| users := users s; loading := loading s; error := error s; success :=
     success s; openUserDialog := v; editingUser := editingUser s;
     userEmail := userEmail s; userRole := userRole s; generatePassword :=
     generatePassword s; userPassword := userPassword s |}.
Definition setEditingUser (v : JsValue) (s : State) : State :=
  {| users := users s; loading := loading s; error := error s; success :=
     success s; openUserDialog := openUserDialog s; editingUser := v;
     userEmail := userEmail s; userRole := userRole s; generatePassword :=
     generatePassword s; userPassword := userPassword s |}.
Definition setUserEmail (v : string) (s : State) : State :=
  {| users := users s; loading := loading s; error := error s; success :=
     success s; openUserDialog := openUserDialog s; editingUser :=
     editingUser s; userEmail := v; userRole := userRole s;
     generatePassword := generatePassword s; userPassword := userPassword
     s |}.
Definition setUserRole (v : string) (s : State) : State :=
  {| users := users s; loading := loading s; error := error s; success :=
     success s; openUserDialog := openUserDialog s; editingUser :=
     editingUser s; userEmail := userEmail s; userRole := v;
     generatePassword := generatePassword s; userPassword := userPassword
     s |}.
Definition setGeneratePassword (v : bool) (s : State) : State :=
  {| users := users s; loading := loading s; error := error s; success :=
     success s; openUserDialog := openUserDialog s; editingUser :=
     editingUser s; userEmail := userEmail s; userRole := userRole s;
     generatePassword := v; userPassword := userPassword s |}.
Definition setUserPassword (v : string) (s : State) : State :=
  {| users := users s; loading := loading s; error := error s; success :=
     success s; openUserDialog := openUserDialog s; editingUser :=
     editingUser s; userEmail := userEmail s; userRole := userRole s;
     generatePassword := generatePassword s; userPassword := v |}.

Definition chars : string :=
  "ABCDEFGHIJKLMNOPQRSTUVWXYZabcdefghijklmnopqrstuvwxyz0123456789!@#$%^&*()".

(** [chars.charAt(index)]: the empty string outside the text. *)
Definition charAt (text : string) (index : nat) : string :=
  match String.get index text with
  | Some c => String c ""
  | None => ""
  end.

(** The loop of [generateRandomPassword], for the number [draw i] drawn
    at its [i]-th turn. *)
Definition generateRandomPassword (draw : nat → nat) : string :=
  foldl (λ password i, password +:+ charAt chars (draw i)) "" (seq 0 12).

Section Handlers.
Context `{Engine} `{Supabase} `{!Accounts}.
(** The numbers drawn by the call of [generateRandomPassword]. *)
Variable draw : nat → nat.

Definition openAddUserDialog : Job.t State unit :=
  Job.set (setEditingUser JNull);;
  Job.set (setUserEmail "");;
  Job.set (setUserRole "user");;
  Job.set (setGeneratePassword true);;
  Job.set (setUserPassword "");;
  Job.set (setOpenUserDialog true).

(** The earlier version also clears the error. *)
Definition handleCloseUserDialog : Job.t State unit :=
  Job.set (setOpenUserDialog false);;
  Job.set (setError None).

Definition handleCloseUserDialog_later : Job.t State unit :=
  Job.set (setOpenUserDialog false).

(** [{ role: userRole }] *)
Definition role_of (s : State) : JsObject := {["role" := JStr (userRole s)]}.

(** The attributes of [auth.admin.createUser]. *)
Definition new_user (s : State) (finalPassword : string) : JsObject :=
  <["user_metadata" := JObj (role_of s)]>
  (<["email_confirm" := JBool true]>
  (<["password" := JStr finalPassword]>
  {["email" := JStr (userEmail s)]})).

(** The credentials of [auth.signUp]. *)
Definition sign_up (s : State) : JsObject :=
  <["options" := JObj {["data" := JObj (role_of s)]}]>
  (<["password" := JStr (userPassword s)]>
  {["email" := JStr (userEmail s)]}).

(** The version that calls the admin API. *)
Definition handleSaveUser : Job.t State unit :=
  s ← Job.read;
  if String.eqb (trim (userEmail s)) "" then
    Job.set (setError (Some "Email is required"))
  else
    let finalPassword :=
      if negb (truthy (editingUser s)) && generatePassword s
      then generateRandomPassword draw else userPassword s in
    if negb (truthy (editingUser s)) && String.eqb finalPassword "" then
      Job.set (setError (Some "Password is required"))
    else
      Job.try_catch_finally
        (Job.set (setLoading true);;
         Job.set (setError None);;
         (if truthy (editingUser s) then
            (* Update existing user role *)
            id ← Job.lift (get (editingUser s) "id");
            update_error ←
              Job.call (profiles_update_eq_id (JObj (role_of s)) id)
                       (update_profile (JObj (role_of s)) id);
            Job.throw_if update_error;;
            Job.set (setSuccess (Some "User updated successfully!"))
          else
            (* Create new user *)
            create_error ←
              Job.call (auth_admin_createUser (JObj (new_user s finalPassword)))
                       (admin_createUser (JObj (new_user s finalPassword)));
            Job.throw_if create_error;;
            Job.set (setSuccess (Some
              ("User created successfully! "
               +:+ (if generatePassword s
                    then "Password: " +:+ finalPassword else "")))));;
         handleCloseUserDialog;;
         Job.earlier fetchUsers)
        (λ e, Job.set (setError (Some
           ("Failed to "
            +:+ (if truthy (editingUser s) then "update" else "create")
            +:+ " user: " +:+ message e))))
        (Job.set (setLoading false)).

(** The version that signs the user up. *)
Definition handleSaveUser_later : Job.t State unit :=
  s ← Job.read;
  if String.eqb (userEmail s) "" then
    Job.set (setError (Some "Email is required"))
  else if negb (truthy (editingUser s)) && generatePassword s
          && String.eqb (userPassword s) "" then
    (* Generate a random password *)
    Job.set (setUserPassword (generateRandomPassword draw))
  else
    Job.try_catch_finally
      (Job.set (setLoading true);;
       Job.set (setError None);;
       (if truthy (editingUser s) then
          (* Update existing user *)
          id ← Job.lift (get (editingUser s) "id");
          update_error ←
            Job.call (profiles_update_eq_id (JObj (role_of s)) id)
                     (update_profile (JObj (role_of s)) id);
          Job.throw_if update_error;;
          Job.set (setSuccess (Some "User updated successfully!"))
        else
          (* Create new user *)
          create_error ←
            Job.call (auth_signUp (JObj (sign_up s))) (signUp (JObj (sign_up s)));
          Job.throw_if create_error;;
          Job.set (setSuccess (Some
            ("User created successfully! "
             +:+ (if generatePassword s
                  then "Password: " +:+ userPassword s else "")))));;
       handleCloseUserDialog_later;;
       Job.earlier fetchUsers)
      (λ e, Job.set (setError (Some
         ("Failed to "
          +:+ (if truthy (editingUser s) then "update" else "create")
          +:+ " user: " +:+ message e))))
      (Job.set (setLoading false)).

End Handlers.
End UserForm.

Section FormOutcomes.
Import MessagingInterface.

(** The composer passes the three checks of [handleSendMessage]. *)
Definition ready (s : State) : Prop :=
  trim (message s) ≠ "" ∧ selectedContacts s ≠ [] ∧ selectedChannels s ≠ [].

(** The text contains no comma. *)
Definition comma_free (text : string) : Prop :=
  existsb is_comma (list_ascii_of_string text) = false.
End FormOutcomes.

(** ** More stores and inputs of the examples *)

(** The store in memory with other answers to the reading of the
    messages and to the count of the profiles. *)
Definition answering
    (messages_answer : Memory.Tables → Response.t (list Message.t))
    (profiles_count : Memory.Tables → Counted.t) : Supabase := {|
  Store := Memory.Tables;
  select_contacts := @select_contacts Memory.supabase;
  insert_contacts := @insert_contacts Memory.supabase;
  update_contact := @update_contact Memory.supabase;
  delete_contact := @delete_contact Memory.supabase;
  count_contacts := @count_contacts Memory.supabase;
  select_messages := messages_answer;
  count_profiles := profiles_count;
  select_profiles := @select_profiles Memory.supabase;
  delete_profile := @delete_profile Memory.supabase;
  admin_deleteUser := @admin_deleteUser Memory.supabase
|}.

(** A store that refuses to count the profiles. *)
Definition profiles_hidden : Supabase :=
  answering (@select_messages Memory.supabase)
    (λ _, {| Counted.count := None;
             Counted.error :=
               Some {| message := "permission denied for table profiles" |} |}).


(** Four messages, each sent by email. *)
Definition four_emails : Memory.Tables :=
  {| Memory.contacts := [];
     Memory.messages := [
       a_message "m1" "2024-03-04T10:00:00Z" ["email"];
       a_message "m2" "2024-03-03T10:00:00Z" ["email"];
       a_message "m3" "2024-03-02T10:00:00Z" ["email"; "whatsapp"];
       a_message "m4" "2024-03-01T10:00:00Z" ["email"] ];
     Memory.profiles := [] |}.

Definition text_of (v : JsValue) : string :=
  match v with
  | JStr s => s
  | _ => ""
  end.

Definition texts_of (v : JsValue) : list string :=
  match v with
  | JArr items => text_of <$> items
  | _ => []
  end.

(** The store in memory keeps an inserted message under the next id; its
    clock stands still.  It updates a profile like a contact, lets nobody
    create an account through the admin API, and adds the profile of a
    user who signs up. *)
Definition kept_message (values : JsValue) (t : Memory.Tables)
  : option Exn * Memory.Tables :=
  match values with
  | JObj fields =>
      (None,
       {| Memory.contacts := Memory.contacts t;
          Memory.messages :=
            Memory.messages t ++
            [{| Message.id :=
                  "m" +:+ ContactManagement.decimal
                            (S (S (length (Memory.messages t))))
                            (S (length (Memory.messages t)));
                Message.content := text_of (field fields "content");
                Message.sent_at := "2024-03-08T10:00:00Z";
                Message.sent_by := text_of (field fields "sent_by");
                Message.recipients := texts_of (field fields "recipients");
                Message.sent_via := texts_of (field fields "sent_via") |}];
          Memory.profiles := Memory.profiles t |})
  | _ => (Some {| message := "invalid input" |}, t)
  end.

Definition changed_profile (values id : JsValue) (t : Memory.Tables)
  : option Exn * Memory.Tables :=
  (None, {| Memory.contacts := Memory.contacts t;
            Memory.messages := Memory.messages t;
            Memory.profiles := Memory.updated values id <$> Memory.profiles t |}).

Definition signed_up (credentials : JsValue) (t : Memory.Tables)
  : option Exn * Memory.Tables :=
  match credentials with
  | JObj fields =>
      (None, {| Memory.contacts := Memory.contacts t;
                Memory.messages := Memory.messages t;
                Memory.profiles :=
                  Memory.profiles t
                  ++ [JObj {["email" := field fields "email"]}] |})
  | _ => (Some {| message := "invalid input" |}, t)
  end.

Definition accounts : @Accounts Memory.supabase :=
  @Build_Accounts Memory.supabase
    kept_message changed_profile
    (λ _ t, (Some {| message := "User not allowed" |}, t))
    signed_up.

(** A session of the store in memory in which nothing was sent yet. *)
Definition opening {S : Type} (cells : S) (tables : Memory.Tables)
  : @Job.Session Memory.supabase S :=
  @Job.Build_Session Memory.supabase S cells tables [].

(** The form of Dee with an email. *)
Definition dee_by_email : ContactManagement.State :=
  ContactDialog.setContactEmail "dee@example.org" name_only.

(** The row of Cy, who has a phone and no email. *)
Definition cy_row : Contact.t :=
  {| Contact.id := "c1"; Contact.name := "Cy"; Contact.email := None;
     Contact.phone := Some "12345";
     Contact.created_at := "2024-03-01T10:00:00Z";
     Contact.created_by := "7d0c" |}.

(** The text file of Cy behind an empty first line. *)
Definition gap_first_txt : string := newline +:+ cy_txt.

(** A message to one contact by email, ready to be sent. *)
Definition hello_to_cy : MessagingInterface.State :=
  MessagingInterface.setSelectedChannels ["email"]
    (MessagingInterface.setSelectedContacts ["c1"]
       (MessagingInterface.setMessage "hello" MessagingInterface.initial)).

(** The profile of Bob, and the form that makes him an administrator. *)
Definition bob_profile : JsObject :=
  <["role" := JStr "user"]>
  (<["email" := JStr "bob@example.org"]> {["id" := JStr "b0b0"]}).

Definition bob_only : Memory.Tables :=
  {| Memory.contacts := []; Memory.messages := [];
     Memory.profiles := [JObj bob_profile] |}.

Definition bob_promoted : UserManagement.State :=
  UserForm.setUserRole "admin"
    (UserForm.setUserEmail "bob@example.org"
       (UserForm.setEditingUser (JObj bob_profile) UserManagement.initial)).

(** The form of a new user, Carol, with the box for a generated password
    ticked and unticked. *)
Definition carol_new : UserManagement.State :=
  UserForm.setUserEmail "carol@example.org" UserManagement.initial.

Definition carol_typed : UserManagement.State :=
  UserForm.setGeneratePassword false carol_new.

(** Draws that are all zero. *)
Definition zeros : nat → nat := λ _, 0.

(** * Properties *)

(** ** The model at work *)

Example split_cells :
  split is_comma_or_tab ("a,b" +:+ String "009" "c,") = ["a"; "b"; "c"; ""].
Proof. reflexivity. Qed.

Example trim_cell : trim ("  Cy " +:+ String "013" "") = "Cy".
Proof. reflexivity. Qed.

Example extension_of_names :
  toLowerCase (extension "Report.final.CSV") = "csv"
  ∧ sniff "Sheet.XLS" = spreadsheet
  ∧ sniff "archive.tar.gz" = unsupported_format
  ∧ sniff "notes" = unsupported_format
  ∧ sniff "json" = json.
Proof. by repeat split. Qed.

Example decode_numbers :
  Json.parse "0.1" = Normal (JNum (S754_finite false 7205759403792794 (-56)))
  ∧ Json.parse "[1e400, -0]"
    = Normal (JArr [JNum (S754_infinity false); JNum (S754_zero true)])
  ∧ Json.parse "[1,]" = Throw {| message := "Unexpected token in JSON" |}.
Proof. by repeat split. Qed.

(** A [null] among the rows: the callback throws, the preview is left
    as it was and the message of the engine is shown. *)
Example null_row :
  (@ContactManagement.processImportedData v8 Memory.supabase
     (JArr [JObj ann; JNull]) (start preview_of_ann no_rows)).2
  = start
      (ContactManagement.setImportLoading false
         (ContactManagement.setImportError
            (Some "Error processing data: Cannot read properties of null (reading 'name')")
            preview_of_ann))
      no_rows.
Proof. reflexivity. Qed.

(** ** Values *)

Lemma truthy_non_empty (v : JsValue) : truthy v = true → non_empty v.
Proof. intros Hv ->. discriminate Hv. Qed.

(** The values that a [||] chain passes over. *)
Lemma falsy_values (v : JsValue) :
  truthy v = false ↔
    v = JUndefined ∨ v = JNull ∨ v = JBool false ∨ v = JStr ""
    ∨ v = JNum S754_nan ∨ ∃ sign, v = JNum (S754_zero sign).
Proof.
  split.
  - destruct v as [| |[]|[sign|sign| |sign m e]|s|items|fields]; simpl;
      try discriminate; eauto 7.
    rewrite negb_false_iff. intros Hs. apply String.eqb_eq in Hs as ->. eauto 7.
  - intros [->|[->|[->|[->|[->|[sign ->]]]]]]; reflexivity.
Qed.

Lemma truthy_string (s : string) : truthy (JStr s) = true ↔ s ≠ "".
Proof.
  simpl. rewrite negb_true_iff. split.
  - intros Hs ->. discriminate Hs.
  - intros Hs. apply String.eqb_neq, Hs.
Qed.

Lemma first_non_empty_cases (row : JsObject) (aliases : list string) :
  truthy (first_non_empty row aliases) = true
  ∨ first_non_empty row aliases = JStr "".
Proof.
  unfold first_non_empty.
  induction aliases as [|alias others IH]; simpl; [by right|].
  destruct (truthy (field row alias)) eqn:Halias; [by left|exact IH].
Qed.

Lemma first_non_empty_truthy (row : JsObject) (aliases : list string) :
  truthy (first_non_empty row aliases) = true
  ↔ non_empty (first_non_empty row aliases).
Proof.
  split; [apply truthy_non_empty|].
  intros Hne. by destruct (first_non_empty_cases row aliases).
Qed.

(** The first alias whose value is truthy decides; the aliases before it
    are falsy. *)
Lemma first_non_empty_spec (row : JsObject) (aliases : list string) (v : JsValue) :
  first_non_empty row aliases = v ↔
    (∃ before alias after,
        aliases = before ++ alias :: after
        ∧ Forall (λ k, truthy (field row k) = false) before
        ∧ truthy (field row alias) = true
        ∧ v = field row alias)
    ∨ (Forall (λ k, truthy (field row k) = false) aliases ∧ v = JStr "").
Proof.
  unfold first_non_empty.
  revert v. induction aliases as [|alias others IH]; intros v; simpl.
  - split.
    + intros <-. right. by split.
    + intros [(before & k & after & Heq & _)|[_ ->]]; [|done].
      by destruct before.
  - destruct (truthy (field row alias)) eqn:Halias.
    + split.
      * intros <-. left. exists [], alias, others. by repeat split.
      * intros [(before & k & after & Heq & Hbefore & Hk & ->)|[Hall _]].
        -- destruct before as [|b before]; simplify_eq/=; [done|].
           apply Forall_cons in Hbefore as [Hb _]. congruence.
        -- apply Forall_cons in Hall as [Hb _]. congruence.
    + rewrite IH. split.
      * intros [(before & k & after & -> & Hbefore & Hk & ->)|[Hall ->]].
        -- left. exists (alias :: before), k, after.
           repeat split; [by constructor|done].
        -- right. split; [by constructor|done].
      * intros [(before & k & after & Heq & Hbefore & Hk & ->)|[Hall ->]].
        -- destruct before as [|b before]; simplify_eq/=; [congruence|].
           apply Forall_cons in Hbefore as [_ Hbefore].
           left. by exists before, k, after.
        -- apply Forall_cons in Hall as [_ Hall]. by right.
Qed.

Section Normalizer.
Context `{Engine}.

Lemma bind_Normal {A B} (f : A → Completion B) (a : A) :
  Normal a ≫= f = f a.
Proof. reflexivity. Qed.

Lemma get_object (row : JsObject) (k : string) :
  get (JObj row) k = Normal (field row k).
Proof. reflexivity. Qed.

Lemma or_else_normal (v : JsValue) (rest : Completion JsValue) :
  Normal v ||| rest = if truthy v then Normal v else rest.
Proof. reflexivity. Qed.

(** One more alternative at the end of a chain. *)
Lemma or_else_first_match (row : JsObject) (seen : list string) (k : string)
    (next : JsValue) :
  Normal (first_match row seen (field row k)) ||| Normal next
  = Normal (first_match row (seen ++ [k]) next).
Proof.
  rewrite or_else_normal.
  induction seen as [|k' seen IH]; simpl.
  - by destruct (truthy (field row k)).
  - destruct (truthy (field row k')) eqn:Hk'; [by rewrite Hk'|exact IH].
Qed.

Lemma or_else_chain (row : JsObject) (k : string) :
  get (JObj row) k = Normal (first_match row [] (field row k)).
Proof. reflexivity. Qed.

(** On an object the literal chains of [contactOf] compute the
    canonical record. *)
Lemma contactOf_object (row : JsObject) :
  ContactManagement.contactOf (JObj row) = Normal (normalize row).
Proof.
  unfold ContactManagement.contactOf, normalize.
  assert (Hname :
    get (JObj row) "name" ||| get (JObj row) "Name" ||| get (JObj row) "NAME"
      ||| get (JObj row) "contact" ||| get (JObj row) "Contact"
      ||| Normal (JStr "")
    = Normal (first_non_empty row name_aliases)).
  { rewrite (or_else_chain row), !get_object, !or_else_first_match.
    reflexivity. }
  assert (Hemail :
    get (JObj row) "email" ||| get (JObj row) "Email" ||| get (JObj row) "EMAIL"
      ||| Normal (JStr "")
    = Normal (first_non_empty row email_aliases)).
  { rewrite (or_else_chain row), !get_object, !or_else_first_match.
    reflexivity. }
  assert (Hphone :
    get (JObj row) "phone" ||| get (JObj row) "Phone" ||| get (JObj row) "PHONE"
      ||| get (JObj row) "mobile" ||| get (JObj row) "Mobile"
      ||| get (JObj row) "whatsapp" ||| get (JObj row) "Whatsapp"
      ||| Normal (JStr "")
    = Normal (first_non_empty row phone_aliases)).
  { rewrite (or_else_chain row), !get_object, !or_else_first_match.
    reflexivity. }
  rewrite Hname, bind_Normal. cbv beta.
  rewrite Hemail, bind_Normal. cbv beta.
  rewrite Hphone, bind_Normal. reflexivity.
Qed.

Lemma mapM_contactOf_objects (rows : list JsObject) :
  mapM ContactManagement.contactOf (JObj <$> rows) = Normal (normalize <$> rows).
Proof.
  induction rows as [|row rows IH]; [reflexivity|].
  cbn [fmap list_fmap mapM]. rewrite contactOf_object, bind_Normal.
  change (mapM ContactManagement.contactOf (list_fmap _ _ JObj rows))
    with (mapM ContactManagement.contactOf (JObj <$> rows)).
  rewrite IH. reflexivity.
Qed.
End Normalizer.

(** ** Running a handler *)

Section Running.
Context `{Supabase}.

Lemma bind_run {S A B} (m : Task S A) (k : A → Task S B) (w : World S) :
  (m ≫= k) w =
  match m w with
  | (Normal a, w') => k a w'
  | (Throw e, w') => (Throw e, w')
  end.
Proof. reflexivity. Qed.

Lemma bind_set {S B} (f : S → S) (k : unit → Task S B) (w : World S) :
  (set f ≫= k) w = k () {| ui := f (ui w); store := store w; sent := sent w |}.
Proof. reflexivity. Qed.

Lemma bind_ask {S A B} (r : Request) (answer : Store → A)
    (k : A → Task S B) (w : World S) :
  (ask r answer ≫= k) w =
  k (answer (store w))
    {| ui := ui w; store := store w; sent := sent w ++ [r] |}.
Proof. reflexivity. Qed.

Lemma bind_mret {S A B} (a : A) (k : A → Task S B) (w : World S) :
  (mret a ≫= k) w = k a w.
Proof. reflexivity. Qed.

Lemma bind_assoc {S A B C} (m : Task S A) (k : A → Task S B)
    (k' : B → Task S C) (w : World S) :
  ((m ≫= k) ≫= k') w = (m ≫= λ a, k a ≫= k') w.
Proof.
  unfold mbind, Task_bind. destruct (m w) as [[a|e] w']; reflexivity.
Qed.

Lemma bind_lift {S A B} (c : Completion A) (k : A → Task S B) (w : World S) :
  (lift c ≫= k) w =
  match c with
  | Normal a => k a w
  | Throw e => (Throw e, w)
  end.
Proof. by destruct c. Qed.

Lemma bind_throw_if_None {S B} (k : unit → Task S B) (w : World S) :
  (throw_if None ≫= k) w = k () w.
Proof. reflexivity. Qed.

Lemma bind_throw_if_Some {S B} (e : Exn) (k : unit → Task S B) (w : World S) :
  (throw_if (Some e) ≫= k) w = (Throw e, w).
Proof. reflexivity. Qed.
End Running.

(** ** The field normalizer *)

Section AcceptedSet.
Context `{Engine} `{Platform} `{Supabase}.
Import ContactManagement.

Lemma field_normalize (row : JsObject) :
  field (normalize row) "name" = first_non_empty row name_aliases
  ∧ field (normalize row) "email" = first_non_empty row email_aliases
  ∧ field (normalize row) "phone" = first_non_empty row phone_aliases.
Proof. by repeat split. Qed.

Lemma kept_normalize (row : JsObject) :
  kept (normalize row) = true ↔ acceptable (normalize row).
Proof.
  unfold kept, acceptable.
  destruct (field_normalize row) as (-> & -> & ->).
  rewrite andb_true_iff, orb_true_iff, !first_non_empty_truthy. tauto.
Qed.

(** On rows that are objects nothing throws: the accepted set is the
    filtered image of the rows. *)
Lemma processImportedData_objects (rows : list JsObject) (w : World State) :
  processImportedData (JArr (JObj <$> rows)) w =
  (Normal (),
   {| ui := setImportLoading false
              (setImportedContacts
                 (filter (λ contact, kept contact) (normalize <$> rows)) (ui w));
      store := store w;
      sent := sent w |}).
Proof.
  unfold processImportedData, try_catch, try_catch_finally.
  rewrite !bind_lift, mapM_contactOf_objects. reflexivity.
Qed.

(** Whatever the item is, the callback throws or returns the canonical
    record of a row: of the item itself when it is an object, of the
    empty row when it is a string, a number, a boolean or an array. *)
Lemma contactOf_cases (item : JsValue) :
  (∃ e, contactOf item = Throw e)
  ∨ (∃ row, contactOf item = Normal (normalize row)).
Proof.
  destruct item as [| |b|x|s|items|row].
  - left. by eexists.
  - left. by eexists.
  - right. exists ∅. by rewrite <- (contactOf_object ∅).
  - right. exists ∅. by rewrite <- (contactOf_object ∅).
  - right. exists ∅. by rewrite <- (contactOf_object ∅).
  - right. exists ∅. by rewrite <- (contactOf_object ∅).
  - right. exists row. apply contactOf_object.
Qed.

Lemma mapM_contactOf_cases (items : list JsValue) :
  (∃ e, mapM contactOf items =@{Completion (list JsObject)} Throw e)
  ∨ (∃ rows : list JsObject,
        mapM contactOf items =@{Completion (list JsObject)}
        Normal (normalize <$> rows)).
Proof.
  induction items as [|item items IH].
  - right. by exists [].
  - cbn [mapM]. destruct (contactOf_cases item) as [[e ->]|[row ->]].
    + left. by exists e.
    + rewrite bind_Normal.
      destruct IH as [[e ->]|[rows ->]].
      * left. by exists e.
      * right. by exists (row :: rows).
Qed.

(** The preview after [processImportedData]: the cells are left as they
    were but for the error when something throws, and hold the filtered
    canonical records otherwise. *)
Lemma processImportedData_cases (data : JsValue) (w : World State) :
  importedContacts (ui (processImportedData data w).2) = importedContacts (ui w)
  ∨ ∃ rows,
      importedContacts (ui (processImportedData data w).2)
      = filter (λ contact, kept contact) (normalize <$> rows).
Proof.
  unfold processImportedData, try_catch, try_catch_finally.
  rewrite bind_lift.
  destruct data as [| |b|x|s|items|row]; try by left.
  rewrite bind_lift.
  destruct (mapM_contactOf_cases items) as [[e ->]|[rows ->]]; [by left|].
  right. by exists rows.
Qed.

(** C1: the accepted records are exactly the canonical records of the
    input rows that have a non-empty name and a non-empty email or phone;
    every other record is absent.  The row of a CSV line [Bob,] under the
    header [name,email] is not accepted.  Whatever is passed as data,
    rows or not, a preview of acceptable records stays one. *)
Theorem accepted_iff_name_and_channel (rows : list JsObject) (w : World State) :
  let accepted := importedContacts (ui (processImportedData (JArr (JObj <$> rows)) w).2) in
  (∀ contact, contact ∈ accepted → acceptable contact)
  ∧ (∀ contact, ¬ acceptable contact → contact ∉ accepted)
  ∧ (∀ contact,
        contact ∈ accepted ↔ contact ∈ normalize <$> rows ∧ acceptable contact)
  ∧ importedContacts (ui (processImportedData (JArr [JObj bob]) w).2) = []
  ∧ (∀ data,
        Forall acceptable (importedContacts (ui w)) →
        Forall acceptable (importedContacts (ui (processImportedData data w).2))).
Proof.
  cbv zeta. rewrite processImportedData_objects.
  cbn [snd ui importedContacts setImportLoading setImportedContacts].
  assert (Hiff : ∀ contact,
    contact ∈ filter (λ contact, kept contact) (normalize <$> rows)
    ↔ contact ∈ normalize <$> rows ∧ acceptable contact).
  { intros contact. rewrite list_elem_of_filter. split.
    - intros [Hkept Hin]. split; [done|].
      apply list_elem_of_fmap in Hin as (row & -> & _).
      apply kept_normalize. by apply Is_true_true.
    - intros [Hin Hok]. split; [|done].
      apply list_elem_of_fmap in Hin as (row & -> & _).
      apply Is_true_true. by apply kept_normalize. }
  split; [|split; [|split; [|split]]].
  - intros contact Hin. by apply Hiff in Hin as [_ ?].
  - intros contact Hno Hin. by apply Hiff in Hin as [_ ?].
  - exact Hiff.
  - change [JObj bob] with (JObj <$> [bob]).
    rewrite processImportedData_objects. reflexivity.
  - intros data Hbefore.
    destruct (processImportedData_cases data w) as [->|[rows' ->]]; [done|].
    apply Forall_forall. intros contact Hin.
    apply list_elem_of_filter in Hin as [Hkept Hin].
    apply list_elem_of_fmap in Hin as (row & -> & _).
    apply kept_normalize. by apply Is_true_true.
Qed.
End AcceptedSet.

Section Aliases.
Context `{Engine}.
Import ContactManagement.

(** In a row of strings, as the CSV and text parsers build them, the
    values the normalizer takes for present are the non-empty strings. *)
Lemma truthy_field_string (row : JsObject) (k : string) :
  (∀ key v, row !! key = Some v → ∃ s, v = JStr s) →
  truthy (field row k) = true ↔ ∃ s, row !! k = Some (JStr s) ∧ s ≠ "".
Proof.
  intros Hstrings. unfold field. destruct (row !! k) as [v|] eqn:Hk; simpl.
  - destruct (Hstrings k v Hk) as [s ->]. rewrite truthy_string. split.
    + intros Hs. by exists s.
    + by intros (s' & [= <-] & Hs).
  - split; [done|]. by intros (s & ? & _).
Qed.

(** C2: name, email and phone are resolved from their alias lists in
    order: the first alias with a non-empty value gives the field, the
    empty string is the default.  A value is empty as [||] has it: when
    it is missing, [null], [false], zero, [NaN] or the empty string; in a
    row of strings a value is taken exactly when it is a non-empty
    string.  A row whose only header is [EMAIL] gets the email of the row
    whose header is [email]. *)
Theorem aliases_resolve_in_order (row : JsObject) :
  (∃ contact,
      contactOf (JObj row) = Normal contact
      ∧ dom contact = {["name"; "email"; "phone"]}
      ∧ field contact "name" = first_non_empty row name_aliases
      ∧ field contact "email" = first_non_empty row email_aliases
      ∧ field contact "phone" = first_non_empty row phone_aliases)
  ∧ (∀ aliases v,
        first_non_empty row aliases = v ↔
          (∃ before alias after,
              aliases = before ++ alias :: after
              ∧ Forall (λ k, truthy (field row k) = false) before
              ∧ truthy (field row alias) = true
              ∧ v = field row alias)
          ∨ (Forall (λ k, truthy (field row k) = false) aliases ∧ v = JStr ""))
  ∧ (∀ k,
        truthy (field row k) = false ↔
          row !! k = None ∨ row !! k = Some JUndefined ∨ row !! k = Some JNull
          ∨ row !! k = Some (JBool false) ∨ row !! k = Some (JStr "")
          ∨ row !! k = Some (JNum S754_nan)
          ∨ ∃ sign, row !! k = Some (JNum (S754_zero sign)))
  ∧ ((∀ key v, row !! key = Some v → ∃ s, v = JStr s) →
     ∀ k, truthy (field row k) = true ↔ ∃ s, row !! k = Some (JStr s) ∧ s ≠ "")
  ∧ (∀ v, ∃ upper lower,
        contactOf (JObj {["EMAIL" := v]}) = Normal upper
        ∧ contactOf (JObj {["email" := v]}) = Normal lower
        ∧ field upper "email" = field lower "email"
        ∧ field lower "email" = if truthy v then v else JStr "").
Proof.
  split; [|split; [|split; [|split]]].
  - exists (normalize row). split; [apply contactOf_object|].
    split; [|apply field_normalize].
    unfold normalize. rewrite !dom_insert_L, dom_singleton_L. set_solver.
  - apply first_non_empty_spec.
  - intros k. rewrite falsy_values. unfold field.
    destruct (row !! k) as [v|]; simpl; [|by intuition].
    split.
    + intros [->|[->|[->|[->|[->|[sign ->]]]]]]; eauto 10.
    + intros [?|[[= ->]|[[= ->]|[[= ->]|[[= ->]|[[= ->]|[sign [= ->]]]]]]]];
        [done|eauto 10..].
  - intros Hstrings k. by apply truthy_field_string.
  - intros v. exists (normalize {["EMAIL" := v]}), (normalize {["email" := v]}).
    rewrite !contactOf_object. by repeat split.
Qed.
End Aliases.

(** ** Order of the accepted records *)

(** The elements that a filter keeps from the image of a list, by their
    positions in the list. *)
Lemma filter_fmap_positions {A B} (f : A → B) (P : B → Prop)
    `{∀ b, Decision (P b)} (l : list A) :
  ∃ positions : list nat,
    StronglySorted lt positions
    ∧ Forall2 (λ i b, ∃ a, l !! i = Some a ∧ b = f a ∧ P b)
              positions (filter P (f <$> l))
    ∧ (∀ i a, l !! i = Some a → P (f a) → i ∈ positions).
Proof.
  induction l as [|a l (positions & Hsorted & Hall & Hcomplete)].
  - exists []. repeat split; [constructor|constructor|]. by intros i a.
  - assert (Hshift : StronglySorted lt (S <$> positions)).
    { clear -Hsorted. induction Hsorted as [|i rest _ IH Hi]; simpl; constructor.
      - done.
      - apply Forall_fmap. eapply Forall_impl; [exact Hi|]. simpl. lia. }
    assert (Htail : Forall2 (λ i b, ∃ a', (a :: l) !! i = Some a' ∧ b = f a' ∧ P b)
                      (S <$> positions) (filter P (f <$> l))).
    { apply Forall2_fmap_l. eapply Forall2_impl; [exact Hall|]. by intros i b. }
    cbn [fmap list_fmap]. rewrite filter_cons.
    destruct (decide (P (f a))) as [Ha|Ha].
    + exists (0 :: (S <$> positions)). repeat split.
      * constructor; [done|]. apply Forall_fmap, Forall_true. simpl. lia.
      * constructor; [by exists a|done].
      * intros [|i] a' Hi Ha'; [left|right].
        apply list_elem_of_fmap. exists i. split; [done|]. by eapply Hcomplete.
    + exists (S <$> positions). repeat split; [done|done|].
      intros [|i] a' Hi Ha'; simplify_eq/=; [done|].
      apply list_elem_of_fmap. exists i. split; [done|]. by eapply Hcomplete.
Qed.

Section Order.
Context `{Engine} `{Platform} `{Supabase}.
Import ContactManagement.

(** C10: the accepted records keep the order of the rows: there are
    strictly increasing positions of input rows, one for each accepted
    record in order, such that the record is the canonical record of the
    row at its position; every row with an acceptable record is among
    them. *)
Theorem accepted_in_row_order (rows : list JsObject) (w : World State) :
  let accepted := importedContacts (ui (processImportedData (JArr (JObj <$> rows)) w).2) in
  ∃ positions : list nat,
    StronglySorted lt positions
    ∧ Forall2 (λ i contact,
                 ∃ row, rows !! i = Some row
                        ∧ contact = normalize row ∧ acceptable contact)
              positions accepted
    ∧ (∀ i row, rows !! i = Some row → acceptable (normalize row) → i ∈ positions).
Proof.
  cbv zeta. rewrite processImportedData_objects.
  cbn [snd ui importedContacts setImportLoading setImportedContacts].
  destruct (filter_fmap_positions normalize (λ contact, kept contact) rows)
    as (positions & Hsorted & Hall & Hcomplete).
  exists positions. split; [done|]. split.
  - eapply Forall2_impl; [exact Hall|].
    intros i contact (row & Hi & -> & Hkept).
    exists row. split; [done|]. split; [done|].
    apply kept_normalize. by apply Is_true_true.
  - intros i row Hi Hok. apply (Hcomplete i row Hi).
    apply Is_true_true. by apply kept_normalize.
Qed.
End Order.

(** ** Strings *)

Lemma split_not_nil (sep : ascii → bool) (s : string) : split sep s ≠ [].
Proof.
  destruct s as [|c s]; simpl; [done|].
  destruct (sep c); [done|]. by destruct (split sep s).
Qed.

Lemma blank_String (c : ascii) (s : string) :
  blank (String c s) = is_white c && blank s.
Proof. reflexivity. Qed.

Lemma trimStart_split (s : string) :
  ∃ l, s = l +:+ trimStart s ∧ blank l = true.
Proof.
  induction s as [|c s (l & Hs & Hl)]; simpl.
  - by exists "".
  - destruct (is_white c) eqn:Hc.
    + exists (String c l). split.
      * change (String c s = String c (l +:+ trimStart s)). by f_equal.
      * by rewrite blank_String, Hc, Hl.
    + by exists "".
Qed.

Lemma trimEnd_split (s : string) :
  ∃ r, s = trimEnd s +:+ r ∧ blank r = true.
Proof.
  induction s as [|c s (r & Hs & Hr)]; simpl.
  - by exists "".
  - destruct (trimEnd s) as [|d t] eqn:Ht.
    + destruct (is_white c) eqn:Hc.
      * exists (String c r). split.
        -- change (String c s = String c ("" +:+ r)). by f_equal.
        -- by rewrite blank_String, Hc, Hr.
      * exists r. split; [|done].
        change (String c s = String c ("" +:+ r)). by f_equal.
    + exists r. split; [|done].
      change (String c s = String c (String d t +:+ r)). by f_equal.
Qed.

Lemma trimEnd_idempotent (s : string) : trimEnd (trimEnd s) = trimEnd s.
Proof.
  induction s as [|c s IH]; simpl; [done|].
  destruct (trimEnd s) as [|d t] eqn:Ht.
  - destruct (is_white c) eqn:Hc; simpl; [done|]. by rewrite Hc.
  - simpl in *. by rewrite IH.
Qed.

Lemma trimStart_trim (s : string) : trimStart (trim s) = trim s.
Proof.
  unfold trim. induction s as [|c s IH]; simpl; [done|].
  destruct (is_white c) eqn:Hc; [exact IH|].
  cbn [trimEnd]. destruct (trimEnd s); rewrite ?Hc; cbn [trimStart]; by rewrite Hc.
Qed.

Lemma trimEnd_trim (s : string) : trimEnd (trim s) = trim s.
Proof. apply trimEnd_idempotent. Qed.

(** What [trim] removes is white space, and nothing white is left at
    either end. *)
Lemma trim_spec (s : string) :
  (∃ l r, s = l +:+ trim s +:+ r ∧ blank l = true ∧ blank r = true)
  ∧ trimStart (trim s) = trim s
  ∧ trimEnd (trim s) = trim s.
Proof.
  split; [|split; [apply trimStart_trim|apply trimEnd_trim]].
  destruct (trimStart_split s) as (l & Hl & Hblank_l).
  destruct (trimEnd_split (trimStart s)) as (r & Hr & Hblank_r).
  exists l, r. unfold trim. by rewrite <- Hr, <- Hl.
Qed.

Lemma trim_blank (s : string) : blank s = true → trim s = "".
Proof.
  unfold trim. intros Hs.
  assert (trimStart s = "") as ->; [|done].
  induction s as [|c s IH]; simpl; [done|].
  rewrite blank_String in Hs. apply andb_true_iff in Hs as [-> Hs]. by apply IH.
Qed.

Lemma split_blank (sep : ascii → bool) (s : string) :
  blank s = true → Forall (λ segment, blank segment = true) (split sep s).
Proof.
  induction s as [|c s IH]; simpl; intros Hs.
  - by repeat constructor.
  - rewrite blank_String in Hs. apply andb_true_iff in Hs as [Hc Hs].
    specialize (IH Hs). destruct (sep c); [by constructor|].
    destruct (split sep s) as [|segment segments].
    { constructor; [by rewrite blank_String, Hc|constructor]. }
    apply Forall_cons in IH as [Hsegment Hsegments]. constructor; [|done].
    by rewrite blank_String, Hc, Hsegment.
Qed.

Lemma split_without_separator (sep : ascii → bool) (s : string) :
  existsb sep (list_ascii_of_string s) = false → split sep s = [s].
Proof.
  induction s as [|c s IH]; [done|]. simpl.
  destruct (sep c); [done|]. simpl. intros Hs. by rewrite IH.
Qed.

Lemma split_with_separator (sep : ascii → bool) (s : string) :
  existsb sep (list_ascii_of_string s) = true →
  ∃ first second others, split sep s = first :: second :: others.
Proof.
  induction s as [|c s IH]; [done|]. simpl.
  destruct (sep c); simpl.
  - intros _. pose proof (split_not_nil sep s).
    destruct (split sep s) as [|second others]; [done|]. by eexists _, _, _.
  - intros Hs. destruct (IH Hs) as (first & second & others & ->).
    by eexists _, _, _.
Qed.

(** The last segment of a name split at its dots is its extension. *)
Lemma last_split_extension (name : string) :
  last (split is_dot name) = Some (extension name).
Proof.
  induction name as [|c rest IH]; [done|].
  cbn [split extension].
  destruct (existsb is_dot (list_ascii_of_string rest)) eqn:Hrest.
  - destruct (split_with_separator _ _ Hrest) as (first & second & others & Hsplit).
    rewrite Hsplit in *. destruct (is_dot c); by rewrite !last_cons_cons in *.
  - rewrite (split_without_separator _ _ Hrest). by destruct (is_dot c).
Qed.

(** ** Guards before the store is reached *)

Section Guards.
Context `{Engine} `{Platform} `{Supabase}.

(** C7: saving a contact whose email and phone are both empty ends with
    a validation message in the [error] cell; no request is sent, the
    store and every other cell stay as they were. *)
Theorem save_without_channel_is_rejected (user : option User.t)
    (w : World ContactManagement.State) :
  ContactManagement.contactEmail (ui w) = "" →
  ContactManagement.contactPhone (ui w) = "" →
  ∃ notice,
    ContactManagement.handleSaveContact user w =
      (Normal (),
       {| ui := ContactManagement.setError (Some notice) (ui w);
          store := store w;
          sent := sent w |})
    ∧ (notice = "Contact name is required"
       ∨ notice = "Either email or phone is required").
Proof.
  intros Hemail Hphone.
  unfold ContactManagement.handleSaveContact.
  unfold mbind at 1, Task_bind at 1, cells at 1.
  rewrite Hemail, Hphone. cbn [String.eqb andb].
  destruct (String.eqb (ContactManagement.contactName (ui w)) "").
  - exists "Contact name is required". by split; [|left].
  - exists "Either email or phone is required". by split; [|right].
Qed.
End Guards.

Section OwnAccount.
Context `{Supabase}.

Lemma is_own_id_self (actor : User.t) :
  UserManagement.is_own_id (Some actor) (User.id actor) = true.
Proof. unfold UserManagement.is_own_id. simpl. apply String.eqb_refl. Qed.

(** C8: both versions of the delete handler refuse the id of the
    signed-in user: the [error] cell gets the refusal, no request is
    sent, the person is not asked to confirm, and the store and the
    other cells stay as they were. *)
Theorem delete_own_account_is_rejected (actor : User.t)
    (window_confirm : string → bool) (id : string)
    (w : World UserManagement.State) :
  id = User.id actor →
  let rejected :=
    (Normal (),
     {| ui := UserManagement.setError
                (Some "You cannot delete your own account") (ui w);
        store := store w;
        sent := sent w |}) in
  UserManagement.handleDeleteUser (Some actor) window_confirm id w = rejected
  ∧ UserManagement.handleDeleteUser_profiles (Some actor) window_confirm id w
    = rejected.
Proof.
  intros ->. cbv zeta.
  unfold UserManagement.handleDeleteUser, UserManagement.handleDeleteUser_profiles.
  rewrite is_own_id_self. by split.
Qed.
End OwnAccount.

(** ** The bulk importer *)

Section Importer.
Context `{Engine} `{Platform} `{Supabase}.
Import ContactManagement.




End Importer.

(** ** The statistics of the dashboard *)

Lemma includes_elem_of (array : list string) (x : string) :
  includes array x ↔ x ∈ array.
Proof.
  unfold includes. rewrite Is_true_true, existsb_exists. split.
  - intros (y & Hy & Heq). apply String.eqb_eq in Heq as ->.
    by apply list_elem_of_In.
  - intros Hx. exists x. split; [by apply list_elem_of_In|apply String.eqb_refl].
Qed.

Lemma filter_includes (channel : string) (messages : list Message.t) :
  filter (λ msg, includes (Message.sent_via msg) channel) messages
  = filter (sent_through channel) messages.
Proof. apply list_filter_iff. intros msg. apply includes_elem_of. Qed.

#[local] Instance no_earlier_transitive time : Transitive (no_earlier time).
Proof. intros a b c. unfold no_earlier. lia. Qed.

Section Statistics.
Context `{Supabase}.
Import Dashboard.

(** C6 as amended: when none of the fetches of the dashboard fails (the
    count of the contacts, the messages and, for an administrator, the
    count of the users), the email and WhatsApp counts are the numbers
    of fetched messages whose [sent_via] contains the channel, the total
    is the number of fetched messages, and the recent messages are the
    first five of the answer to the request for the messages by send
    time, descending; when the store answers in that order they are the
    five latest messages, latest first. *)
Theorem dashboard_counts_and_recent (time : string → Z)
    (isAdmin shows_error : bool) (messages : list Message.t)
    (w : World State) :
  Counted.error (count_contacts (store w)) = None →
  select_messages (store w)
    = {| Response.data := Some messages; Response.error := None |} →
  (isAdmin = true → Counted.error (count_profiles (store w)) = None) →
  let w' := (fetchDashboardData isAdmin shows_error w).2 in
  emailsSent (stats (ui w')) = length (filter (sent_through "email") messages)
  ∧ whatsappSent (stats (ui w'))
    = length (filter (sent_through "whatsapp") messages)
  ∧ totalMessages (stats (ui w')) = length messages
  ∧ recentMessages (ui w') = take 5 messages
  ∧ messages_select_order_sent_at_descending ∈ sent w'
  ∧ (Sorted (no_earlier time) messages →
     Sorted (no_earlier time) (recentMessages (ui w'))
     ∧ ∀ recent older,
         recent ∈ recentMessages (ui w') → older ∈ drop 5 messages →
         no_earlier time recent older).
Proof.
  intros Hcontacts Hmessages Hprofiles. cbv zeta.
  assert (Hrun : ∃ users,
    fetchDashboardData isAdmin shows_error w =
    (Normal (),
     {| ui := setLoading false
          (setRecentMessages (take 5 messages)
             (setStats
                {| totalContacts := default 0 (Counted.count (count_contacts (store w)));
                   totalMessages := length messages;
                   emailsSent := length (filter (sent_through "email") messages);
                   whatsappSent := length (filter (sent_through "whatsapp") messages);
                   totalUsers := users |}
                (setLoading true (ui w))));
        store := store w;
        sent := sent w ++ contacts_select_count
                  :: messages_select_order_sent_at_descending
                  :: (if isAdmin then [profiles_select_count] else []) |})).
  { unfold fetchDashboardData, try_catch_finally.
    rewrite bind_set, bind_ask. cbn [ui store sent].
    rewrite Hcontacts, bind_throw_if_None, bind_ask. cbn [ui store sent].
    rewrite Hmessages. cbn [Response.error Response.data].
    rewrite bind_throw_if_None. cbn [fmap option_fmap option_map default].
    rewrite !filter_includes.
    destruct isAdmin.
    - exists (default 0 (Counted.count (count_profiles (store w)))).
      rewrite !bind_assoc, bind_ask. cbn [ui store sent].
      rewrite Hprofiles by done.
      rewrite bind_assoc, bind_throw_if_None, bind_mret, !bind_set.
      cbn [set ui store sent].
      by rewrite <- !app_assoc.
    - exists 0. rewrite bind_mret, !bind_set. cbn [set ui store sent].
      by rewrite <- !app_assoc. }
  destruct Hrun as [users ->].
  cbn [snd ui sent stats recentMessages setLoading setRecentMessages setStats
       emailsSent whatsappSent totalMessages].
  split; [done|]. split; [done|]. split; [done|]. split; [done|].
  split; [set_solver|].
  intros Hsorted. rewrite <- (take_drop 5 messages) in Hsorted.
  apply Sorted_StronglySorted in Hsorted; [|apply _]. split.
  - apply StronglySorted_app_1_l in Hsorted. by apply StronglySorted_Sorted.
  - intros recent older Hrecent Holder.
    by eapply StronglySorted_app_1_elem_of.
Qed.
End Statistics.

(** ** The delimited-text parser *)

Section Cells.
Variable cell : nat → string.

#[local] Abbreviation store_cell :=
  (λ (obj : JsObject) '(index, header), assign header (JStr (cell index)) obj).

(** Headers that come later do not touch the cell of a header that is
    not among them. *)
Lemma cells_other_headers (h : string) (entries : list (nat * string))
    (obj : JsObject) :
  (∀ index, (index, h) ∉ entries) →
  foldl store_cell obj entries !! h = obj !! h.
Proof.
  revert obj. induction entries as [|[index header] entries IH]; intros obj Hh.
  - done.
  - cbn [foldl]. rewrite IH by (intros i Hi; apply (Hh i); by right).
    unfold assign. destruct (String.eqb header "__proto__"); [done|].
    apply lookup_insert_ne. intros ->. apply (Hh index). by left.
Qed.

(** The last occurrence of a header gives its cell. *)
Lemma cells_last_header (h : string) (index : nat)
    (before after : list (nat * string)) (obj : JsObject) :
  h ≠ "__proto__" →
  (∀ index', (index', h) ∉ after) →
  foldl store_cell obj (before ++ (index, h) :: after) !! h
  = Some (JStr (cell index)).
Proof.
  intros Hproto Hafter. rewrite foldl_app. cbn [foldl].
  rewrite cells_other_headers by done.
  unfold assign.
  apply String.eqb_neq in Hproto as ->. apply lookup_insert_eq.
Qed.

(** Every property of the record is the cell of one of the headers. *)
Lemma cells_only_headers (entries : list (nat * string)) (obj : JsObject)
    (k : string) (v : JsValue) :
  foldl store_cell obj entries !! k = Some v →
  obj !! k = Some v ∨ ∃ index, (index, k) ∈ entries ∧ v = JStr (cell index).
Proof.
  revert obj. induction entries as [|[index header] entries IH]; intros obj.
  - by left.
  - cbn [foldl]. intros Hk. apply IH in Hk as [Hk|(i & Hi & ->)].
    + unfold assign in Hk.
      destruct (String.eqb header "__proto__"); [by left|].
      apply lookup_insert_Some in Hk as [[<- <-]|[_ Hk]]; [|by left].
      right. exists index. split; [by left|done].
    + right. exists i. split; [by right|done].
Qed.
End Cells.

Section TextFile.
Context `{Engine} `{Platform} `{Supabase}.
Import ContactManagement.

Lemma recordOf_header (headers : list string) (line : string) (j : nat)
    (h : string) :
  headers !! j = Some h →
  h ≠ "__proto__" →
  (∀ j', j < j' → headers !! j' ≠ Some h) →
  recordOf headers line !! h
  = Some (JStr (default "" (trim <$> split is_comma_or_tab line !! j))).
Proof.
  intros Hj Hproto Hlast. unfold recordOf.
  rewrite <- (take_drop_middle headers j h Hj), imap_app, imap_cons.
  assert (Hlen : length (take j headers) = j).
  { apply length_take_le. apply lookup_lt_Some in Hj. lia. }
  rewrite Hlen, Nat.add_0_r.
  apply (cells_last_header
           (λ index, default "" (trim <$> split is_comma_or_tab line !! index)));
    [done|].
  intros index' Hin. apply elem_of_lookup_imap in Hin as (n & h' & Heq & Hn).
  simplify_eq/=. rewrite lookup_drop in Hn. apply (Hlast (S j + n)); [lia|done].
Qed.

Lemma recordOf_trimmed (headers : list string) (line : string) (k : string)
    (v : JsValue) :
  recordOf headers line !! k = Some v →
  ∃ j, headers !! j = Some k
       ∧ v = JStr (default "" (trim <$> split is_comma_or_tab line !! j)).
Proof.
  intros Hk. unfold recordOf in Hk.
  apply (cells_only_headers
           (λ index, default "" (trim <$> split is_comma_or_tab line !! index)))
    in Hk as [Hk|(index & Hin & ->)]; [done|].
  apply elem_of_lookup_imap in Hin as (j & h & Heq & Hj). simplify_eq/=.
  by exists j.
Qed.

Lemma recordOf_blank (headers : list string) (line : string) (k : string)
    (v : JsValue) :
  blank line = true → recordOf headers line !! k = Some v → v = JStr "".
Proof.
  intros Hblank Hk. apply recordOf_trimmed in Hk as (j & _ & ->).
  destruct (split is_comma_or_tab line !! j) as [segment|] eqn:Hj; [|done].
  simpl. rewrite trim_blank; [done|].
  pose proof (split_blank is_comma_or_tab line Hblank) as Hall.
  rewrite Forall_lookup in Hall. by eapply Hall.
Qed.

Lemma first_match_empty (row : JsObject) (aliases : list string) :
  (∀ k v, row !! k = Some v → v = JStr "") →
  first_non_empty row aliases = JStr "".
Proof.
  intros Hrow. unfold first_non_empty.
  induction aliases as [|alias others IH]; [done|]. simpl.
  unfold field at 1. destruct (row !! alias) as [v|] eqn:Halias; [|done].
  by rewrite (Hrow _ _ Halias).
Qed.
End TextFile.

(** ** The format sniffer *)

Lemma bool_decide_Some_string (a b : string) :
  bool_decide (Some a = Some b) = String.eqb a b.
Proof.
  destruct (String.eqb a b) eqn:Hab.
  - apply String.eqb_eq in Hab as ->. by apply bool_decide_eq_true.
  - apply String.eqb_neq in Hab. apply bool_decide_eq_false. congruence.
Qed.

Section Sniffer.
Context `{Engine} `{Platform} `{Supabase}.
Import ContactManagement.

Lemma fileExtension_extension (file : File.t) :
  fileExtension file = Some (toLowerCase (extension (File.name file))).
Proof. unfold fileExtension. by rewrite last_split_extension. Qed.

Lemma onDrop_by_strategy (file : File.t) (w : World State) :
  onDrop [file] w = strategy_of file w.
Proof.
  unfold onDrop, strategy_of, sniff. cbn [lookup list_lookup].
  rewrite !bind_set. cbn [ui store sent]. fold (began w).
  rewrite fileExtension_extension.
  generalize (toLowerCase (extension (File.name file))). intros e.
  unfold onload. rewrite !bool_decide_Some_string.
  unfold includes. cbn [from_option id existsb]. rewrite orb_false_r.
  destruct (String.eqb e "csv") eqn:Hcsv.
  { cbn [orb]. by destruct (File.readAsText file). }
  destruct (String.eqb e "xlsx" || String.eqb e "xls") eqn:Hexcel.
  { apply orb_true_iff in Hexcel as [He|He]; apply String.eqb_eq in He as ->;
      cbn; by destruct (File.readAsBinaryString file). }
  destruct (String.eqb e "json") eqn:Hjson.
  { rewrite orb_true_r. by destruct (File.readAsText file). }
  destruct (String.eqb e "txt") eqn:Htxt.
  { cbn [orb]. by destruct (File.readAsText file). }
  reflexivity.
Qed.

(** C9: the parser of a dropped file is chosen by the lowercased text
    after the last dot of its name (the whole name when it has no dot):
    [csv], [xlsx]/[xls], [json] and [txt] run their parsers on what the
    reader delivers; for any other extension the read is not started,
    the unsupported-format message is shown, and the preview, the store
    and the requests stay as they were. *)
Theorem extension_selects_parser (file : File.t) (w : World State) :
  fileExtension file = Some (toLowerCase (extension (File.name file)))
  ∧ onDrop [file] w = strategy_of file w
  ∧ (sniff (File.name file) = unsupported_format →
     let w' := (onDrop [file] w).2 in
     importError (ui w') = Some unsupported
     ∧ importLoading (ui w') = false
     ∧ importedContacts (ui w') = importedContacts (ui w)
     ∧ contacts (ui w') = contacts (ui w)
     ∧ store w' = store w
     ∧ sent w' = sent w).
Proof.
  split; [apply fileExtension_extension|].
  split; [apply onDrop_by_strategy|].
  intros Hsniff. cbv zeta. rewrite onDrop_by_strategy.
  unfold strategy_of. rewrite Hsniff. by repeat split.
Qed.
End Sniffer.

Section Files.
Context `{Engine} `{Platform} `{Supabase}.
Import ContactManagement.

Lemma try_catch_processImportedData (rows : list JsObject) (w : World State) :
  try_catch (processImportedData (JArr (JObj <$> rows))) processing_failed w
  = processImportedData (JArr (JObj <$> rows)) w.
Proof.
  unfold try_catch at 1, try_catch_finally.
  by rewrite processImportedData_objects.
Qed.

(** X27: the text parser of the earlier version takes the first line,
    split at commas and tabs and trimmed, as headers, and builds one
    record for every remaining line, blank or not; each property of a
    record is the trimmed cell under one of the headers (the empty
    string when the line has no such cell), and each header other than
    [__proto__] has the cell under its last occurrence.  The record of a
    blank line is not accepted by the normalizer.  The file with the
    header [name,phone] and the line [Cy,12345] gives the one accepted
    record with name [Cy], empty email and phone [12345], with or
    without an empty line before the line of Cy. *)
Theorem text_parser_rows (text : string) (w : World State) :
  let lines := split is_newline text in
  let headers := trim <$> split is_comma_or_tab (default "" (lines !! 0)) in
  length (parseTxt text) = length (drop 1 lines)
  ∧ (∀ i line,
        drop 1 lines !! i = Some line →
        ∃ record,
          parseTxt text !! i = Some record
          ∧ (∀ j h,
                headers !! j = Some h → h ≠ "__proto__" →
                (∀ j', j < j' → headers !! j' ≠ Some h) →
                record !! h
                = Some (JStr (default ""
                                (trim <$> split is_comma_or_tab line !! j))))
          ∧ (∀ k v,
                record !! k = Some v →
                ∃ j, headers !! j = Some k
                     ∧ v = JStr (default ""
                                   (trim <$> split is_comma_or_tab line !! j)))
          ∧ (blank line = true →
             ∃ contact,
               contactOf (JObj record) = Normal contact
               ∧ kept contact = false))
  ∧ (∀ s,
        (∃ l r, s = l +:+ trim s +:+ r ∧ blank l = true ∧ blank r = true)
        ∧ trimStart (trim s) = trim s
        ∧ trimEnd (trim s) = trim s)
  ∧ importedContacts (ui (onDrop [text_file "contacts.txt" cy_txt] w).2)
    = [cy_contact]
  ∧ importedContacts (ui (onDrop [text_file "contacts.TXT" cy_gap_txt] w).2)
    = [cy_contact].
Proof.
  cbv zeta. unfold parseTxt. split; [|split; [|split; [|split]]].
  - apply length_fmap.
  - intros i line Hline.
    exists (recordOf (trim <$> split is_comma_or_tab
                        (default "" (split is_newline text !! 0))) line).
    split; [by rewrite list_lookup_fmap, Hline|].
    split; [intros j h; apply recordOf_header|].
    split; [intros k v; apply recordOf_trimmed|].
    intros Hblank. eexists. split; [apply contactOf_object|].
    unfold kept. destruct (field_normalize
      (recordOf (trim <$> split is_comma_or_tab
                   (default "" (split is_newline text !! 0))) line))
      as (-> & _ & _).
    rewrite first_match_empty; [done|].
    intros k v. by apply recordOf_blank.
  - apply trim_spec.
  - rewrite onDrop_by_strategy. unfold strategy_of.
    change (sniff (File.name (text_file "contacts.txt" cy_txt)))
      with delimited_text.
    cbn [File.readAsText text_file].
    rewrite try_catch_processImportedData, processImportedData_objects.
    reflexivity.
  - rewrite onDrop_by_strategy. unfold strategy_of.
    change (sniff (File.name (text_file "contacts.TXT" cy_gap_txt)))
      with delimited_text.
    cbn [File.readAsText text_file].
    rewrite try_catch_processImportedData, processImportedData_objects.
    reflexivity.
Qed.

(** C5: a file whose name has the extension [json] and whose text is
    the array with the one object of Ann gives exactly one accepted
    record: name [Ann], empty email, phone [+1555]; no error is shown. *)
Theorem json_file_with_ann (file : File.t) (w : World State) :
  sniff (File.name file) = json →
  File.readAsText file = Some ann_json →
  JSON_parse ann_json = Normal (JArr [JObj ann]) →
  let w' := (onDrop [file] w).2 in
  importedContacts (ui w') = [ann_contact]
  ∧ importError (ui w') = None
  ∧ importLoading (ui w') = false.
Proof.
  intros Hjson Htext Hparse. cbv zeta.
  rewrite onDrop_by_strategy. unfold strategy_of. rewrite Hjson, Htext.
  unfold try_catch, try_catch_finally, parseJson.
  rewrite bind_run. unfold lift at 1. rewrite Hparse.
  change [JObj ann] with (JObj <$> [ann]).
  rewrite processImportedData_objects. by repeat split.
Qed.
End Files.

(** * Further properties *)

(** ** Reading and saving contacts *)

Section MoreRunning.
Context `{Supabase}.

Lemma bind_submit {S A B} (r : Request) (run : Store → A * Store)
    (k : A → Task S B) (w : World S) :
  (submit r run ≫= k) w =
  k (run (store w)).1
    {| ui := ui w; store := (run (store w)).2; sent := sent w ++ [r] |}.
Proof.
  unfold mbind, Task_bind, submit. by destruct (run (store w)).
Qed.

Lemma bind_cells {S B} (k : S → Task S B) (w : World S) :
  (cells ≫= k) w = k (ui w) w.
Proof. reflexivity. Qed.
End MoreRunning.

Section Contacts.
Context `{Engine} `{Platform} `{Supabase}.
Import ContactManagement.

Lemma fetchContacts_run (w : World State) :
  fetchContacts w =
  (Normal (),
   {| ui := fetched w; store := store w;
      sent := sent w ++ [contacts_select_order_name] |}).
Proof.
  unfold fetchContacts, try_catch_finally, fetched.
  rewrite bind_set, bind_ask. cbn [ui store sent].
  destruct (Response.error (select_contacts (store w))) as [e|].
  - by rewrite bind_throw_if_Some.
  - by rewrite bind_throw_if_None.
Qed.

(** X1: reading the contacts sends one request and never changes the
    store; the list is replaced by the rows of the answer (by no rows
    when the answer has none), and on a failure the list is kept and the
    failure is shown; either way the loading flag ends cleared and an
    earlier message in the [error] cell is not cleared by a success. *)
Theorem fetchContacts_outcome (w : World State) :
  let w' := (fetchContacts w).2 in
  sent w' = sent w ++ [contacts_select_order_name]
  ∧ store w' = store w
  ∧ loading (ui w') = false
  ∧ (∀ e, Response.error (select_contacts (store w)) = Some e →
          contacts (ui w') = contacts (ui w)
          ∧ error (ui w') = Some ("Error fetching contacts: " +:+ message e))
  ∧ (Response.error (select_contacts (store w)) = None →
     contacts (ui w') = default [] (Response.data (select_contacts (store w)))
     ∧ error (ui w') = error (ui w)).
Proof.
  cbv zeta. rewrite fetchContacts_run. unfold fetched.
  split; [done|]. split; [done|]. split; [done|]. split.
  - by intros e ->.
  - by intros ->.
Qed.

Lemma valid_dec (s : State) :
  String.eqb (contactName s) "" = false
  ∧ String.eqb (contactEmail s) "" && String.eqb (contactPhone s) "" = false
  ↔ valid s.
Proof.
  unfold valid. rewrite andb_false_iff, !String.eqb_neq. tauto.
Qed.

Lemma get_editing_id (s : State) :
  truthy (editingContact s) = true →
  get (editingContact s) "id" = Normal (editing_id s).
Proof. unfold editing_id. by destruct (editingContact s). Qed.

(** A valid form: one request, then the answer of the store decides. *)
Lemma handleSaveContact_valid (user : option User.t) (w : World State) :
  valid (ui w) →
  handleSaveContact user w =
  let asked :=
    {| ui := setError None (setLoading true (ui w));
       store := (save_answer user w).2;
       sent := sent w ++ [save_request user (ui w)] |} in
  match (save_answer user w).1 with
  | Some e =>
      (Normal (),
       {| ui := setLoading false
            (setError
               (Some ("Failed to "
                      +:+ (if truthy (editingContact (ui w))
                           then "update" else "add")
                      +:+ " contact: " +:+ message e))
               (ui asked));
          store := store asked;
          sent := sent asked |})
  | None =>
      let saved :=
        {| ui := setOpenContactDialog false
             (setSuccess
                (Some ("Contact "
                       +:+ (if truthy (editingContact (ui w))
                            then "updated" else "added")
                       +:+ " successfully!"))
                (ui asked));
           store := store asked;
           sent := sent asked |} in
      (Normal (),
       {| ui := setLoading false (fetched saved);
          store := store asked;
          sent := sent asked ++ [contacts_select_order_name] |})
  end.
Proof.
  intros Hvalid. apply valid_dec in Hvalid as [Hname Hchannel].
  unfold handleSaveContact. rewrite bind_cells, Hname, Hchannel.
  unfold try_catch_finally, save_answer, save_request.
  rewrite !bind_set. fold (contactData user (ui w)).
  destruct (truthy (editingContact (ui w))) eqn:Hediting.
  - rewrite bind_assoc, bind_lift, get_editing_id by done.
    rewrite bind_submit. cbn [ui store sent].
    destruct (update_contact _ _ _) as [[e|] store']; cbn [fst snd].
    + by rewrite bind_throw_if_Some.
    + rewrite bind_throw_if_None, bind_set.
      unfold handleCloseContactDialog. rewrite bind_set.
      by rewrite fetchContacts_run.
  - rewrite bind_submit. cbn [ui store sent].
    destruct (insert_contacts _ _) as [[e|] store']; cbn [fst snd].
    + by rewrite bind_throw_if_Some.
    + rewrite bind_throw_if_None, bind_set.
      unfold handleCloseContactDialog. rewrite bind_set.
      by rewrite fetchContacts_run.
Qed.
End Contacts.

Section SavingContacts.
Context `{Engine} `{Platform} `{Supabase}.
Import ContactManagement.

Lemma or_null_spec (s : string) :
  (s = "" → or_null s = JNull) ∧ (s ≠ "" → or_null s = JStr s).
Proof.
  unfold or_null. split.
  - by intros ->.
  - intros Hs. by apply String.eqb_neq in Hs as ->.
Qed.

Lemma handleSaveContact_invalid (user : option User.t) (w : World State) :
  ¬ valid (ui w) →
  ∃ notice,
    handleSaveContact user w =
    (Normal (),
     {| ui := setError (Some notice) (ui w); store := store w; sent := sent w |}).
Proof.
  intros Hinvalid. unfold handleSaveContact. rewrite bind_cells.
  destruct (String.eqb (contactName (ui w)) "") eqn:Hname; [by eexists|].
  destruct (String.eqb (contactEmail (ui w)) ""
            && String.eqb (contactPhone (ui w)) "") eqn:Hchannel; [by eexists|].
  destruct Hinvalid. by apply valid_dec.
Qed.

Lemma handleSaveContact_sent (user : option User.t) (w : World State) :
  valid (ui w) →
  ∃ write reads,
    sent (handleSaveContact user w).2 = sent w ++ write :: reads
    ∧ (reads = [] ∨ reads = [contacts_select_order_name])
    ∧ (truthy (editingContact (ui w)) = false →
       write = contacts_insert (JObj (contactData user (ui w))))
    ∧ (truthy (editingContact (ui w)) = true →
       write = contacts_update_eq_id (JObj (contactData user (ui w)))
                 (editing_id (ui w))).
Proof.
  intros Hvalid. rewrite handleSaveContact_valid by done. cbv zeta.
  exists (save_request user (ui w)).
  destruct (save_answer user w).1 as [e|].
  - exists []. cbn [snd sent]. split; [done|]. split; [by left|].
    unfold save_request. split; by intros ->.
  - exists [contacts_select_order_name]. cbn [snd sent].
    split; [by rewrite <- app_assoc|]. split; [by right|].
    unfold save_request. split; by intros ->.
Qed.

(** X2: [handleSaveContact] writes to the store exactly when the name
    is not empty and the email or the phone is not empty.  Then it sends
    one write: an insert when no contact is being edited, an update of
    the edited contact (by its id) otherwise, followed at most by one
    reading of the contacts.  On any other form it sends nothing, leaves
    the store alone and shows a message. *)
Theorem save_contact_writes_iff_valid (user : option User.t)
    (w : World State) :
  let w' := (handleSaveContact user w).2 in
  (valid (ui w) →
   ∃ write reads,
     sent w' = sent w ++ write :: reads
     ∧ (reads = [] ∨ reads = [contacts_select_order_name])
     ∧ (truthy (editingContact (ui w)) = false →
        write = contacts_insert (JObj (contactData user (ui w))))
     ∧ (truthy (editingContact (ui w)) = true →
        write = contacts_update_eq_id (JObj (contactData user (ui w)))
                  (editing_id (ui w))))
  ∧ (¬ valid (ui w) →
     sent w' = sent w ∧ store w' = store w
     ∧ ∃ notice, error (ui w') = Some notice).
Proof.
  cbv zeta. split.
  - apply handleSaveContact_sent.
  - intros Hinvalid.
    destruct (handleSaveContact_invalid user w Hinvalid) as [notice ->].
    split; [done|]. split; [done|]. by exists notice.
Qed.

(** X3: the record that [handleSaveContact] sends has the name of the
    form, which is not empty; an empty email or phone is sent as [null]
    and never as an empty string, a filled one as it is; at least one of
    the two is not [null]; the owner is the id of the signed-in user. *)
Theorem saved_contact_record (user : option User.t) (w : World State) :
  valid (ui w) →
  ∃ data write reads,
    sent (handleSaveContact user w).2 = sent w ++ write :: reads
    ∧ (write = contacts_insert (JObj data)
       ∨ ∃ id, write = contacts_update_eq_id (JObj data) id)
    ∧ dom data = {["name"; "email"; "phone"; "created_by"]}
    ∧ field data "name" = JStr (contactName (ui w))
    ∧ field data "name" ≠ JStr ""
    ∧ field data "email"
      = (if decide (contactEmail (ui w) = "") then JNull
         else JStr (contactEmail (ui w)))
    ∧ field data "phone"
      = (if decide (contactPhone (ui w) = "") then JNull
         else JStr (contactPhone (ui w)))
    ∧ field data "email" ≠ JStr "" ∧ field data "phone" ≠ JStr ""
    ∧ (field data "email" ≠ JNull ∨ field data "phone" ≠ JNull)
    ∧ field data "created_by" = user_id user.
Proof.
  intros Hvalid.
  destruct (handleSaveContact_sent user w Hvalid)
    as (write & reads & Hsent & _ & Hinsert & Hupdate).
  exists (contactData user (ui w)), write, reads. split; [done|]. split.
  { destruct (truthy (editingContact (ui w))); [right|left]; eauto. }
  destruct Hvalid as [Hname Hchannel].
  assert (Hemail : field (contactData user (ui w)) "email"
                   = or_null (contactEmail (ui w))) by done.
  assert (Hphone : field (contactData user (ui w)) "phone"
                   = or_null (contactPhone (ui w))) by done.
  assert (Hn : field (contactData user (ui w)) "name"
               = JStr (contactName (ui w))) by done.
  rewrite Hemail, Hphone, Hn.
  destruct (or_null_spec (contactEmail (ui w))) as [Hempty_e Hfilled_e].
  destruct (or_null_spec (contactPhone (ui w))) as [Hempty_p Hfilled_p].
  split.
  { unfold contactData. rewrite !dom_insert_L, dom_singleton_L. set_solver. }
  split; [done|]. split; [congruence|].
  split; [by case_decide; [rewrite Hempty_e|rewrite Hfilled_e]|].
  split; [by case_decide; [rewrite Hempty_p|rewrite Hfilled_p]|].
  split.
  { destruct (decide (contactEmail (ui w) = "")) as [He|He];
      [by rewrite Hempty_e|rewrite Hfilled_e by done; congruence]. }
  split.
  { destruct (decide (contactPhone (ui w) = "")) as [Hp|Hp];
      [by rewrite Hempty_p|rewrite Hfilled_p by done; congruence]. }
  split; [|done].
  destruct Hchannel as [He|Hp];
    [left; by rewrite Hfilled_e|right; by rewrite Hfilled_p].
Qed.

(** X4: after a valid save, the answer of the store decides.  When the
    store refuses, its message is shown, the dialog stays as it was, no
    success is announced and the contacts are not read again; when it
    accepts, the success is announced, the dialog is closed and the
    contacts are read once.  The loading flag ends cleared either way. *)
Theorem save_contact_outcome (user : option User.t) (w : World State) :
  valid (ui w) →
  let w' := (handleSaveContact user w).2 in
  let verb := if truthy (editingContact (ui w)) then "update" else "add" in
  store w' = (save_answer user w).2
  ∧ loading (ui w') = false
  ∧ (∀ e, (save_answer user w).1 = Some e →
          error (ui w') = Some ("Failed to " +:+ verb +:+ " contact: "
                                +:+ message e)
          ∧ openContactDialog (ui w') = openContactDialog (ui w)
          ∧ success (ui w') = success (ui w)
          ∧ contacts (ui w') = contacts (ui w)
          ∧ sent w' = sent w ++ [save_request user (ui w)])
  ∧ ((save_answer user w).1 = None →
     success (ui w')
     = Some ("Contact "
             +:+ (if truthy (editingContact (ui w)) then "updated" else "added")
             +:+ " successfully!")
     ∧ openContactDialog (ui w') = false
     ∧ sent w' = sent w ++ [save_request user (ui w);
                            contacts_select_order_name]).
Proof.
  intros Hvalid. cbv zeta. rewrite handleSaveContact_valid by done. cbv zeta.
  destruct (save_answer user w) as [[e|] store']; cbn [fst snd].
  - split; [done|]. split; [done|]. split; [|done].
    by intros e' [= <-].
  - split; [done|]. split; [done|]. split; [done|]. intros _.
    unfold fetched. cbn [ui store sent].
    split.
    { destruct (Response.error (select_contacts store'));
        by destruct (truthy (editingContact (ui w))). }
    split; [by destruct (Response.error (select_contacts store'))|].
    by rewrite <- app_assoc.
Qed.
End SavingContacts.

(** ** The dialog and the deletion of a contact *)

Section Dialog.
Context `{Engine} `{Platform} `{Supabase}.
Import ContactManagement ContactDialog.

Lemma openEditContactDialog_run (contact : Contact.t) (w : World State) :
  openEditContactDialog contact w =
  (Normal (),
   {| ui := setOpenContactDialog true
        (setContactPhone (default "" (Contact.phone contact))
           (setContactEmail (default "" (Contact.email contact))
              (setContactName (Contact.name contact)
                 (setEditingContact (JObj (Contact.row contact)) (ui w)))));
      store := store w;
      sent := sent w |}).
Proof. reflexivity. Qed.

(** X5: a stored contact that is opened in the dialog and saved without
    a change is sent back as an update of that very row: the request
    names the id of the row and carries its name, email and phone as
    stored (a missing email or phone goes out as [null]); only the owner
    is replaced, by the id of the signed-in user.  This needs a row with
    a name and an email or a phone, none of them an empty string. *)
Theorem edit_and_save_unchanged (user : option User.t)
    (contact : Contact.t) (w : World State) :
  Contact.name contact ≠ "" →
  Contact.email contact ≠ Some "" →
  Contact.phone contact ≠ Some "" →
  Contact.email contact ≠ None ∨ Contact.phone contact ≠ None →
  let opened := (openEditContactDialog contact w).2 in
  ∃ data reads,
    sent (handleSaveContact user opened).2
    = sent w ++ contacts_update_eq_id (JObj data) (JStr (Contact.id contact))
               :: reads
    ∧ (reads = [] ∨ reads = [contacts_select_order_name])
    ∧ field data "name" = field (Contact.row contact) "name"
    ∧ field data "email" = field (Contact.row contact) "email"
    ∧ field data "phone" = field (Contact.row contact) "phone"
    ∧ field data "created_by" = user_id user.
Proof.
  intros Hname Hemail Hphone Hchannel. cbv zeta.
  assert (Hvalid : valid (ui (openEditContactDialog contact w).2)).
  { split; [done|]. cbn.
    destruct Hchannel as [He|Hp]; [left|right].
    - change (default "" (Contact.email contact) ≠ "").
      destruct (Contact.email contact) as [e|]; [|done]. simpl. by intros ->.
    - change (default "" (Contact.phone contact) ≠ "").
      destruct (Contact.phone contact) as [p|]; [|done]. simpl. by intros ->. }
  destruct (handleSaveContact_sent user
              (openEditContactDialog contact w).2 Hvalid)
    as (write & reads & Hsent & Hreads & _ & Hupdate).
  exists (contactData user (ui (openEditContactDialog contact w).2)), reads.
  rewrite Hsent, Hupdate by done. split; [done|]. split; [done|].
  assert (Hnull : ∀ v : option string,
            v ≠ Some "" → or_null (default "" v) = Contact.nullable v).
  { intros [s|] Hv; [|done]. cbn. apply or_null_spec. congruence. }
  split; [done|].
  split; [exact (Hnull _ Hemail)|]. split; [exact (Hnull _ Hphone)|done].
Qed.

(** X6: [handleDeleteContact] does nothing at all when the person
    declines; when the person confirms it sends exactly one delete, for
    that id, and reads the contacts again only when the store accepted
    the delete; a refusal of the store is shown and announces no
    success. *)
Theorem delete_contact_outcome (window_confirm : string → bool)
    (id : string) (w : World State) :
  let w' := (handleDeleteContact window_confirm id w).2 in
  let answer := delete_contact id (store w) in
  (window_confirm "Are you sure you want to delete this contact?" = false →
   w' = w)
  ∧ (window_confirm "Are you sure you want to delete this contact?" = true →
     store w' = answer.2
     ∧ loading (ui w') = false
     ∧ (∀ e, answer.1 = Some e →
             sent w' = sent w ++ [contacts_delete_eq_id id]
             ∧ error (ui w') = Some ("Failed to delete contact: " +:+ message e)
             ∧ success (ui w') = success (ui w)
             ∧ contacts (ui w') = contacts (ui w))
     ∧ (answer.1 = None →
        sent w' = sent w ++ [contacts_delete_eq_id id;
                             contacts_select_order_name]
        ∧ success (ui w') = Some "Contact deleted successfully!")).
Proof.
  cbv zeta. unfold handleDeleteContact. split.
  - intros ->. by destruct w.
  - intros ->. cbn [negb]. unfold try_catch_finally.
    rewrite bind_set, bind_submit. cbn [ui store sent].
    destruct (delete_contact id (store w)) as [[e|] store']; cbn [fst snd].
    + rewrite bind_throw_if_Some. split; [done|]. split; [done|].
      split; [|done]. by intros e' [= <-].
    + rewrite bind_throw_if_None, bind_set, fetchContacts_run.
      split; [done|]. split; [done|]. split; [done|]. intros _.
      unfold fetched. cbn [ui store sent snd]. split; [by rewrite <- app_assoc|].
      by destruct (Response.error (select_contacts store')).
Qed.
End Dialog.

(** ** The outcome of an import *)

Section ImportOutcome.
Context `{Engine} `{Platform} `{Supabase}.
Import ContactManagement.

(** X7: when the store refuses the batch of an import, the preview is
    kept for another attempt, the refusal is shown, the tab stays and the
    contacts are not read again; when it accepts, the preview is emptied,
    the number of imported contacts is announced, the contacts are read
    once and the list tab is shown.  The flag of the import ends cleared
    either way. *)
Theorem import_outcome (user : option User.t) (w : World State) :
  importedContacts (ui w) ≠ [] →
  let w' := (handleSaveImportedContacts user w).2 in
  let batch :=
    JArr (JObj <$> ((λ contact : JsObject, <["created_by" := user_id user]> contact)
                    <$> importedContacts (ui w))) in
  let answer := insert_contacts batch (store w) in
  store w' = answer.2
  ∧ importLoading (ui w') = false
  ∧ (∀ e, answer.1 = Some e →
          importedContacts (ui w') = importedContacts (ui w)
          ∧ importError (ui w') = Some ("Failed to import contacts: "
                                        +:+ message e)
          ∧ tabValue (ui w') = tabValue (ui w)
          ∧ success (ui w') = success (ui w)
          ∧ sent w' = sent w ++ [contacts_insert batch])
  ∧ (answer.1 = None →
     importedContacts (ui w') = []
     ∧ tabValue (ui w') = 0
     ∧ success (ui w')
       = Some ("Successfully imported "
               +:+ decimal (S (length (importedContacts (ui w))))
                           (length (importedContacts (ui w)))
               +:+ " contacts!")
     ∧ sent w' = sent w ++ [contacts_insert batch; contacts_select_order_name]).
Proof.
  intros Hpreview. cbv zeta. unfold handleSaveImportedContacts.
  rewrite bind_cells.
  destruct (importedContacts (ui w)) as [|first others] eqn:Hcells; [done|].
  cbn [length Nat.eqb]. unfold try_catch_finally.
  rewrite bind_set, bind_submit. cbn [ui store sent].
  destruct (insert_contacts _ (store w)) as [[e|] store']; cbn [fst snd].
  - rewrite bind_throw_if_Some. split; [done|]. split; [done|].
    split; [|done]. intros e' [= <-]. cbn. by rewrite Hcells.
  - rewrite bind_throw_if_None, !bind_set, bind_run, fetchContacts_run.
    split; [done|]. split; [done|]. split; [done|]. intros _.
    unfold fetched. cbn [set ui store sent snd].
    split; [by destruct (Response.error (select_contacts store'))|].
    split; [by destruct (Response.error (select_contacts store'))|].
    split; [by destruct (Response.error (select_contacts store'))|].
    by rewrite <- app_assoc.
Qed.
End ImportOutcome.

(** ** What a dropped file can do *)

Section Dropping.
Context `{Engine} `{Platform} `{Supabase}.
Import ContactManagement.

Lemma try_catch_run {S} (body : Task S unit) (handler : Exn → Task S unit)
    (w : World S) :
  try_catch body handler w =
  match body w with
  | (Normal _, w1) => (Normal (), w1)
  | (Throw e, w1) =>
      match handler e w1 with
      | (Normal _, w2) => (Normal (), w2)
      | (Throw e', w2) => (Throw e', w2)
      end
  end.
Proof.
  unfold try_catch, try_catch_finally.
  destruct (body w) as [[[]|e] w1]; [done|].
  by destruct (handler e w1) as [[[]|e'] w2].
Qed.

Lemma processImportedData_ended (data : JsValue) (w : World State) :
  import_ended w (processImportedData data w).
Proof.
  unfold processImportedData. rewrite try_catch_run, bind_lift.
  destruct data as [| |b|x|s|items|row];
    try (left; eexists; reflexivity).
  rewrite bind_lift.
  destruct (mapM_contactOf_cases items) as [[e ->]|[rows ->]].
  - left. by eexists.
  - right. by exists rows.
Qed.

Lemma try_catch_ended (body : Task State unit) (w : World State) :
  ((∃ e, body w = (Throw e, w)) ∨ import_ended w (body w)) →
  import_ended w (try_catch body processing_failed w).
Proof.
  rewrite try_catch_run. intros [[e ->]|[[msg ->]|[rows ->]]].
  - left. by eexists.
  - left. by eexists.
  - right. by eexists.
Qed.

Lemma parseCsv_ended (text : string) (w : World State) :
  (∃ e, parseCsv text w = (Throw e, w)) ∨ import_ended w (parseCsv text w).
Proof.
  unfold parseCsv. rewrite bind_lift.
  destruct (Papa_parse text) as [[data|e]|e].
  - right. apply processImportedData_ended.
  - right. left. by eexists.
  - left. by eexists.
Qed.

Lemma parseExcel_ended (binary : string) (w : World State) :
  (∃ e, parseExcel binary w = (Throw e, w))
  ∨ import_ended w (parseExcel binary w).
Proof.
  unfold parseExcel. rewrite bind_lift.
  destruct (XLSX_read binary) as [workbook|e]; [|left; by eexists].
  rewrite bind_lift.
  destruct (XLSX_utils_sheet_to_json _) as [data|e]; [|left; by eexists].
  right. apply processImportedData_ended.
Qed.

Lemma parseJson_ended (text : string) (w : World State) :
  (∃ e, parseJson text w = (Throw e, w)) ∨ import_ended w (parseJson text w).
Proof.
  unfold parseJson. rewrite bind_lift.
  destruct (JSON_parse text) as [data|e]; [|left; by eexists].
  right. apply processImportedData_ended.
Qed.

Lemma onDrop_first_file (file : File.t) (others : list File.t) :
  onDrop (file :: others) = onDrop [file].
Proof. reflexivity. Qed.

Lemma onDrop_ended (file : File.t) (w : World State) :
  import_ended (began w) (onDrop [file] w).
Proof.
  rewrite onDrop_by_strategy. unfold strategy_of.
  destruct (sniff (File.name file)).
  - destruct (File.readAsText file) as [text|]; [|left; by eexists].
    apply try_catch_ended, parseCsv_ended.
  - destruct (File.readAsBinaryString file) as [binary|]; [|left; by eexists].
    apply try_catch_ended, parseExcel_ended.
  - destruct (File.readAsText file) as [text|]; [|left; by eexists].
    apply try_catch_ended, parseJson_ended.
  - destruct (File.readAsText file) as [text|]; [|left; by eexists].
    apply try_catch_ended. right. apply processImportedData_ended.
  - left. by eexists.
Qed.

Lemma filter_kept_acceptable (rows : list JsObject) :
  Forall acceptable (filter (λ contact, kept contact) (normalize <$> rows)).
Proof.
  apply Forall_forall. intros contact Hin.
  apply list_elem_of_filter in Hin as [Hkept Hin].
  apply list_elem_of_fmap in Hin as (row & -> & _).
  apply kept_normalize. by apply Is_true_true.
Qed.

(** X8: whatever the files and whatever the libraries answer, a drop
    never reaches the store: no request is sent and the store is as it
    was; only the first file is read, and a drop without a file changes
    nothing.  A drop with a file ends with the flag of the import
    cleared, and either without an error and with a preview in which
    every record has a name and an email or a phone, or with an error and
    the preview as it was.  Only the three cells of the import change. *)
Theorem drop_outcome (acceptedFiles : list File.t) (w : World State) :
  let w' := (onDrop acceptedFiles w).2 in
  store w' = store w
  ∧ sent w' = sent w
  ∧ (acceptedFiles = [] → w' = w)
  ∧ (∀ file others, acceptedFiles = file :: others →
        onDrop acceptedFiles w = onDrop [file] w)
  ∧ (acceptedFiles ≠ [] →
     importLoading (ui w') = false
     ∧ ((importError (ui w') = None
         ∧ Forall acceptable (importedContacts (ui w')))
        ∨ (∃ msg, importError (ui w') = Some msg)
          ∧ importedContacts (ui w') = importedContacts (ui w)))
  ∧ (Forall acceptable (importedContacts (ui w)) →
     Forall acceptable (importedContacts (ui w')))
  ∧ ∃ preview flag notice,
      ui w' = setImportError notice
                (setImportLoading flag (setImportedContacts preview (ui w))).
Proof.
  cbv zeta. destruct acceptedFiles as [|file others].
  { change (onDrop [] w) with (Normal (), w). cbn [snd].
    split; [done|]. split; [done|]. split; [done|].
    split; [done|]. split; [done|]. split; [done|].
    exists (importedContacts (ui w)), (importLoading (ui w)),
           (importError (ui w)).
    by destruct (ui w). }
  rewrite onDrop_first_file.
  assert (Hfirst : ∀ file' others',
            file :: others = file' :: others' →
            onDrop [file] w = onDrop [file'] w) by (by intros ? ? [= <- <-]).
  destruct (onDrop_ended file w) as [[msg Hrun]|[rows Hrun]];
    rewrite Hrun in *; cbn [snd].
  - split; [done|]. split; [done|]. split; [done|]. split; [exact Hfirst|].
    split; [intros _; split; [done|right; split; [by eexists|done]]|].
    split; [done|].
    exists (importedContacts (ui w)), false, (Some msg).
    unfold import_failed, began. cbn [ui]. by destruct (ui w).
  - split; [done|]. split; [done|]. split; [done|]. split; [exact Hfirst|].
    split.
    { intros _. split; [done|]. left. split; [done|].
      apply filter_kept_acceptable. }
    split; [intros _; apply filter_kept_acceptable|].
    exists (filter (λ contact, kept contact) (normalize <$> rows)), false, None.
    unfold import_previewed, began. cbn [ui]. by destruct (ui w).
Qed.
End Dropping.

(** ** Text files and their blank lines *)

Lemma blank_app (l r : string) : blank (l +:+ r) = blank l && blank r.
Proof.
  induction l as [|c l IH]; [done|].
  change (blank (String c (l +:+ r)) = blank (String c l) && blank r).
  by rewrite !blank_String, IH, andb_assoc.
Qed.

Lemma trim_empty_iff (s : string) : trim s = "" ↔ blank s = true.
Proof.
  split; [|apply trim_blank].
  intros Hs. destruct (trim_spec s) as [(l & r & Heq & Hl & Hr) _].
  rewrite Hs in Heq. rewrite Heq, !blank_app, Hl, Hr. done.
Qed.

Lemma first_non_empty_falsy (row : JsObject) (aliases : list string) :
  Forall (λ k, truthy (field row k) = false) aliases →
  first_non_empty row aliases = JStr "".
Proof. intros Hall. apply first_non_empty_spec. by right. Qed.

Section BlankLines.
Context `{Engine} `{Platform} `{Supabase}.
Import ContactManagement.

(** A record without any of the aliases of a name is not accepted. *)
Lemma kept_without_name (row : JsObject) :
  Forall (λ k, row !! k = None) name_aliases → kept (normalize row) = false.
Proof.
  intros Hnone. unfold kept.
  destruct (field_normalize row) as (-> & _ & _).
  rewrite first_non_empty_falsy; [done|].
  eapply Forall_impl; [exact Hnone|]. intros k Hk. unfold field. by rewrite Hk.
Qed.

Lemma recordOf_blank_line (headers : list string) (line : string) :
  blank line = true → kept (normalize (recordOf headers line)) = false.
Proof.
  intros Hblank. unfold kept.
  destruct (field_normalize (recordOf headers line)) as (-> & _ & _).
  rewrite first_match_empty; [done|].
  intros k v. by apply recordOf_blank.
Qed.

Lemma recordOf_blank_headers (headers : list string) (line : string) :
  Forall (λ h, h = "") headers →
  kept (normalize (recordOf headers line)) = false.
Proof.
  intros Hheaders. apply kept_without_name.
  apply Forall_forall. intros k Hk.
  destruct (recordOf headers line !! k) as [v|] eqn:Hv; [|done].
  apply recordOf_trimmed in Hv as (j & Hj & _).
  rewrite Forall_lookup in Hheaders. specialize (Hheaders j k Hj). subst k.
  by repeat (apply elem_of_cons in Hk as [?|Hk]; [done|]);
    apply elem_of_nil in Hk.
Qed.

Lemma blank_headers (line : string) :
  blank line = true →
  Forall (λ h, h = "") (trim <$> split is_comma_or_tab line).
Proof.
  intros Hblank. apply Forall_fmap.
  eapply Forall_impl; [exact (split_blank is_comma_or_tab line Hblank)|].
  intros segment. apply trim_blank.
Qed.

Lemma filter_kept_nil (f : string → JsObject) (lines : list string) :
  (∀ line, kept (normalize (f line)) = false) →
  filter (λ contact, kept contact) (normalize <$> (f <$> lines)) = [].
Proof.
  intros Hnone. induction lines as [|line lines IH]; [done|].
  cbn [fmap list_fmap]. rewrite filter_cons_False; [exact IH|].
  rewrite Hnone. by intros [].
Qed.

(** X9: a text file whose first line is blank imports nothing: its
    headers are all empty, so no record has a name.  The preview ends
    empty and no error is shown. *)
Theorem text_file_with_blank_first_line (file : File.t) (text : string)
    (w : World State) :
  sniff (File.name file) = delimited_text →
  File.readAsText file = Some text →
  blank (default "" (split is_newline text !! 0)) = true →
  let w' := (onDrop [file] w).2 in
  importedContacts (ui w') = []
  ∧ importError (ui w') = None
  ∧ importLoading (ui w') = false.
Proof.
  intros Hsniff Htext Hblank. cbv zeta.
  rewrite onDrop_by_strategy. unfold strategy_of. rewrite Hsniff, Htext.
  rewrite try_catch_processImportedData, processImportedData_objects.
  cbn [snd ui importedContacts importError importLoading setImportLoading
       setImportedContacts began setImportError].
  split; [|done]. unfold parseTxt. apply filter_kept_nil. intros line.
  apply recordOf_blank_headers, blank_headers, Hblank.
Qed.
End BlankLines.

Section Later.
Context `{Engine} `{Platform} `{Supabase}.
Import ContactManagement.

Lemma filter_not_blank (lines : list string) :
  filter (λ line, trim line ≠ "") lines
  = filter (λ line, blank line = false) lines.
Proof.
  apply list_filter_iff. intros line. rewrite trim_empty_iff.
  by destruct (blank line).
Qed.

(** X10: the text parser of the later version leaves the blank lines out
    before anything else: the first line that is not blank gives the
    headers and every further line that is not blank gives one record,
    in order; a text without any such line makes the parser throw. *)
Theorem later_text_parser_rows (text : string) :
  let lines := filter (λ line, blank line = false) (split is_newline text) in
  match lines with
  | [] => ∃ e, ContactManagementLater.parseTxt text = Throw e
  | first :: others =>
      ContactManagementLater.parseTxt text
      = Normal (recordOf (trim <$> split is_comma_or_tab first) <$> others)
  end
  ∧ (∀ records,
        ContactManagementLater.parseTxt text = Normal records →
        S (length records) = length lines
        ∧ Forall2 (λ line record,
                     blank line = false
                     ∧ record = recordOf
                         (trim <$> split is_comma_or_tab
                                     (default "" (lines !! 0))) line)
                  (drop 1 lines) records).
Proof.
  cbv zeta. unfold ContactManagementLater.parseTxt. rewrite filter_not_blank.
  destruct (filter _ (split is_newline text)) as [|first others] eqn:Hlines.
  - split; [by eexists|]. by intros records.
  - cbn [lookup list_lookup drop]. split; [done|].
    intros records [= <-]. split; [by rewrite length_fmap|].
    apply Forall2_fmap_r, Forall_Forall2_diag, Forall_forall.
    intros line Hline. split; [|done].
    assert (Hin : line ∈ first :: others) by by right.
    rewrite <- Hlines in Hin. by apply list_elem_of_filter in Hin as [? _].
Qed.

Lemma filter_kept_skips_blank (headers : list string) (lines : list string) :
  filter (λ contact, kept contact)
    (normalize <$> (recordOf headers <$> filter (λ line, blank line = false) lines))
  = filter (λ contact, kept contact) (normalize <$> (recordOf headers <$> lines)).
Proof.
  induction lines as [|line lines IH]; [done|].
  rewrite filter_cons. destruct (decide (blank line = false)) as [Hline|Hline].
  - cbn [fmap list_fmap]. rewrite !filter_cons. by rewrite <- IH.
  - apply not_false_is_true in Hline.
    cbn [fmap list_fmap]. rewrite filter_cons_False; [exact IH|].
    rewrite recordOf_blank_line by done. by intros [].
Qed.

Lemma later_onload_other (ext : option string) (result : string)
    (w : World State) :
  ext ≠ Some "txt" →
  ContactManagementLater.onload ext result w = onload ext result w.
Proof.
  intros Hext. unfold ContactManagementLater.onload, onload.
  by rewrite (bool_decide_eq_false_2 (ext = Some "txt")).
Qed.

Lemma later_onload_text (result : string) (w : World State) :
  blank (default "" (split is_newline result !! 0)) = false →
  ContactManagementLater.onload (Some "txt") result w
  = onload (Some "txt") result w.
Proof.
  intros Hfirst. unfold ContactManagementLater.onload, onload.
  cbn [bool_decide decide_rel includes existsb default from_option id].
  change (try_catch
            (parsedData ← lift (ContactManagementLater.parseTxt result);
             processImportedData (JArr (JObj <$> parsedData)))
            processing_failed w
          = try_catch (processImportedData (JArr (JObj <$> parseTxt result)))
              processing_failed w).
  rewrite !try_catch_run, bind_lift.
  unfold ContactManagementLater.parseTxt, parseTxt. rewrite filter_not_blank.
  pose proof (split_not_nil is_newline result) as Hsplit.
  destruct (split is_newline result) as [|first others]; [done|].
  cbn [lookup list_lookup default from_option id drop] in *.
  rewrite filter_cons_True by done. cbn [lookup list_lookup drop].
  rewrite !processImportedData_objects.
  rewrite !drop_0. by rewrite filter_kept_skips_blank.
Qed.

(** X11: the later version of the component does with a dropped file
    exactly what the earlier one does, unless the file is a text file
    that begins with a blank line: for every other file the two versions
    end in the same world. *)
Theorem versions_agree_on_drop (file : File.t) (w : World State) :
  (sniff (File.name file) = delimited_text →
   ∀ text, File.readAsText file = Some text →
           blank (default "" (split is_newline text !! 0)) = false) →
  ContactManagementLater.onDrop [file] w = onDrop [file] w.
Proof.
  intros Htext. unfold ContactManagementLater.onDrop, onDrop.
  cbn [lookup list_lookup]. rewrite !bind_set.
  destruct (decide (fileExtension file = Some "txt")) as [Hext|Hext].
  - rewrite Hext. cbn [bool_decide decide_rel orb].
    assert (Hsniff : sniff (File.name file) = delimited_text).
    { rewrite fileExtension_extension in Hext. injection Hext as Hext.
      unfold sniff. by rewrite Hext. }
    destruct (File.readAsText file) as [text|] eqn:Hread; [|done].
    apply later_onload_text. by apply Htext.
  - destruct (bool_decide (fileExtension file = Some "csv")
              || bool_decide (fileExtension file = Some "txt")
              || bool_decide (fileExtension file = Some "json")).
    + destruct (File.readAsText file); [|done]. by apply later_onload_other.
    + destruct (includes ["xlsx"; "xls"] (default "" (fileExtension file)));
        [|done].
      destruct (File.readAsBinaryString file); [|done].
      by apply later_onload_other.
Qed.
End Later.

(** ** The form of the later version *)

Section LaterForm.
Context `{Engine} `{Platform} `{Supabase}.
Import ContactManagement.

Lemma eqb_trim_blank (s : string) : String.eqb (trim s) "" = blank s.
Proof.
  destruct (blank s) eqn:Hs.
  - apply String.eqb_eq. by apply trim_empty_iff.
  - apply String.eqb_neq. rewrite trim_empty_iff. by rewrite Hs.
Qed.

(** X12: the later version of [handleSaveContact] takes a field of
    white space for an empty field.  It writes to the store exactly when
    the name has a visible character and the email or the phone has one;
    the record it sends carries the trimmed name, the trimmed email and
    phone ([null] when nothing is left) and the id of the signed-in user.
    On any other form nothing is sent, the store is left alone and a
    message is shown. *)
Theorem later_save_contact (user : option User.t) (w : World State) :
  let w' := (ContactManagementLater.handleSaveContact user w).2 in
  let filled :=
    blank (contactName (ui w)) = false
    ∧ (blank (contactEmail (ui w)) = false
       ∨ blank (contactPhone (ui w)) = false) in
  (filled →
   ∃ data write reads,
     sent w' = sent w ++ write :: reads
     ∧ (reads = [] ∨ reads = [contacts_select_order_name])
     ∧ (truthy (editingContact (ui w)) = false →
        write = contacts_insert (JObj data))
     ∧ (truthy (editingContact (ui w)) = true →
        write = contacts_update_eq_id (JObj data) (editing_id (ui w)))
     ∧ field data "name" = JStr (trim (contactName (ui w)))
     ∧ field data "email"
       = (if blank (contactEmail (ui w)) then JNull
          else JStr (trim (contactEmail (ui w))))
     ∧ field data "phone"
       = (if blank (contactPhone (ui w)) then JNull
          else JStr (trim (contactPhone (ui w))))
     ∧ field data "created_by" = user_id user)
  ∧ (¬ filled →
     sent w' = sent w ∧ store w' = store w
     ∧ ∃ notice, error (ui w') = Some notice).
Proof.
  cbv zeta. unfold ContactManagementLater.handleSaveContact.
  rewrite bind_cells, !eqb_trim_blank. split.
  - intros [Hname Hchannel]. rewrite Hname.
    assert (blank (contactEmail (ui w)) && blank (contactPhone (ui w)) = false)
      as -> by (apply andb_false_iff; tauto).
    unfold try_catch_finally. rewrite !bind_set.
    eexists. 
    destruct (truthy (editingContact (ui w))) eqn:Hediting.
    + rewrite bind_assoc, bind_lift, get_editing_id by done.
      rewrite bind_submit. cbn [ui store sent].
      destruct (update_contact _ _ _) as [[e|] store']; cbn [fst snd].
      * rewrite bind_throw_if_Some. eexists _, [].
        split; [reflexivity|]. split; [by left|]. split; [done|].
        split; [reflexivity|]. unfold or_null. rewrite !eqb_trim_blank.
        by repeat split.
      * rewrite bind_throw_if_None, bind_set.
        unfold ContactManagementLater.handleCloseContactDialog.
        rewrite bind_assoc, !bind_set, fetchContacts_run.
        eexists _, [contacts_select_order_name]. cbn [snd sent].
        split; [by rewrite <- app_assoc|]. split; [by right|]. split; [done|].
        split; [reflexivity|]. unfold or_null. rewrite !eqb_trim_blank.
        by repeat split.
    + rewrite bind_submit. cbn [ui store sent].
      destruct (insert_contacts _ _) as [[e|] store']; cbn [fst snd].
      * rewrite bind_throw_if_Some. eexists _, [].
        split; [reflexivity|]. split; [by left|]. split; [reflexivity|].
        split; [done|]. unfold or_null. rewrite !eqb_trim_blank.
        by repeat split.
      * rewrite bind_throw_if_None, bind_set.
        unfold ContactManagementLater.handleCloseContactDialog.
        rewrite bind_assoc, !bind_set, fetchContacts_run.
        eexists _, [contacts_select_order_name]. cbn [snd sent].
        split; [by rewrite <- app_assoc|]. split; [by right|].
        split; [reflexivity|].
        split; [done|]. unfold or_null. rewrite !eqb_trim_blank.
        by repeat split.
  - intros Hempty.
    destruct (blank (contactName (ui w))) eqn:Hname; [by repeat split; eexists|].
    destruct (blank (contactEmail (ui w)) && blank (contactPhone (ui w)))
      eqn:Hchannel; [by repeat split; eexists|].
    destruct Hempty. split; [done|]. apply andb_false_iff in Hchannel. tauto.
Qed.
End LaterForm.

(** ** Access to the users *)

Section Users.
Context `{Supabase}.
Import UserManagement.

Lemma fetchUsers_run (w : World State) :
  fetchUsers w =
  (Normal (),
   {| ui := setLoading false
        match Response.error (select_profiles (store w)) with
        | Some e =>
            setError (Some ("Error fetching users: " +:+ message e))
                     (setLoading true (ui w))
        | None =>
            setUsers (default [] (Response.data (select_profiles (store w))))
                     (setLoading true (ui w))
        end;
      store := store w;
      sent := sent w ++ [profiles_select_order_created_at] |}).
Proof.
  unfold fetchUsers, try_catch_finally.
  rewrite bind_set, bind_ask. cbn [ui store sent].
  destruct (Response.error (select_profiles (store w))) as [e|].
  - by rewrite bind_throw_if_Some.
  - by rewrite bind_throw_if_None.
Qed.

(** X13: when the component mounts for someone who is not an
    administrator, no request is sent at all: the refusal is shown and
    the list of users stays as it was.  For an administrator exactly one
    request is sent, the reading of the profiles, and the list becomes
    the rows of the answer unless the store fails. *)
Theorem mount_reads_users_for_admin_only (isAdmin : bool) (w : World State) :
  let w' := (UserAccess.onMount isAdmin w).2 in
  store w' = store w
  ∧ (isAdmin = false →
     sent w' = sent w
     ∧ users (ui w') = users (ui w)
     ∧ error (ui w') = Some "You do not have permission to access this page")
  ∧ (isAdmin = true →
     sent w' = sent w ++ [profiles_select_order_created_at]
     ∧ loading (ui w') = false
     ∧ (Response.error (select_profiles (store w)) = None →
        users (ui w')
        = default [] (Response.data (select_profiles (store w))))
     ∧ (∀ e, Response.error (select_profiles (store w)) = Some e →
             users (ui w') = users (ui w)
             ∧ error (ui w') = Some ("Error fetching users: " +:+ message e))).
Proof.
  cbv zeta. unfold UserAccess.onMount. destruct isAdmin; cbn [negb].
  - rewrite fetchUsers_run. split; [done|]. split; [done|]. intros _.
    split; [done|]. split; [done|]. split; [by intros ->|by intros e ->].
  - by repeat split.
Qed.

(** X14: a request to delete another user does nothing at all when the
    person declines.  When the person confirms, the earlier version sends
    exactly one call of the admin API and the later one exactly one
    delete on the profiles, each for that id; the users are read again
    only when the store accepted, and a refusal of the store is shown
    without announcing a success. *)
Theorem delete_other_user_outcome (user : option User.t)
    (window_confirm : string → bool) (id : string) (w : World State) :
  is_own_id user id = false →
  let admin := (handleDeleteUser user window_confirm id w).2 in
  let profiles := (handleDeleteUser_profiles user window_confirm id w).2 in
  (window_confirm
     "Are you sure you want to delete this user? This action cannot be undone."
   = false → admin = w)
  ∧ (window_confirm "Are you sure you want to delete this user?" = false →
     profiles = w)
  ∧ (window_confirm
       "Are you sure you want to delete this user? This action cannot be undone."
     = true →
     store admin = (admin_deleteUser id (store w)).2
     ∧ loading (ui admin) = false
     ∧ (∀ e, (admin_deleteUser id (store w)).1 = Some e →
             sent admin = sent w ++ [auth_admin_deleteUser id]
             ∧ error (ui admin) = Some ("Failed to delete user: " +:+ message e)
             ∧ success (ui admin) = success (ui w))
     ∧ ((admin_deleteUser id (store w)).1 = None →
        sent admin = sent w ++ [auth_admin_deleteUser id;
                                profiles_select_order_created_at]
        ∧ success (ui admin) = Some "User deleted successfully!"))
  ∧ (window_confirm "Are you sure you want to delete this user?" = true →
     store profiles = (delete_profile id (store w)).2
     ∧ loading (ui profiles) = false
     ∧ (∀ e, (delete_profile id (store w)).1 = Some e →
             sent profiles = sent w ++ [profiles_delete_eq_id id]
             ∧ error (ui profiles)
               = Some ("Failed to delete user: " +:+ message e)
             ∧ success (ui profiles) = success (ui w))
     ∧ ((delete_profile id (store w)).1 = None →
        sent profiles = sent w ++ [profiles_delete_eq_id id;
                                   profiles_select_order_created_at]
        ∧ success (ui profiles) = Some "User deleted successfully!")).
Proof.
  intros Hother. cbv zeta.
  unfold handleDeleteUser, handleDeleteUser_profiles. rewrite Hother.
  split; [by intros ->; destruct w|]. split; [by intros ->; destruct w|].
  split.
  - intros ->. cbn [negb]. unfold try_catch_finally.
    rewrite bind_set, bind_submit. cbn [ui store sent].
    destruct (admin_deleteUser id (store w)) as [[e|] store']; cbn [fst snd].
    + rewrite bind_throw_if_Some. split; [done|]. split; [done|].
      split; [|done]. by intros e' [= <-].
    + rewrite bind_throw_if_None, bind_set, fetchUsers_run.
      split; [done|]. split; [done|]. split; [done|]. intros _.
      cbn [ui store sent snd]. split; [by rewrite <- app_assoc|].
      by destruct (Response.error (select_profiles store')).
  - intros ->. cbn [negb]. unfold try_catch_finally.
    rewrite bind_set, bind_submit. cbn [ui store sent].
    destruct (delete_profile id (store w)) as [[e|] store']; cbn [fst snd].
    + rewrite bind_throw_if_Some. split; [done|]. split; [done|].
      split; [|done]. by intros e' [= <-].
    + rewrite bind_throw_if_None, bind_set, fetchUsers_run.
      split; [done|]. split; [done|]. split; [done|]. intros _.
      cbn [ui store sent snd]. split; [by rewrite <- app_assoc|].
      by destruct (Response.error (select_profiles store')).
Qed.
End Users.

(** ** The dashboard when a fetch fails *)

Section DashboardFailures.
Context `{Supabase}.
Import Dashboard.

(** X15: the dashboard never writes to the store and always ends with
    the loading flag cleared.  Its fetches run in order (contacts,
    messages, and for an administrator the profiles) and stop at the
    first one that fails: the statistics and the recent messages are
    then left as they were, also when only the last fetch failed, and the
    failure is shown by the version that has an [error] cell.  For
    someone who is not an administrator the profiles are never asked for
    and the number of users is zero. *)
Theorem dashboard_stops_at_first_failure (isAdmin shows_error : bool)
    (w : World State) :
  let w' := (fetchDashboardData isAdmin shows_error w).2 in
  let unchanged (e : Exn) :=
    stats (ui w') = stats (ui w)
    ∧ recentMessages (ui w') = recentMessages (ui w)
    ∧ error (ui w')
      = (if shows_error
         then Some ("Error loading dashboard: " +:+ message e)
         else error (ui w)) in
  store w' = store w
  ∧ loading (ui w') = false
  ∧ (∀ e, Counted.error (count_contacts (store w)) = Some e →
          sent w' = sent w ++ [contacts_select_count] ∧ unchanged e)
  ∧ (Counted.error (count_contacts (store w)) = None →
     (∀ e, Response.error (select_messages (store w)) = Some e →
           sent w' = sent w ++ [contacts_select_count;
                                messages_select_order_sent_at_descending]
           ∧ unchanged e)
     ∧ (Response.error (select_messages (store w)) = None →
        (isAdmin = true →
         ∀ e, Counted.error (count_profiles (store w)) = Some e →
              sent w' = sent w ++ [contacts_select_count;
                                   messages_select_order_sent_at_descending;
                                   profiles_select_count]
              ∧ unchanged e)
        ∧ (isAdmin = false →
           sent w' = sent w ++ [contacts_select_count;
                                messages_select_order_sent_at_descending]
           ∧ totalUsers (stats (ui w')) = 0
           ∧ error (ui w') = error (ui w)))).
Proof.
  cbv zeta. unfold fetchDashboardData, try_catch_finally.
  rewrite bind_set, bind_ask. cbn [ui store sent].
  destruct (Counted.error (count_contacts (store w))) as [e|].
  { rewrite bind_throw_if_Some. destruct shows_error.
    - split; [done|]. split; [done|]. split; [|done]. by intros e' [= <-].
    - split; [done|]. split; [done|]. split; [|done]. by intros e' [= <-]. }
  rewrite bind_throw_if_None, bind_ask. cbn [ui store sent].
  destruct (Response.error (select_messages (store w))) as [e|].
  { rewrite bind_throw_if_Some. destruct shows_error.
    - split; [done|]. split; [done|]. split; [done|]. intros _. split; [|done].
      intros e' [= <-]. by rewrite <- app_assoc.
    - split; [done|]. split; [done|]. split; [done|]. intros _. split; [|done].
      intros e' [= <-]. by rewrite <- app_assoc. }
  rewrite bind_throw_if_None. destruct isAdmin.
  - rewrite bind_assoc, bind_ask. cbn [ui store sent].
    destruct (Counted.error (count_profiles (store w))) as [e|].
    + rewrite bind_assoc, bind_throw_if_Some. destruct shows_error.
      * split; [done|]. split; [done|]. split; [done|]. intros _.
        split; [done|]. intros _. split; [|done]. intros _ e' [= <-].
        by rewrite <- !app_assoc.
      * split; [done|]. split; [done|]. split; [done|]. intros _.
        split; [done|]. intros _. split; [|done]. intros _ e' [= <-].
        by rewrite <- !app_assoc.
    + rewrite bind_assoc, bind_throw_if_None, bind_mret, !bind_set.
      by repeat split.
  - rewrite bind_mret, !bind_set. cbn [set snd ui store sent].
    split; [done|]. split; [done|]. split; [done|]. intros _.
    split; [done|]. intros _. split; [done|]. intros _.
    by rewrite <- !app_assoc.
Qed.

End DashboardFailures.

(** ** The composer of messages *)

Section RunningJobs.
Context `{Supabase}.
Context {S : Type}.

Lemma job_bind_run {A B} (m : Job.t S A) (k : A → Job.t S B)
    (j : Job.Session S) :
  (m ≫= k) j = match m j with
               | (Normal a, j') => k a j'
               | (Throw e, j') => (Throw e, j')
               end.
Proof. done. Qed.

Lemma job_bind_read {B} (k : S → Job.t S B) (j : Job.Session S) :
  (Job.read ≫= k) j = k (Job.view j) j.
Proof. done. Qed.

Lemma job_bind_set {B} (f : S → S) (k : unit → Job.t S B)
    (j : Job.Session S) :
  (Job.set f ≫= k) j
  = k () (Job.Build_Session (f (Job.view j)) (Job.tables j) (Job.calls j)).
Proof. done. Qed.

Lemma job_bind_mret {A B} (a : A) (k : A → Job.t S B) (j : Job.Session S) :
  (mret a ≫= k) j = k a j.
Proof. done. Qed.

Lemma job_bind_lift {A B} (a : A) (k : A → Job.t S B) (j : Job.Session S) :
  (Job.lift (Normal a) ≫= k) j = k a j.
Proof. done. Qed.

Lemma job_bind_throw_if_None {B} (k : unit → Job.t S B) (j : Job.Session S) :
  (Job.throw_if None ≫= k) j = k () j.
Proof. done. Qed.

Lemma job_bind_throw_if_Some {B} (e : Exn) (k : unit → Job.t S B)
    (j : Job.Session S) :
  (Job.throw_if (Some e) ≫= k) j = (Throw e, j).
Proof. done. Qed.

Lemma job_bind_call {A B} (c : Call) (run : Store → A * Store)
    (k : A → Job.t S B) (j : Job.Session S) :
  (Job.call c run ≫= k) j
  = k (run (Job.tables j)).1
      (Job.Build_Session (Job.view j) (run (Job.tables j)).2
                         (Job.calls j ++ [c])).
Proof.
  unfold mbind, Job.bind, Job.call. by destruct (run (Job.tables j)).
Qed.

Lemma job_bind_earlier_ask {A B} (r : Request) (answer : Store → A)
    (k : A → Job.t S B) (j : Job.Session S) :
  (Job.earlier (ask r answer) ≫= k) j
  = k (answer (Job.tables j))
      (Job.Build_Session (Job.view j) (Job.tables j)
                         (Job.calls j ++ [request r])).
Proof. done. Qed.

Lemma job_bind_assoc {A B C} (m : Job.t S A) (k : A → Job.t S B)
    (k' : B → Job.t S C) (j : Job.Session S) :
  ((m ≫= k) ≫= k') j = (m ≫= λ a, k a ≫= k') j.
Proof.
  unfold mbind, Job.bind. by destruct (m j) as [[a|e] j'].
Qed.

Lemma job_try_catch_finally_run (body : Job.t S unit)
    (handler : Exn → Job.t S unit) (cleanup : Job.t S unit)
    (j : Job.Session S) :
  Job.try_catch_finally body handler cleanup j
  = match body j with
    | (Normal _, j1) => cleanup j1
    | (Throw e, j1) =>
        match handler e j1 with
        | (Normal _, j2) => cleanup j2
        | (Throw e', j2) =>
            match cleanup j2 with
            | (Normal _, j3) => (Throw e', j3)
            | thrown => thrown
            end
        end
    end.
Proof. done. Qed.
End RunningJobs.

Section Composer.
Context `{Supabase} `{!Accounts}.
Import MessagingInterface.

Lemma ready_dec (s : State) :
  ready s ↔
  String.eqb (trim (message s)) "" = false
  ∧ (length (selectedContacts s) =? 0)%nat = false
  ∧ (length (selectedChannels s) =? 0)%nat = false.
Proof.
  unfold ready. rewrite String.eqb_neq, !Nat.eqb_neq.
  by destruct (selectedContacts s), (selectedChannels s); intuition.
Qed.

Lemma handleSendMessage_ready (user : option User.t) (detailed : bool)
    (j : Job.Session State) :
  ready (Job.view j) →
  handleSendMessage user detailed j =
  let s := Job.view j in
  let answer := insert_message (JObj (outgoing user s)) (Job.tables j) in
  let log := Job.calls j ++ [messages_insert (JObj (outgoing user s))] in
  let began := setSuccess None (setError None (setLoading true s)) in
  (Normal (),
   match answer.1 with
   | Some (Build_Exn text) =>
       Job.Build_Session
         (setLoading false
            (setError (Some ("Failed to send message: " +:+ text)) began))
         answer.2 log
   | None =>
       Job.Build_Session
         (setLoading false
            (setSelectedChannels []
               (setSelectedContacts []
                  (setMessage ""
                     (setSuccess (Some
                        (if detailed then
                           "Message sent successfully to "
                           +:+ ContactManagement.decimal
                                 (Datatypes.S (length (selectedContacts s)))
                                 (length (selectedContacts s))
                           +:+ " contact(s) via "
                           +:+ join ", " (selectedChannels s) +:+ "!"
                         else "Message sent successfully!")) began)))))
         answer.2 log
   end).
Proof.
  intros (Hmessage & Hcontacts & Hchannels)%ready_dec.
  unfold handleSendMessage. rewrite job_bind_read.
  rewrite Hmessage, Hcontacts, Hchannels. cbv zeta.
  rewrite !job_bind_set. rewrite job_try_catch_finally_run.
  rewrite job_bind_call. cbn [Job.view Job.tables Job.calls].
  destruct (insert_message _ _) as [[[text]|] tables']; cbn [fst snd].
  - by rewrite job_bind_throw_if_Some.
  - rewrite job_bind_throw_if_None. by rewrite !job_bind_set.
Qed.

Lemma handleSendMessage_not_ready (user : option User.t) (detailed : bool)
    (j : Job.Session State) :
  ¬ ready (Job.view j) →
  ∃ notice,
    handleSendMessage user detailed j =
    (Normal (),
     Job.Build_Session (setError (Some notice) (Job.view j))
                       (Job.tables j) (Job.calls j)).
Proof.
  intros Hnot. unfold handleSendMessage. rewrite job_bind_read.
  destruct (String.eqb (trim (message (Job.view j))) "") eqn:Hmessage;
    [by eexists|].
  destruct (length (selectedContacts (Job.view j)) =? 0)%nat eqn:Hcontacts;
    [by eexists|].
  destruct (length (selectedChannels (Job.view j)) =? 0)%nat eqn:Hchannels;
    [by eexists|].
  destruct Hnot. by apply ready_dec.
Qed.

(** X17: [handleSendMessage] writes to the store exactly when the
    message is not blank, a contact is selected and a channel is
    selected.  Then it sends one insert into [messages], whose content
    is the message as typed, with its surrounding blanks.  On any other
    form it sends nothing, leaves the store and the form alone, shows a
    message, and a success announced earlier stays on the page. *)
Theorem send_message_writes_iff_ready (user : option User.t)
    (detailed : bool) (j : Job.Session State) :
  let j' := (handleSendMessage user detailed j).2 in
  (ready (Job.view j) →
   Job.calls j'
   = Job.calls j ++ [messages_insert (JObj (outgoing user (Job.view j)))]
   ∧ Job.tables j'
     = (insert_message (JObj (outgoing user (Job.view j))) (Job.tables j)).2
   ∧ field (outgoing user (Job.view j)) "content"
     = JStr (message (Job.view j)))
  ∧ (¬ ready (Job.view j) →
     Job.calls j' = Job.calls j ∧ Job.tables j' = Job.tables j
     ∧ (∃ notice, error (Job.view j') = Some notice)
     ∧ message (Job.view j') = message (Job.view j)
     ∧ selectedContacts (Job.view j') = selectedContacts (Job.view j)
     ∧ selectedChannels (Job.view j') = selectedChannels (Job.view j)
     ∧ loading (Job.view j') = loading (Job.view j)
     ∧ success (Job.view j') = success (Job.view j)).
Proof.
  cbv zeta. split.
  - intros Hready. rewrite handleSendMessage_ready by done. cbv zeta.
    assert (Hcontent : field (outgoing user (Job.view j)) "content"
                       = JStr (message (Job.view j))) by done.
    by destruct (insert_message _ _) as [[[text]|] tables'].
  - intros Hnot.
    destruct (handleSendMessage_not_ready user detailed j Hnot) as [notice ->].
    cbn [snd Job.view Job.calls Job.tables]. repeat split; try done.
    by exists notice.
Qed.

(** X18: after a send from a ready form, the answer of the store
    decides.  When the store refuses, its message is shown and the
    message, the contacts and the channels stay selected; when it
    accepts, the success is announced and the three are cleared.  The
    loading flag ends cleared and an earlier announcement is gone either
    way. *)
Theorem send_message_outcome (user : option User.t) (detailed : bool)
    (j : Job.Session State) :
  ready (Job.view j) →
  let s := Job.view j in
  let s' := Job.view (handleSendMessage user detailed j).2 in
  let answer := insert_message (JObj (outgoing user s)) (Job.tables j) in
  loading s' = false
  ∧ contacts s' = contacts s
  ∧ (∀ text, answer.1 = Some (Build_Exn text) →
          error s' = Some ("Failed to send message: " +:+ text)
          ∧ success s' = None
          ∧ message s' = message s
          ∧ selectedContacts s' = selectedContacts s
          ∧ selectedChannels s' = selectedChannels s)
  ∧ (answer.1 = None →
     error s' = None
     ∧ (∃ text, success s' = Some text)
     ∧ message s' = ""
     ∧ selectedContacts s' = []
     ∧ selectedChannels s' = []).
Proof.
  intros Hready. cbv zeta. rewrite handleSendMessage_ready by done. cbv zeta.
  destruct (insert_message _ _) as [[[text]|] tables']; cbn [fst snd Job.view].
  - split; [done|]. split; [done|]. split; [|done]. by intros text' [= <-].
  - split; [done|]. split; [done|]. split; [done|]. intros _.
    repeat split; try done. by eexists.
Qed.

(** X19: a message is not sent twice.  After an accepted send, a second
    [handleSendMessage] on the page as the first one left it sends
    nothing and asks for a message; after a refused send, it sends the
    same record again. *)
Theorem send_message_again (user : option User.t) (detailed : bool)
    (j : Job.Session State) :
  ready (Job.view j) →
  let record := JObj (outgoing user (Job.view j)) in
  let once := (handleSendMessage user detailed j).2 in
  let twice := (handleSendMessage user detailed once).2 in
  ((insert_message record (Job.tables j)).1 = None →
   Job.calls twice = Job.calls j ++ [messages_insert record]
   ∧ Job.tables twice = Job.tables once
   ∧ error (Job.view twice) = Some "Please enter a message")
  ∧ ((insert_message record (Job.tables j)).1 ≠ None →
     Job.calls twice
     = Job.calls j ++ [messages_insert record; messages_insert record]).
Proof.
  intros Hready. cbv zeta. rewrite (handleSendMessage_ready user detailed j)
    by done. cbv zeta.
  destruct (insert_message _ _) as [[[text]|] tables'] eqn:Hanswer;
    cbn [fst snd].
  - split; [done|]. intros _.
    rewrite handleSendMessage_ready.
    + cbv zeta. cbn [Job.view Job.tables Job.calls snd].
      rewrite <- app_assoc.
      by destruct (insert_message _ tables') as [[[text']|] tables''].
    + cbn [Job.view]. by destruct Hready.
  - split; [|done]. intros _. by destruct detailed.
Qed.

Lemma split_segment (sep : ascii → bool) (segment rest : string) (c : ascii) :
  existsb sep (list_ascii_of_string segment) = false → sep c = true →
  split sep (segment +:+ String c rest) = segment :: split sep rest.
Proof.
  intros Hsegment Hc.
  induction segment as [|c' segment IH]; simpl in *.
  - by rewrite Hc.
  - apply orb_false_iff in Hsegment as [-> Hsegment]. by rewrite IH.
Qed.

Lemma split_join (ids : list string) :
  ids ≠ [] → Forall comma_free ids → split is_comma (join "," ids) = ids.
Proof.
  intros Hids Hfree. induction Hfree as [|id ids Hid Hfree IH]; [done|].
  destruct ids as [|id' ids].
  - by apply split_without_separator.
  - change (join "," (id :: id' :: ids))
      with (id +:+ String "," (join "," (id' :: ids))).
    rewrite split_segment by done. by rewrite IH.
Qed.

(** X20: the value of a select may come as one text.  When it is the
    ids joined by commas, and no id contains a comma, [handleContactChange]
    and [handleChannelChange] select exactly these ids, as they do for
    the array of the ids.  Whatever the text is, the selection it leaves
    is not empty: the empty text selects the one id that is the empty
    string.  No request is sent. *)
Theorem change_selects_joined_ids (ids : list string)
    (j : Job.Session State) :
  ids ≠ [] → Forall comma_free ids →
  let of_text := (handleContactChange (inl (join "," ids)) j).2 in
  let of_array := (handleContactChange (inr ids) j).2 in
  selectedContacts (Job.view of_text) = ids
  ∧ of_text = of_array
  ∧ selectedChannels
      (Job.view (handleChannelChange (inl (join "," ids)) j).2) = ids
  ∧ Job.calls of_text = Job.calls j ∧ Job.tables of_text = Job.tables j
  ∧ (∀ text,
       selectedContacts (Job.view (handleContactChange (inl text) j).2) ≠ []
       ∧ selectedChannels (Job.view (handleChannelChange (inl text) j).2)
         ≠ [])
  ∧ selectedContacts (Job.view (handleContactChange (inl "") j).2) = [""].
Proof.
  intros Hids Hfree. cbv zeta.
  unfold handleContactChange, handleChannelChange, Job.set.
  cbn [snd Job.view Job.calls Job.tables selection].
  rewrite split_join by done.
  repeat split; try done; cbn; apply split_not_nil.
Qed.

(** X21: the composer reads its contacts with one request and changes
    nothing in the store.  When the store answers with rows, they become
    the contacts; when it answers with an error, the page stays exactly
    as it was: no message is shown. *)
Theorem composer_reads_contacts (j : Job.Session State) :
  let answer := select_contacts (Job.tables j) in
  let j' := (fetchContacts j).2 in
  (fetchContacts j).1 = Normal ()
  ∧ Job.calls j' = Job.calls j ++ [request contacts_select_order_name]
  ∧ Job.tables j' = Job.tables j
  ∧ (Response.error answer = None →
     Job.view j'
     = setContacts (default [] (Response.data answer)) (Job.view j))
  ∧ (Response.error answer ≠ None → Job.view j' = Job.view j).
Proof.
  cbv zeta. unfold fetchContacts. rewrite job_try_catch_finally_run.
  rewrite job_bind_earlier_ask.
  destruct (Response.error (select_contacts (Job.tables j))) as [e|].
  - by rewrite job_bind_throw_if_Some.
  - by rewrite job_bind_throw_if_None.
Qed.
End Composer.

(** ** The form of a user *)

Section Passwords.
Import UserForm.

Lemma length_append (a b : string) :
  String.length (a +:+ b) = String.length a + String.length b.
Proof. induction a as [|c a IH]; simpl; [done|]. by rewrite IH. Qed.

Lemma list_ascii_of_append (a b : string) :
  list_ascii_of_string (a +:+ b)
  = list_ascii_of_string a ++ list_ascii_of_string b.
Proof. induction a as [|c a IH]; simpl; [done|]. by rewrite IH. Qed.

Lemma get_elem_of (text : string) (index : nat) (c : ascii) :
  String.get index text = Some c → c ∈ list_ascii_of_string text.
Proof.
  revert index. induction text as [|c' text IH]; intros [|index]; simpl;
    try done.
  - intros [= ->]. by left.
  - intros Hget. right. by eapply IH.
Qed.

Lemma get_in_range (text : string) (index : nat) :
  (index < String.length text)%nat → ∃ c, String.get index text = Some c.
Proof.
  revert index. induction text as [|c' text IH]; intros [|index]; simpl;
    try lia.
  - by eexists.
  - intros Hindex. apply IH. lia.
Qed.

Lemma charAt_chars (text : string) (index : nat) :
  Forall (λ c, c ∈ list_ascii_of_string text)
         (list_ascii_of_string (charAt text index))
  ∧ (String.length (charAt text index) ≤ 1)%nat
  ∧ ((index < String.length text)%nat
     → String.length (charAt text index) = 1).
Proof.
  unfold charAt. destruct (String.get index text) as [c|] eqn:Hget; simpl.
  - split; [|lia]. repeat constructor. by eapply get_elem_of.
  - split; [done|]. split; [lia|]. intros Hindex.
    destruct (get_in_range text index Hindex) as [c Hc]. congruence.
Qed.

Lemma password_loop (draw : nat → nat) (turns : list nat) (begun : string) :
  let password :=
    foldl (λ password i, password +:+ charAt chars (draw i)) begun turns in
  (Forall (λ c, c ∈ list_ascii_of_string chars) (list_ascii_of_string begun) →
   Forall (λ c, c ∈ list_ascii_of_string chars)
          (list_ascii_of_string password))
  ∧ (String.length password ≤ String.length begun + length turns)%nat
  ∧ (Forall (λ i, (draw i < String.length chars)%nat) turns →
     String.length password = String.length begun + length turns).
Proof.
  cbv zeta. revert begun. induction turns as [|i turns IH]; intros begun.
  - simpl. split; [done|]. split; lia.
  - cbn [foldl length].
    destruct (IH (begun +:+ charAt chars (draw i))) as (Hchars & Hmost & Hall).
    destruct (charAt_chars chars (draw i)) as (Hone & Hshort & Hfull).
    rewrite length_append in Hmost, Hall. split; [|split].
    + intros Hbegun. apply Hchars. rewrite list_ascii_of_append.
      by apply Forall_app.
    + lia.
    + intros [Hi Hturns]%Forall_cons. rewrite Hall by done.
      rewrite Hfull by done. lia.
Qed.

(** X22: the password of [generateRandomPassword] has at most twelve
    characters, each of them one of the seventy-two of [chars]; it has
    exactly twelve when every number drawn is below seventy-two. *)
Theorem generated_password (draw : nat → nat) :
  let password := generateRandomPassword draw in
  Forall (λ c, c ∈ list_ascii_of_string chars) (list_ascii_of_string password)
  ∧ (String.length password ≤ 12)%nat
  ∧ String.length chars = 72
  ∧ ((∀ i, (i < 12)%nat → (draw i < 72)%nat) → String.length password = 12).
Proof.
  cbv zeta. unfold generateRandomPassword.
  destruct (password_loop draw (seq 0 12) "") as (Hchars & Hmost & Hall).
  split; [by apply Hchars|]. split; [exact Hmost|]. split; [done|].
  intros Hdraw. apply Hall. apply Forall_forall. intros i Hi.
  apply elem_of_seq in Hi. apply Hdraw. lia.
Qed.
End Passwords.

Section SavingUsers.
Context `{Engine} `{Supabase} `{!Accounts}.
Import UserManagement UserForm.

Lemma job_earlier_fetchUsers (j : Job.Session State) :
  Job.earlier fetchUsers j
  = (Normal (),
     Job.Build_Session
       (setLoading false
          match Response.error (select_profiles (Job.tables j)) with
          | Some e =>
              setError (Some ("Error fetching users: " +:+ message e))
                       (setLoading true (Job.view j))
          | None =>
              setUsers
                (default [] (Response.data (select_profiles (Job.tables j))))
                (setLoading true (Job.view j))
          end)
       (Job.tables j)
       (Job.calls j ++ [request profiles_select_order_created_at])).
Proof. unfold Job.earlier. by rewrite fetchUsers_run. Qed.

Lemma truthy_get (v : JsValue) (k : string) :
  truthy v = true → ∃ found, get v k = Normal found.
Proof. destruct v; simpl; try done; by eexists. Qed.

#[local] Abbreviation saving c run announce verb close :=
  (Job.try_catch_finally
     (Job.set (setLoading true);;
      Job.set (setError None);;
      (create_error ← Job.call c run;
       Job.throw_if create_error;;
       Job.set (setSuccess (Some announce)));;
      close;;
      Job.earlier fetchUsers)
     (λ e, Job.set (setError (Some
        ("Failed to " +:+ verb +:+ " user: " +:+ message e))))
     (Job.set (setLoading false))) (only parsing).

(** What is left of a save once its request [c] has been answered:
    [closed] are the cells after the dialog was closed. *)
Lemma save_user_run (c : Call) (run : Store → option Exn * Store)
    (announce verb : string) (close : Job.t State unit)
    (closed : State → State) (j : Job.Session State) :
  (∀ j', close j'
         = (Normal (),
            Job.Build_Session (closed (Job.view j')) (Job.tables j')
                              (Job.calls j'))) →
  saving c run announce verb close j
  = let began := setError None (setLoading true (Job.view j)) in
    let answer := run (Job.tables j) in
    (Normal (),
     match answer.1 with
     | Some e =>
         Job.Build_Session
           (setLoading false
              (setError (Some ("Failed to " +:+ verb +:+ " user: "
                               +:+ message e)) began))
           answer.2 (Job.calls j ++ [c])
     | None =>
         Job.Build_Session
           (setLoading false
              (setLoading false
                 match Response.error (select_profiles answer.2) with
                 | Some e =>
                     setError (Some ("Error fetching users: " +:+ message e))
                       (setLoading true
                          (closed (setSuccess (Some announce) began)))
                 | None =>
                     setUsers
                       (default [] (Response.data (select_profiles answer.2)))
                       (setLoading true
                          (closed (setSuccess (Some announce) began)))
                 end))
           answer.2
           (Job.calls j ++ [c; request profiles_select_order_created_at])
     end).
Proof.
  intros Hclose. cbv zeta. rewrite job_try_catch_finally_run.
  rewrite !job_bind_set. rewrite job_bind_assoc, job_bind_call.
  cbn [Job.view Job.tables Job.calls].
  destruct (run (Job.tables j)) as [[e|] tables']; cbn [fst snd].
  - by rewrite job_bind_assoc, job_bind_throw_if_Some.
  - rewrite job_bind_assoc, job_bind_throw_if_None, job_bind_set.
    rewrite job_bind_run, Hclose. cbn [Job.view Job.tables Job.calls].
    rewrite job_earlier_fetchUsers. cbn [Job.view Job.tables Job.calls].
    by rewrite <- app_assoc.
Qed.

Lemma trim_filled (text : string) : trim text ≠ "" → text ≠ "".
Proof. by intros Htrim ->. Qed.

Lemma handleSaveUser_editing (draw : nat → nat) (j : Job.Session State)
    (id : JsValue) :
  truthy (editingUser (Job.view j)) = true →
  trim (userEmail (Job.view j)) ≠ "" →
  get (editingUser (Job.view j)) "id" = Normal id →
  handleSaveUser draw j
  = saving (profiles_update_eq_id (JObj (role_of (Job.view j))) id)
           (update_profile (JObj (role_of (Job.view j))) id)
           "User updated successfully!" "update" handleCloseUserDialog j.
Proof.
  intros Hediting Hemail%String.eqb_neq Hid.
  unfold handleSaveUser. rewrite job_bind_read, Hemail, Hediting, Hid.
  reflexivity.
Qed.

Lemma handleSaveUser_later_editing (draw : nat → nat)
    (j : Job.Session State) (id : JsValue) :
  truthy (editingUser (Job.view j)) = true →
  userEmail (Job.view j) ≠ "" →
  get (editingUser (Job.view j)) "id" = Normal id →
  handleSaveUser_later draw j
  = saving (profiles_update_eq_id (JObj (role_of (Job.view j))) id)
           (update_profile (JObj (role_of (Job.view j))) id)
           "User updated successfully!" "update"
           handleCloseUserDialog_later j.
Proof.
  intros Hediting Hemail%String.eqb_neq Hid.
  unfold handleSaveUser_later. rewrite job_bind_read, Hemail, Hediting, Hid.
  reflexivity.
Qed.

(** X23: saving an edited user sends one update of the profile of that
    user, by its id, and the update carries the role alone: neither the
    email of the form nor its password cells are sent, and no account is
    created.  When the store refuses, its message is shown, the dialog
    stays as it was and the users are not read again; when it accepts,
    the success is announced, the dialog is closed and the users are
    read once.  The two versions of the form do the same. *)
Theorem save_edited_user (draw : nat → nat) (j : Job.Session State) :
  truthy (editingUser (Job.view j)) = true →
  trim (userEmail (Job.view j)) ≠ "" →
  let s := Job.view j in
  let j' := (handleSaveUser draw j).2 in
  ∃ id,
    get (editingUser s) "id" = Normal id
    ∧ dom (role_of s) = {["role"]}
    ∧ handleSaveUser_later draw j = handleSaveUser draw j
    ∧ Job.tables j' = (update_profile (JObj (role_of s)) id (Job.tables j)).2
    ∧ loading (Job.view j') = false
    ∧ (∀ e, (update_profile (JObj (role_of s)) id (Job.tables j)).1 = Some e →
            Job.calls j'
            = Job.calls j ++ [profiles_update_eq_id (JObj (role_of s)) id]
            ∧ error (Job.view j')
              = Some ("Failed to update user: " +:+ message e)
            ∧ openUserDialog (Job.view j') = openUserDialog s
            ∧ success (Job.view j') = success s
            ∧ users (Job.view j') = users s)
    ∧ ((update_profile (JObj (role_of s)) id (Job.tables j)).1 = None →
       Job.calls j'
       = Job.calls j ++ [profiles_update_eq_id (JObj (role_of s)) id;
                         request profiles_select_order_created_at]
       ∧ success (Job.view j') = Some "User updated successfully!"
       ∧ openUserDialog (Job.view j') = false).
Proof.
  intros Hediting Hemail. cbv zeta.
  destruct (truthy_get _ "id" Hediting) as [id Hid]. exists id.
  split; [done|]. split; [by unfold role_of; rewrite dom_singleton_L|].
  rewrite (handleSaveUser_editing draw j id) by done.
  rewrite (handleSaveUser_later_editing draw j id)
    by eauto using trim_filled.
  rewrite (save_user_run _ _ _ _ _ (setOpenUserDialog false)) by done.
  rewrite (save_user_run _ _ _ _ _
             (λ s, setError None (setOpenUserDialog false s))) by done.
  cbv zeta.
  destruct (update_profile _ _ _) as [[e|] tables']; cbn [fst snd].
  - split; [done|]. split; [done|]. split; [done|]. split; [|done].
    by intros e' [= <-].
  - split; [done|]. split; [done|].
    cbn [Job.view Job.calls].
    by destruct (Response.error (select_profiles tables')).
Qed.

Lemma handleSaveUser_creating (draw : nat → nat) (j : Job.Session State) :
  let s := Job.view j in
  let finalPassword :=
    if generatePassword s then generateRandomPassword draw
    else userPassword s in
  truthy (editingUser s) = false →
  trim (userEmail s) ≠ "" → finalPassword ≠ "" →
  handleSaveUser draw j
  = saving (auth_admin_createUser (JObj (new_user s finalPassword)))
           (admin_createUser (JObj (new_user s finalPassword)))
           ("User created successfully! "
            +:+ (if generatePassword s
                 then "Password: " +:+ finalPassword else ""))
           "create" handleCloseUserDialog j.
Proof.
  cbv zeta. intros Hcreating Hemail%String.eqb_neq Hpassword%String.eqb_neq.
  unfold handleSaveUser. rewrite job_bind_read, Hemail, Hcreating.
  cbn [negb andb]. rewrite Hpassword. reflexivity.
Qed.

(** X24: the form that calls the admin API creates an account exactly
    when the email is not blank and there is a password: the generated
    one when the box is ticked, whatever was typed, and the typed one
    otherwise.  Then one request creates the account with that password,
    and the announcement shows the password only when it was generated.
    On any other form nothing is sent and a message is shown. *)
Theorem create_user_iff_password (draw : nat → nat)
    (j : Job.Session State) :
  truthy (editingUser (Job.view j)) = false →
  let s := Job.view j in
  let finalPassword :=
    if generatePassword s then generateRandomPassword draw
    else userPassword s in
  let record := JObj (new_user s finalPassword) in
  let j' := (handleSaveUser draw j).2 in
  (trim (userEmail s) ≠ "" ∧ finalPassword ≠ "" →
   field (new_user s finalPassword) "password" = JStr finalPassword
   ∧ field (new_user s finalPassword) "email" = JStr (userEmail s)
   ∧ Job.tables j' = (admin_createUser record (Job.tables j)).2
   ∧ (∀ e, (admin_createUser record (Job.tables j)).1 = Some e →
           Job.calls j' = Job.calls j ++ [auth_admin_createUser record]
           ∧ error (Job.view j')
             = Some ("Failed to create user: " +:+ message e)
           ∧ openUserDialog (Job.view j') = openUserDialog s)
   ∧ ((admin_createUser record (Job.tables j)).1 = None →
      Job.calls j'
      = Job.calls j ++ [auth_admin_createUser record;
                        request profiles_select_order_created_at]
      ∧ success (Job.view j')
        = Some ("User created successfully! "
                +:+ (if generatePassword s
                     then "Password: " +:+ finalPassword else ""))
      ∧ openUserDialog (Job.view j') = false))
  ∧ (¬ (trim (userEmail s) ≠ "" ∧ finalPassword ≠ "") →
     Job.calls j' = Job.calls j ∧ Job.tables j' = Job.tables j
     ∧ (∃ notice,
          Job.view j' = setError (Some notice) s
          ∧ (trim (userEmail s) ≠ "" → notice = "Password is required"))).
Proof.
  intros Hcreating. cbv zeta. split.
  - intros [Hemail Hpassword].
    pose proof (handleSaveUser_creating draw j Hcreating Hemail Hpassword)
      as Hrun. cbv zeta in Hrun. rewrite Hrun.
    rewrite (save_user_run _ _ _ _ _
               (λ s, setError None (setOpenUserDialog false s))) by done.
    cbv zeta. split; [done|]. split; [done|].
    destruct (admin_createUser _ _) as [[e|] tables']; cbn [fst snd].
    + split; [done|]. split; [|done]. by intros e' [= <-].
    + split; [done|]. split; [done|]. intros _.
      cbn [Job.view Job.calls].
      by destruct (Response.error (select_profiles tables')).
  - intros Hnot. unfold handleSaveUser. rewrite job_bind_read, Hcreating.
    cbn [negb andb]. cbv zeta.
    set (finalPassword := if generatePassword (Job.view j) then _ else _) in *.
    destruct (String.eqb (trim (userEmail (Job.view j))) "") eqn:Hemail.
    { split; [done|]. split; [done|]. eexists. split; [done|].
      by apply String.eqb_eq in Hemail. }
    destruct (String.eqb finalPassword "") eqn:Hpassword.
    { split; [done|]. split; [done|]. by eexists. }
    destruct Hnot. by rewrite <- !String.eqb_neq.
Qed.

Lemma handleSaveUser_later_creating (draw : nat → nat)
    (j : Job.Session State) :
  let s := Job.view j in
  truthy (editingUser s) = false →
  userEmail s ≠ "" →
  generatePassword s = false ∨ userPassword s ≠ "" →
  handleSaveUser_later draw j
  = saving (auth_signUp (JObj (sign_up s))) (signUp (JObj (sign_up s)))
           ("User created successfully! "
            +:+ (if generatePassword s
                 then "Password: " +:+ userPassword s else ""))
           "create" handleCloseUserDialog_later j.
Proof.
  cbv zeta. intros Hcreating Hemail%String.eqb_neq Hpassword.
  unfold handleSaveUser_later. rewrite job_bind_read, Hemail, Hcreating.
  cbn [negb andb].
  assert (generatePassword (Job.view j)
          && String.eqb (userPassword (Job.view j)) "" = false) as ->.
  { destruct Hpassword as [->|Hfilled%String.eqb_neq]; [done|].
    rewrite Hfilled. by destruct (generatePassword _). }
  reflexivity.
Qed.

(** X25: the form that signs the user up generates the password on a
    first click and sends it on a second.  With the box ticked and no
    password typed, the first [handleSaveUser] sends nothing and only
    fills the password cell with the generated password; the next one
    draws nothing and signs the user up with exactly that password,
    which the announcement shows. *)
Theorem sign_up_in_two_clicks (draw again : nat → nat)
    (j : Job.Session State) :
  truthy (editingUser (Job.view j)) = false →
  userEmail (Job.view j) ≠ "" →
  generatePassword (Job.view j) = true →
  userPassword (Job.view j) = "" →
  generateRandomPassword draw ≠ "" →
  let s := Job.view j in
  let first := (handleSaveUser_later draw j).2 in
  let second := (handleSaveUser_later again first).2 in
  let record := JObj (sign_up (setUserPassword (generateRandomPassword draw) s)) in
  first = Job.Build_Session (setUserPassword (generateRandomPassword draw) s)
                            (Job.tables j) (Job.calls j)
  ∧ field (sign_up (Job.view first)) "password"
    = JStr (generateRandomPassword draw)
  ∧ Job.tables second = (signUp record (Job.tables j)).2
  ∧ (∀ e, (signUp record (Job.tables j)).1 = Some e →
          Job.calls second = Job.calls j ++ [auth_signUp record]
          ∧ error (Job.view second)
            = Some ("Failed to create user: " +:+ message e)
          ∧ userPassword (Job.view second) = generateRandomPassword draw)
  ∧ ((signUp record (Job.tables j)).1 = None →
     Job.calls second
     = Job.calls j ++ [auth_signUp record;
                       request profiles_select_order_created_at]
     ∧ success (Job.view second)
       = Some ("User created successfully! Password: "
               +:+ generateRandomPassword draw)
     ∧ openUserDialog (Job.view second) = false).
Proof.
  intros Hcreating Hemail Hticked Htyped Hgenerated. cbv zeta.
  assert (Hfirst : handleSaveUser_later draw j
          = (Normal (),
             Job.Build_Session
               (setUserPassword (generateRandomPassword draw) (Job.view j))
               (Job.tables j) (Job.calls j))).
  { unfold handleSaveUser_later. rewrite job_bind_read.
    apply String.eqb_neq in Hemail. rewrite Hemail, Hcreating, Hticked, Htyped.
    done. }
  rewrite Hfirst. cbn [snd]. split; [done|]. split; [done|].
  rewrite handleSaveUser_later_creating; cbn [Job.view]; try done.
  2: { by right. }
  rewrite (save_user_run _ _ _ _ _ (setOpenUserDialog false)) by done.
  cbv zeta. cbn [Job.view Job.tables Job.calls].
  destruct (signUp _ _) as [[e|] tables']; cbn [fst snd].
  - split; [done|]. split; [|done]. by intros e' [= <-].
  - split; [done|]. split; [done|]. intros _.
    cbn [Job.view Job.calls].
    assert (generatePassword
              (setUserPassword (generateRandomPassword draw) (Job.view j))
            = true) as -> by done.
    by destruct (Response.error (select_profiles tables')).
Qed.

(** X26: the two versions of the form disagree on a new user without a
    password.  With the box unticked and no password typed, the version
    that calls the admin API sends nothing and asks for a password; the
    version that signs the user up sends the sign-up with the empty
    password. *)
Theorem versions_differ_without_password (draw : nat → nat)
    (j : Job.Session State) :
  truthy (editingUser (Job.view j)) = false →
  trim (userEmail (Job.view j)) ≠ "" →
  generatePassword (Job.view j) = false →
  userPassword (Job.view j) = "" →
  let s := Job.view j in
  let admin := (handleSaveUser draw j).2 in
  let later := (handleSaveUser_later draw j).2 in
  Job.calls admin = Job.calls j
  ∧ Job.tables admin = Job.tables j
  ∧ error (Job.view admin) = Some "Password is required"
  ∧ field (sign_up s) "password" = JStr ""
  ∧ ∃ reads,
      Job.calls later = Job.calls j ++ auth_signUp (JObj (sign_up s)) :: reads
      ∧ Job.tables later = (signUp (JObj (sign_up s)) (Job.tables j)).2.
Proof.
  intros Hcreating Hemail Hunticked Htyped. cbv zeta.
  split; [|split; [|split; [|split]]].
  1-3: unfold handleSaveUser; rewrite job_bind_read, Hcreating, Hunticked,
         Htyped; apply String.eqb_neq in Hemail; by rewrite Hemail.
  { unfold sign_up. by rewrite Htyped. }
  rewrite handleSaveUser_later_creating; try done.
  2: { by apply trim_filled. }
  2: { by left. }
  rewrite (save_user_run _ _ _ _ _ (setOpenUserDialog false)) by done.
  cbv zeta. destruct (signUp _ _) as [[e|] tables']; cbn [fst snd].
  - by exists [].
  - by exists [request profiles_select_order_created_at].
Qed.
End SavingUsers.

(** ** The theorems at concrete inputs

    From here on the handlers run on the reference platform. *)

#[local] Existing Instances v8 json_only Memory.supabase Memory.not_before_dec.

Lemma save_without_channel_is_rejected_witness :
  let w := start name_only no_rows in
  (ContactManagement.contactEmail (ui w) = ""
   ∧ ContactManagement.contactPhone (ui w) = "")
  ∧ ∃ notice,
      ContactManagement.handleSaveContact (Some alice) w
      = (Normal (),
         {| ui := ContactManagement.setError (Some notice) (ui w);
            store := store w;
            sent := sent w |})
      ∧ (notice = "Contact name is required"
         ∨ notice = "Either email or phone is required").
Proof.
  split; [by split|].
  exact (save_without_channel_is_rejected
           (Some alice) (start name_only no_rows) eq_refl eq_refl).
Defined.

Lemma delete_own_account_is_rejected_witness :
  let w := start UserManagement.initial no_rows in
  "7d0c" = User.id alice
  ∧ UserManagement.handleDeleteUser (Some alice) (λ _, true) "7d0c" w
    = (Normal (),
       {| ui := UserManagement.setError
                  (Some "You cannot delete your own account") (ui w);
          store := store w;
          sent := sent w |}).
Proof.
  split; [done|].
  exact (proj1 (delete_own_account_is_rejected alice
                  (λ _, true) "7d0c" (start UserManagement.initial no_rows)
                  eq_refl)).
Defined.



Lemma dashboard_counts_and_recent_witness :
  let w := start Dashboard.initial seven_messages in
  let w' := (Dashboard.fetchDashboardData true false w).2 in
  Dashboard.emailsSent (Dashboard.stats (ui w')) = 4
  ∧ Dashboard.whatsappSent (Dashboard.stats (ui w')) = 3
  ∧ Dashboard.totalMessages (Dashboard.stats (ui w')) = 7
  ∧ Message.id <$> Dashboard.recentMessages (ui w')
    = ["m2"; "m4"; "m6"; "m7"; "m5"]
  ∧ Sorted (no_earlier Memory.instant) (Dashboard.recentMessages (ui w')).
Proof.
  cbv zeta.
  assert (Hsorted : Sorted (no_earlier Memory.instant)
            (merge_sort Memory.not_before (Memory.messages seven_messages))).
  { vm_compute merge_sort.
    repeat constructor; unfold no_earlier; vm_compute; discriminate. }
  destruct (dashboard_counts_and_recent Memory.instant true false
              (merge_sort Memory.not_before (Memory.messages seven_messages))
              (start Dashboard.initial seven_messages)
              eq_refl eq_refl (λ _, eq_refl))
    as (-> & -> & -> & Hrecent & _ & Horder).
  destruct (Horder Hsorted) as [Hfive _].
  split; [done|]. split; [done|]. split; [done|].
  split; [by rewrite Hrecent|exact Hfive].
Defined.

(** The reference decoder reads the text of the file as that array. *)
Lemma json_file_with_ann_witness :
  let file := text_file "contacts.json" ann_json in
  let w := start ContactManagement.initial no_rows in
  (sniff (File.name file) = json
   ∧ File.readAsText file = Some ann_json
   ∧ JSON_parse ann_json = Normal (JArr [JObj ann]))
  ∧ ContactManagement.importedContacts
      (ui (ContactManagement.onDrop [file] w).2)
    = [ann_contact].
Proof.
  split; [by repeat split|].
  exact (proj1 (json_file_with_ann
                  (text_file "contacts.json" ann_json)
                  (start ContactManagement.initial no_rows)
                  eq_refl eq_refl eq_refl)).
Defined.


(** For an administrator whose count of the users is refused, four
    fetched messages sent by email leave the email count, the total and
    the recent messages of the dashboard as they were. *)
Lemma dashboard_count_refused_counterexample :
  let w := @Build_World profiles_hidden _ Dashboard.initial four_emails [] in
  let w' := (Dashboard.fetchDashboardData true false w).2 in
  (∃ messages,
      select_messages (store w)
      = {| Response.data := Some messages; Response.error := None |}
      ∧ length messages = 4
      ∧ length (filter (sent_through "email") messages) = 4)
  ∧ sent w' = [contacts_select_count;
               messages_select_order_sent_at_descending;
               profiles_select_count]
  ∧ Dashboard.emailsSent (Dashboard.stats (ui w')) = 0
  ∧ Dashboard.totalMessages (Dashboard.stats (ui w')) = 0
  ∧ Dashboard.recentMessages (ui w') = [].
Proof.
  cbv zeta. split; [|by repeat split].
  eexists. split; [reflexivity|]. by split; vm_compute.
Qed.

(** ** The further properties at concrete inputs *)

#[local] Existing Instance accounts.

Lemma saved_contact_record_witness :
  let w := start dee_by_email no_rows in
  valid (ui w)
  ∧ ∃ data write reads,
      sent (ContactManagement.handleSaveContact (Some alice) w).2
      = sent w ++ write :: reads
      ∧ field data "name" = JStr "Dee"
      ∧ field data "email" = JStr "dee@example.org"
      ∧ field data "phone" = JNull
      ∧ field data "created_by" = JStr "7d0c".
Proof.
  assert (Hvalid : valid (ui (start dee_by_email no_rows))).
  { split; [discriminate|left; discriminate]. }
  split; [exact Hvalid|].
  destruct (saved_contact_record (Some alice) (start dee_by_email no_rows)
              Hvalid)
    as (data & write & reads & Hsent & _ & _ & Hname & _ & Hemail & Hphone
        & _ & _ & _ & Hby).
  exists data, write, reads. by repeat split.
Defined.

Lemma save_contact_outcome_witness :
  let w := start dee_by_email no_rows in
  let w' := (ContactManagement.handleSaveContact (Some alice) w).2 in
  valid (ui w)
  ∧ ContactManagement.loading (ui w') = false
  ∧ ContactManagement.success (ui w') = Some "Contact added successfully!"
  ∧ ContactManagement.openContactDialog (ui w') = false.
Proof.
  assert (Hvalid : valid (ui (start dee_by_email no_rows))).
  { split; [discriminate|left; discriminate]. }
  split; [exact Hvalid|].
  destruct (save_contact_outcome (Some alice) (start dee_by_email no_rows)
              Hvalid) as (_ & Hloading & _ & Haccepted).
  destruct (Haccepted eq_refl) as (Hsuccess & Hclosed & _).
  by repeat split.
Defined.

Lemma edit_and_save_unchanged_witness :
  let w := start ContactManagement.initial no_rows in
  let opened := (ContactDialog.openEditContactDialog cy_row w).2 in
  (Contact.name cy_row ≠ ""
   ∧ Contact.email cy_row ≠ Some ""
   ∧ Contact.phone cy_row ≠ Some ""
   ∧ (Contact.email cy_row ≠ None ∨ Contact.phone cy_row ≠ None))
  ∧ ∃ data reads,
      sent (ContactManagement.handleSaveContact (Some alice) opened).2
      = sent w ++ contacts_update_eq_id (JObj data) (JStr "c1") :: reads
      ∧ (reads = [] ∨ reads = [contacts_select_order_name])
      ∧ field data "name" = JStr "Cy"
      ∧ field data "email" = JNull
      ∧ field data "phone" = JStr "12345"
      ∧ field data "created_by" = JStr "7d0c".
Proof.
  split.
  { split; [discriminate|]. split; [discriminate|].
    split; [discriminate|right; discriminate]. }
  assert (H1 : Contact.name cy_row ≠ "") by discriminate.
  assert (H2 : Contact.email cy_row ≠ Some "") by discriminate.
  assert (H3 : Contact.phone cy_row ≠ Some "") by discriminate.
  assert (H4 : Contact.email cy_row ≠ None ∨ Contact.phone cy_row ≠ None)
    by (right; discriminate).
  pose proof (edit_and_save_unchanged (Some alice) cy_row
              (start ContactManagement.initial no_rows) H1 H2 H3 H4) as Hthm.
  cbv zeta in Hthm.
  destruct Hthm
    as (data & reads & Hsent & Hreads & Hname & Hemail & Hphone & Hby).
  exists data, reads.
  split; [exact Hsent|]. split; [exact Hreads|].
  split; [rewrite Hname; by vm_compute|].
  split; [rewrite Hemail; by vm_compute|].
  split; [rewrite Hphone; by vm_compute|exact Hby].
Defined.

Lemma import_outcome_witness :
  let w := start preview_of_ann no_rows in
  let w' := (ContactManagement.handleSaveImportedContacts (Some alice) w).2 in
  ContactManagement.importedContacts (ui w) ≠ []
  ∧ ContactManagement.importedContacts (ui w') = []
  ∧ ContactManagement.tabValue (ui w') = 0
  ∧ ContactManagement.success (ui w')
    = Some "Successfully imported 1 contacts!".
Proof.
  assert (Hpreview : ContactManagement.importedContacts
                       (ui (start preview_of_ann no_rows)) ≠ []).
  { discriminate. }
  split; [exact Hpreview|].
  destruct (import_outcome (Some alice) (start preview_of_ann no_rows)
              Hpreview) as (_ & _ & _ & Haccepted).
  destruct (Haccepted eq_refl) as (Hcleared & Htab & Hsuccess & _).
  by repeat split.
Defined.

Lemma text_file_with_blank_first_line_witness :
  let file := text_file "contacts.txt" gap_first_txt in
  let w := start ContactManagement.initial no_rows in
  let w' := (ContactManagement.onDrop [file] w).2 in
  (sniff (File.name file) = delimited_text
   ∧ File.readAsText file = Some gap_first_txt
   ∧ blank (default "" (split is_newline gap_first_txt !! 0)) = true)
  ∧ ContactManagement.importedContacts (ui w') = []
  ∧ ContactManagement.importError (ui w') = None
  ∧ ContactManagement.importLoading (ui w') = false.
Proof.
  split; [by repeat split|].
  exact (text_file_with_blank_first_line
           (text_file "contacts.txt" gap_first_txt) gap_first_txt
           (start ContactManagement.initial no_rows)
           eq_refl eq_refl eq_refl).
Defined.

Lemma versions_agree_on_drop_witness :
  let file := text_file "contacts.txt" cy_txt in
  let w := start ContactManagement.initial no_rows in
  blank (default "" (split is_newline cy_txt !! 0)) = false
  ∧ ContactManagementLater.onDrop [file] w
    = ContactManagement.onDrop [file] w.
Proof.
  split; [reflexivity|].
  apply (versions_agree_on_drop (text_file "contacts.txt" cy_txt)
           (start ContactManagement.initial no_rows)).
  intros _ text [= <-]. reflexivity.
Defined.

Lemma delete_other_user_outcome_witness :
  let w := start UserManagement.initial bob_only in
  let admin :=
    (UserManagement.handleDeleteUser (Some alice) (λ _, true) "b0b0" w).2 in
  UserManagement.is_own_id (Some alice) "b0b0" = false
  ∧ store admin = no_rows
  ∧ sent admin = [auth_admin_deleteUser "b0b0";
                  profiles_select_order_created_at]
  ∧ UserManagement.success (ui admin) = Some "User deleted successfully!".
Proof.
  split; [reflexivity|].
  destruct (delete_other_user_outcome (Some alice) (λ _, true) "b0b0"
              (start UserManagement.initial bob_only) eq_refl)
    as (_ & _ & Hadmin & _).
  destruct (Hadmin eq_refl) as (Hstore & _ & _ & Haccepted).
  destruct (Haccepted eq_refl) as (Hsent & Hsuccess).
  by repeat split.
Defined.


Lemma send_message_outcome_witness :
  let j := opening hello_to_cy no_rows in
  let s' :=
    Job.view (MessagingInterface.handleSendMessage (Some alice) true j).2 in
  ready (Job.view j)
  ∧ MessagingInterface.loading s' = false
  ∧ MessagingInterface.error s' = None
  ∧ MessagingInterface.message s' = ""
  ∧ MessagingInterface.selectedContacts s' = []
  ∧ MessagingInterface.selectedChannels s' = [].
Proof.
  assert (Hready : ready (Job.view (opening hello_to_cy no_rows))).
  { by repeat split. }
  split; [exact Hready|].
  destruct (send_message_outcome (Some alice) true
              (opening hello_to_cy no_rows) Hready)
    as (Hloading & _ & _ & Haccepted).
  destruct (Haccepted eq_refl) as (Herror & _ & Hmessage & Hcontacts & Hchannels).
  by repeat split.
Defined.

Lemma send_message_again_witness :
  let j := opening hello_to_cy no_rows in
  let once := (MessagingInterface.handleSendMessage (Some alice) true j).2 in
  let twice :=
    (MessagingInterface.handleSendMessage (Some alice) true once).2 in
  ready (Job.view j)
  ∧ Job.calls twice
    = [messages_insert
         (JObj (MessagingInterface.outgoing (Some alice) hello_to_cy))]
  ∧ MessagingInterface.error (Job.view twice) = Some "Please enter a message".
Proof.
  assert (Hready : ready (Job.view (opening hello_to_cy no_rows))).
  { by repeat split. }
  split; [exact Hready|].
  destruct (send_message_again (Some alice) true
              (opening hello_to_cy no_rows) Hready) as [Haccepted _].
  destruct (Haccepted eq_refl) as (Hcalls & _ & Herror).
  by split.
Defined.

Lemma change_selects_joined_ids_witness :
  let j := opening MessagingInterface.initial no_rows in
  (["c1"; "c2"] ≠ [] ∧ Forall comma_free ["c1"; "c2"])
  ∧ join "," ["c1"; "c2"] = "c1,c2"
  ∧ MessagingInterface.selectedContacts
      (Job.view (MessagingInterface.handleContactChange (inl "c1,c2") j).2)
    = ["c1"; "c2"].
Proof.
  assert (Hfree : Forall comma_free ["c1"; "c2"]).
  { by repeat constructor. }
  split; [by split|]. split; [reflexivity|].
  exact (proj1 (change_selects_joined_ids ["c1"; "c2"]
                  (opening MessagingInterface.initial no_rows)
                  ltac:(discriminate) Hfree)).
Defined.

Lemma save_edited_user_witness :
  let j := opening bob_promoted bob_only in
  let j' := (UserForm.handleSaveUser zeros j).2 in
  (truthy (UserManagement.editingUser (Job.view j)) = true
   ∧ trim (UserManagement.userEmail (Job.view j)) ≠ "")
  ∧ ∃ id,
      get (UserManagement.editingUser (Job.view j)) "id" = Normal id
      ∧ UserForm.handleSaveUser_later zeros j = UserForm.handleSaveUser zeros j
      ∧ UserManagement.loading (Job.view j') = false.
Proof.
  split; [by split|].
  destruct (save_edited_user zeros (opening bob_promoted bob_only)
              eq_refl ltac:(discriminate))
    as (id & Hid & _ & Hsame & _ & Hloading & _).
  exists id. by repeat split.
Defined.

Lemma create_user_iff_password_witness :
  let j := opening carol_new no_rows in
  let j' := (UserForm.handleSaveUser zeros j).2 in
  truthy (UserManagement.editingUser (Job.view j)) = false
  ∧ UserForm.generateRandomPassword zeros = "AAAAAAAAAAAA"
  ∧ Job.calls j'
    = [auth_admin_createUser
         (JObj (UserForm.new_user carol_new "AAAAAAAAAAAA"))]
  ∧ UserManagement.error (Job.view j')
    = Some "Failed to create user: User not allowed".
Proof.
  split; [reflexivity|]. split; [reflexivity|].
  destruct (create_user_iff_password zeros (opening carol_new no_rows)
              eq_refl) as [Hsent _].
  destruct (Hsent ltac:(by split)) as (_ & _ & _ & Hrefused & _).
  destruct (Hrefused {| message := "User not allowed" |} eq_refl)
    as (Hcalls & Herror & _).
  by split.
Defined.

Lemma sign_up_in_two_clicks_witness :
  let j := opening carol_new no_rows in
  let first := (UserForm.handleSaveUser_later zeros j).2 in
  let second := (UserForm.handleSaveUser_later zeros first).2 in
  (truthy (UserManagement.editingUser (Job.view j)) = false
   ∧ UserManagement.userEmail (Job.view j) ≠ ""
   ∧ UserManagement.generatePassword (Job.view j) = true
   ∧ UserManagement.userPassword (Job.view j) = ""
   ∧ UserForm.generateRandomPassword zeros ≠ "")
  ∧ Job.calls first = []
  ∧ UserManagement.userPassword (Job.view first) = "AAAAAAAAAAAA"
  ∧ UserManagement.success (Job.view second)
    = Some "User created successfully! Password: AAAAAAAAAAAA"
  ∧ UserManagement.openUserDialog (Job.view second) = false.
Proof.
  split; [by repeat split|].
  destruct (sign_up_in_two_clicks zeros zeros (opening carol_new no_rows)
              eq_refl ltac:(discriminate) eq_refl eq_refl
              ltac:(discriminate))
    as (Hfirst & _ & _ & _ & Haccepted).
  destruct (Haccepted eq_refl) as (_ & Hsuccess & Hclosed).
  split; [by rewrite Hfirst|]. split; [by rewrite Hfirst|].
  by split.
Defined.

Lemma versions_differ_without_password_witness :
  let j := opening carol_typed no_rows in
  let admin := (UserForm.handleSaveUser zeros j).2 in
  let later := (UserForm.handleSaveUser_later zeros j).2 in
  (truthy (UserManagement.editingUser (Job.view j)) = false
   ∧ trim (UserManagement.userEmail (Job.view j)) ≠ ""
   ∧ UserManagement.generatePassword (Job.view j) = false
   ∧ UserManagement.userPassword (Job.view j) = "")
  ∧ Job.calls admin = []
  ∧ UserManagement.error (Job.view admin) = Some "Password is required"
  ∧ ∃ reads,
      Job.calls later
      = auth_signUp (JObj (UserForm.sign_up carol_typed)) :: reads.
Proof.
  split; [by repeat split|].
  destruct (versions_differ_without_password zeros
              (opening carol_typed no_rows)
              eq_refl ltac:(discriminate) eq_refl eq_refl)
    as (Hcalls & _ & Herror & _ & reads & Hlater & _).
  split; [exact Hcalls|]. split; [exact Herror|]. by exists reads.
Defined.
